(** * Teleforce-Calendly webhook adapter: a shallow embedding

    The repository holds three versions of one Express service that receives
    Calendly webhooks, maps them to a TeleForce lead and forwards it:

    - [IndexJs]: [src/index.js] (body parsed by [express.json()], exact-name
      segment table, no default segment);
    - [RawBody]: the first document of [src/unnamed/part_000] (raw body,
      optional signature check, exact-name segment table with a default);
    - [EventType]: the second document of [src/unnamed/part_000] (raw body,
      event-type lookup over HTTP, keyword segment resolution).

    JavaScript values are embedded as an inductive type, exceptions as an
    [outcome], the handler's outbound HTTP calls as a trace. *)

From Stdlib Require Import ZArith String Ascii List Bool Lia DecimalString.
From stdpp Require Import gmap strings list.
Import ListNotations.
Local Open Scope string_scope.
Local Open Scope Z_scope.
Set Warnings "-register-all".

(** ** JavaScript strings

    A Rocq [string] stands for a JavaScript string whose code units are all
    below 256 (the Latin-1 range); [ascii] is one code unit. *)
Module JsString.

(** The characters matched by [\s] and removed by [trim()], among the code
    units below 256: TAB, LF, VT, FF, CR, SPACE and NO-BREAK SPACE. *)
Definition is_whitespace (c : ascii) : bool :=
  let n := N_of_ascii c in
  ((9 <=? n) && (n <=? 13) || (n =? 32) || (n =? 160))%N.

(** [toLowerCase] on one code unit: A-Z, and the Latin-1 capitals
    U+00C0..U+00DE except the multiplication sign U+00D7. *)
Definition lower_char (c : ascii) : ascii :=
  let n := N_of_ascii c in
  if ((65 <=? n) && (n <=? 90) || (192 <=? n) && (n <=? 222) && negb (n =? 215))%N
  then ascii_of_N (n + 32) else c.

Fixpoint toLowerCase (s : string) : string :=
  match s with
  | EmptyString => EmptyString
  | String c r => String (lower_char c) (toLowerCase r)
  end.

Fixpoint startsWith (s p : string) : bool :=
  match p, s with
  | EmptyString, _ => true
  | String _ _, EmptyString => false
  | String a p', String b s' => Ascii.eqb a b && startsWith s' p'
  end.

Fixpoint includes (s p : string) : bool :=
  startsWith s p ||
  match s with
  | EmptyString => false
  | String _ r => includes r p
  end.

Fixpoint trimStart (s : string) : string :=
  match s with
  | EmptyString => EmptyString
  | String c r => if is_whitespace c then trimStart r else s
  end.

Fixpoint trimEnd (s : string) : string :=
  match s with
  | EmptyString => EmptyString
  | String c r =>
      match trimEnd r with
      | EmptyString => if is_whitespace c then EmptyString else String c EmptyString
      | r' => String c r'
      end
  end.

Definition trim (s : string) : string := trimEnd (trimStart s).

(** [s.replace(/\s+/g, r)]: every maximal run of whitespace becomes [r].
    [in_run] tells that the previous code unit was whitespace. *)
Fixpoint replace_ws_from (r : string) (in_run : bool) (s : string) : string :=
  match s with
  | EmptyString => EmptyString
  | String c rest =>
      if is_whitespace c
      then (if in_run then replace_ws_from r true rest
            else r ++ replace_ws_from r true rest)
      else String c (replace_ws_from r false rest)
  end.

Definition replace_ws (r s : string) : string := replace_ws_from r false s.

(** [s.split(sep)] for a one-character separator. *)
Fixpoint split (sep : ascii) (s : string) : list string :=
  match s with
  | EmptyString => [EmptyString]
  | String c r =>
      if Ascii.eqb c sep then EmptyString :: split sep r
      else match split sep r with
           | h :: t => String c h :: t
           | [] => [String c EmptyString]
           end
  end.

(** [parts.join(sep)] on strings. *)
Fixpoint join (sep : string) (parts : list string) : string :=
  match parts with
  | [] => EmptyString
  | [p] => p
  | p :: rest => p ++ sep ++ join sep rest
  end.

Fixpoint has_char (c : ascii) (s : string) : bool :=
  match s with
  | EmptyString => false
  | String d r => Ascii.eqb d c || has_char c r
  end.

Definition of_Z (n : Z) : string := NilZero.string_of_int (Z.to_int n).

End JsString.

(** ** JavaScript values

    What [JSON.parse] can produce, plus [undefined].  Numbers are the safe
    integers (of magnitude below 2^53), which JavaScript represents exactly
    and prints as their decimal digits; fractions and larger numbers, which
    are rounded or print in another notation, are outside the embedding.  An
    object is the list of its own properties; a property is found at its
    first occurrence (a JSON text that repeats a key is represented with the
    value [JSON.parse] keeps). *)
Inductive value : Type :=
| VUndefined
| VNull
| VBool (b : bool)
| VNumber (n : Z)
| VString (s : string)
| VArray (items : list value)
| VObject (props : list (string * value)).

(** Exceptions: a [TypeError] raised by the language, or the error with which
    an axios call rejects ([response_data] is [error.response?.data]). *)
Inductive exn : Type :=
| TypeError
| AxiosError (response_data : value).

Inductive outcome (A : Type) : Type :=
| Ret (a : A)
| Throw (e : exn).
Arguments Ret {A} a.
Arguments Throw {A} e.

#[global] Instance outcome_ret : MRet outcome := fun _ a => Ret a.
#[global] Instance outcome_bind : MBind outcome := fun _ _ f m =>
  match m with
  | Ret a => f a
  | Throw e => Throw e
  end.

Module Js.

Definition Truthy (v : value) : bool :=
  match v with
  | VUndefined | VNull => false
  | VBool b => b
  | VNumber n => negb (n =? 0)
  | VString s => negb (s =? "")%string
  | VArray _ | VObject _ => true
  end.

Definition nullish (v : value) : bool :=
  match v with
  | VUndefined | VNull => true
  | _ => false
  end.

(** [a || b] and [a ?? b] on already evaluated operands. *)
Definition or (a b : value) : value := if Truthy a then a else b.
Definition coalesce (a b : value) : value := if nullish a then b else a.

Fixpoint own (props : list (string * value)) (k : string) : value :=
  match props with
  | [] => VUndefined
  | (k', v) :: rest => if (k' =? k)%string then v else own rest k
  end.

Definition has_own (props : list (string * value)) (k : string) : bool :=
  existsb (fun kv => (fst kv =? k)%string) props.

(** [o.k]: a [TypeError] on [undefined] and [null].  The handlers read only
    property names that no built-in prototype defines ([event], [payload],
    [data], [invitee], [name], [question], [answer], ...), so on a primitive
    or an array the result is [undefined] and on an object it is the own
    property. *)
Definition Get (o : value) (k : string) : outcome value :=
  match o with
  | VUndefined | VNull => Throw TypeError
  | VObject props => Ret (own props k)
  | _ => Ret VUndefined
  end.

(** [o?.k] *)
Definition GetOpt (o : value) (k : string) : value :=
  match o with
  | VObject props => own props k
  | _ => VUndefined
  end.

(** [String(v)], also the conversion to a property key and the one [join]
    applies.  A number of the embedding prints as its decimal digits.  An
    object parsed from JSON is converted by
    [Object.prototype.toString], unless it has an own [toString] property:
    that one is not callable, [valueOf] returns the object itself, and the
    conversion throws. An array is converted by [join(',')], where [null] and
    [undefined] elements give the empty string. *)
Fixpoint ToString (v : value) : outcome string :=
  match v with
  | VUndefined => Ret "undefined"
  | VNull => Ret "null"
  | VBool true => Ret "true"
  | VBool false => Ret "false"
  | VNumber n => Ret (JsString.of_Z n)
  | VString s => Ret s
  | VArray items =>
      (fix elements (l : list value) : outcome (list string) :=
         match l with
         | [] => Ret []
         | x :: r =>
             s ← (match x with
                  | VUndefined | VNull => Ret ""
                  | _ => ToString x
                  end);
             t ← elements r;
             Ret (s :: t)
         end) items ≫= fun parts => Ret (JsString.join "," parts)
  | VObject props =>
      if has_own props "toString" then Throw TypeError
      else Ret "[object Object]"
  end.

(** [arr.join(sep)] on values. *)
Fixpoint join_strings (l : list value) : outcome (list string) :=
  match l with
  | [] => Ret []
  | x :: r =>
      s ← (if nullish x then Ret "" else ToString x);
      t ← join_strings r;
      Ret (s :: t)
  end.

Definition join (sep : string) (l : list value) : outcome string :=
  parts ← join_strings l; Ret (JsString.join sep parts).

(** An answer counts when it is neither [undefined] nor [null] and its text,
    trimmed, is not empty. *)
Definition nonblank (v : value) : outcome bool :=
  if nullish v then Ret false
  else s ← ToString v; Ret (negb (JsString.trim s =? "")%string).

(** A template literal that interpolates [v] (the log lines): the
    conversion to a string can throw. *)
Definition interpolate (v : value) : outcome unit :=
  _ ← ToString v; Ret tt.

(** [a === b] against a string literal. *)
Definition is_string (v : value) (lit : string) : bool :=
  match v with
  | VString s => (s =? lit)%string
  | _ => false
  end.

(** [lits.includes(v)] for an array of string literals. *)
Definition includes_value (lits : list string) (v : value) : bool :=
  existsb (is_string v) lits.

End Js.

(** ** Objects written in the source

    An object literal of the source used as a lookup table ([SEGMENT_MAPPING],
    [FORM_MAPPINGS]) is a [gmap] of its own properties.  A bracket lookup with
    a computed key also sees what the literal inherits from
    [Object.prototype]: a function, or for [__proto__] the prototype itself,
    all of them truthy and none of them a string. *)
Inductive member (A : Type) : Type :=
| Own (a : A)
| Inherited (k : string).
Arguments Own {A} a.
Arguments Inherited {A} k.

Definition Object_prototype_keys : list string :=
  ["constructor"; "hasOwnProperty"; "isPrototypeOf"; "propertyIsEnumerable";
   "toLocaleString"; "toString"; "valueOf"; "__proto__";
   "__defineGetter__"; "__defineSetter__"; "__lookupGetter__"; "__lookupSetter__"].

Definition inherited (k : string) : bool :=
  existsb (String.eqb k) Object_prototype_keys.

(** [table[k]]; [None] is [undefined]. *)
Definition table_get {A : Type} (table : gmap string A) (k : string) : option (member A) :=
  match table !! k with
  | Some a => Some (Own a)
  | None => if inherited k then Some (Inherited k) else None
  end.

(** ** The [formAnswers] object

    [const formAnswers = {}] filled by [formAnswers[qa.question] = qa.answer].
    The keys come from the request, so the assignment can hit the inherited
    [__proto__] accessor, which replaces the prototype instead of adding a
    property.  A prototype taken from the payload is itself a parsed JSON
    value. *)
Module FormAnswers.

Inductive proto : Type :=
| ObjectPrototype
| NoPrototype
| FromPayload (v : value).

Record t : Type := mk { props : gmap string value; prototype : proto }.

Definition empty : t := {| props := ∅; prototype := ObjectPrototype |}.

Definition define (fa : t) (k : string) (v : value) : t :=
  {| props := <[k := v]> (props fa); prototype := prototype fa |}.

(** Does the assignment [fa["__proto__"] = v] reach the accessor of
    [Object.prototype]?  Not when an own or an inherited data property of
    that name is found first, nor when the chain has been cut. *)
Definition reaches_proto_setter (fa : t) : bool :=
  match props fa !! "__proto__" with
  | Some _ => false
  | None =>
      match prototype fa with
      | ObjectPrototype => true
      | NoPrototype => false
      | FromPayload (VObject ps) => negb (Js.has_own ps "__proto__")
      | FromPayload _ => true
      end
  end.

(** [fa[k] = v] *)
Definition set (fa : t) (k : string) (v : value) : t :=
  if (k =? "__proto__")%string && reaches_proto_setter fa then
    match v with
    | VObject _ | VArray _ => {| props := props fa; prototype := FromPayload v |}
    | VNull => {| props := props fa; prototype := NoPrototype |}
    | _ => fa
    end
  else define fa k v.

(** [fa[k]] for a key [k] that is no name of a member of [Object.prototype]
    ([inherited k = false]): under such a name the object would give the
    inherited member, which is no JSON value. The handlers read [formAnswers]
    only under the keys of [FORM_MAPPINGS] and the generic [City]/[city],
    [Address]/[address], none of which is such a name. *)
Definition get (fa : t) (k : string) : value :=
  match props fa !! k with
  | Some v => v
  | None =>
      match prototype fa with
      | FromPayload (VObject ps) => Js.own ps k
      | _ => VUndefined
      end
  end.

End FormAnswers.

(** ** The outbound payload, the environment and the handler monad *)

Record meta : Type := { meta_key : string; meta_value : value }.

Record teleforcePayload : Type := {
  name : value;
  email : value;
  mobile : value;
  city : value;
  address : value;
  usergroupid : option string;
  segmentid : member string;
  otherparams : list meta
}.

(** [process.env]: each variable is a string or unset. *)
Record Env : Type := {
  TELEFORCE_API_URL : option string;
  TELEFORCE_ACCOUNT_ID : option string;
  CALENDLY_ACCESS_TOKEN : option string;
  CALENDLY_WEBHOOK_SIGNING_KEY : option string;
  CALENDLY_VERIFY_SIGNATURE : option string
}.

(** An axios call resolves with [response.data], or rejects (network error,
    status outside 2xx, timeout, unusable URL) with an error whose
    [response?.data] is given. *)
Inductive http_result : Type :=
| Resolved (data : value)
| Rejected (response_data : value).

(** The libraries and the network around the handler. *)
Record World : Type := {
  (** [JSON.parse(text)]; [None] when it throws *)
  JSON_parse : string → option value;
  (** [crypto.createHmac('sha256', key).update(data, 'utf8').digest('hex')] *)
  hmac_sha256_hex : string → string → string;
  (** [axios.get(url, {headers: {Authorization: `Bearer ${token}`}, ...})] *)
  axios_get : value → option string → http_result;
  (** [axios.post(url, payload, ...)] *)
  axios_post : option string → teleforcePayload → http_result
}.

Inductive outcall : Type :=
| GET (url : value)
| POST (url : option string) (data : teleforcePayload).

(** What [res.status(..).json(..)] sends. *)
Inductive response : Type :=
| Json (status : Z) (body : value)
  (** [200 {success: true, message: 'Lead sent to TeleForce', <key>: segment, segmentid}];
      [index.js] sends no [segmentid] *)
| LeadSent (key : string) (segment : value) (segmentid : option (member string))
  (** [500 {success: false, error: error.message, details: error.response?.data}] *)
| ServerError (e : exn).

Definition status_of (r : response) : Z :=
  match r with
  | Json s _ => s
  | LeadSent _ _ _ => 200
  | ServerError _ => 500
  end.

(** A handler body runs to its end, returns early after sending a response,
    or throws into the [catch] of the route; it appends to the trace of
    outbound calls. *)
Inductive step (A : Type) : Type :=
| Next (a : A)
| Respond (r : response)
| Raise (e : exn).
Arguments Next {A} a.
Arguments Respond {A} r.
Arguments Raise {A} e.

Definition Handler (A : Type) : Type := list outcall → step A * list outcall.

#[global] Instance handler_ret : MRet Handler := fun _ a tr => (Next a, tr).
#[global] Instance handler_bind : MBind Handler := fun _ _ f m tr =>
  match m tr with
  | (Next a, tr') => f a tr'
  | (Respond r, tr') => (Respond r, tr')
  | (Raise e, tr') => (Raise e, tr')
  end.

Definition respond {A : Type} (r : response) : Handler A := fun tr => (Respond r, tr).

Definition lift {A : Type} (o : outcome A) : Handler A := fun tr =>
  match o with
  | Ret a => (Next a, tr)
  | Throw e => (Raise e, tr)
  end.

(** [await axios.get(..)] and [await axios.post(..)]: the call is recorded,
    a rejection is thrown. *)
Definition await_get (w : World) (url : value) (token : option string) : Handler value :=
  fun tr =>
    match axios_get w url token with
    | Resolved d => (Next d, (tr ++ [GET url])%list)
    | Rejected d => (Raise (AxiosError d), (tr ++ [GET url])%list)
    end.

Definition await_post (w : World) (url : option string) (p : teleforcePayload) : Handler value :=
  fun tr =>
    match axios_post w url p with
    | Resolved d => (Next d, (tr ++ [POST url p])%list)
    | Rejected d => (Raise (AxiosError d), (tr ++ [POST url p])%list)
    end.

(** The route: the body inside [try], the [catch] that answers 500. *)
Definition run (body : Handler response) : response * list outcall :=
  match body [] with
  | (Next r, tr) | (Respond r, tr) => (r, tr)
  | (Raise e, tr) => (ServerError e, tr)
  end.

(** ** Static configuration

    The two table literals are the same in the three versions. *)
Definition CRO_segment : string := "SEG07ootjebf6hm231767941287541".
Definition Performance_segment : string := "SEGtgewk86jmjb31767941272012".
Definition default_segment : string := "SEGplj45zsru74b1767770566946".

Definition SEGMENT_MAPPING : gmap string string :=
  <["CRO" := CRO_segment]>
    (<["Performance" := Performance_segment]>
       (<["default_segment" := default_segment]> ∅)).

Record StandardFields : Type := { city_keys : list string; address_keys : list string }.
Record FormConfig : Type := { standardFields : StandardFields }.

Definition FORM_MAPPINGS : gmap string FormConfig :=
  <["CRO" := {| standardFields :=
                  {| city_keys := ["City"; "city"]; address_keys := ["Address"; "address"] |} |}]>
    (<["Performance" := {| standardFields :=
                  {| city_keys := ["City"; "city"]; address_keys := ["Address"; "address"] |} |}]> ∅).

(** [SEGMENT_MAPPING[k] || SEGMENT_MAPPING.default_segment] *)
Definition or_default_segment (m : option (member string)) : member string :=
  match m with
  | Some (Own s) => if (s =? "")%string then Own default_segment else Own s
  | Some (Inherited k) => Inherited k
  | None => Own default_segment
  end.

Definition skipFields : list string := ["City"; "city"; "Address"; "address"].

(** A request on the raw-body route: the UTF-8 text of the body that
    [express.raw()] buffered, and the [calendly-webhook-signature] header
    (Node lower-cases header names). *)
Record raw_request : Type := {
  body_text : string;
  signature_header : option string
}.

Definition obj_message (m : string) : value := VObject [("message", VString m)].
Definition obj_failure (m : string) : value :=
  VObject [("success", VBool false); ("error", VString m)].

(** [Buffer.from(s, 'hex')]: two hex digits per byte, decoding stops at the
    first pair that is not hexadecimal. *)
Module Buffer.

Definition hex_digit (c : ascii) : option N :=
  let n := N_of_ascii c in
  if ((48 <=? n) && (n <=? 57))%N then Some (n - 48)%N
  else if ((97 <=? n) && (n <=? 102))%N then Some (n - 87)%N
  else if ((65 <=? n) && (n <=? 70))%N then Some (n - 55)%N
  else None.

Fixpoint from_hex (s : string) : list N :=
  match s with
  | String a (String b r) =>
      match hex_digit a, hex_digit b with
      | Some x, Some y => (16 * x + y)%N :: from_hex r
      | _, _ => []
      end
  | _ => []
  end.

(** [crypto.timingSafeEqual(a, b)] on buffers of one length. *)
Fixpoint timingSafeEqual (a b : list N) : bool :=
  match a, b with
  | [], [] => true
  | x :: a', y :: b' => (x =? y)%N && timingSafeEqual a' b'
  | _, _ => false
  end.

End Buffer.

(** ** The raw-body version with the optional signature check
    ([src/unnamed/part_000], first document) *)
Module RawBody.
Section Route.
Variable w : World.
Variable env : Env.

(** [process.env.X || fallback] *)
Definition env_or (x : option string) (fallback : string) : string :=
  match x with
  | Some s => if (s =? "")%string then fallback else s
  | None => fallback
  end.

Definition ENABLE_SIGNATURE_VERIFY : bool :=
  (JsString.toLowerCase (env_or (CALENDLY_VERIFY_SIGNATURE env) "false") =? "true")%string.

(** [!x] for a string or [undefined] *)
Definition missing (x : option string) : bool :=
  match x with
  | Some s => (s =? "")%string
  | None => true
  end.

Definition safeJsonParse (buf : string) : value :=
  match JSON_parse w buf with
  | Some v => v
  | None => VNull
  end.

(** [part.split('=')[1]] *)
Definition after_equals (part : string) : option string :=
  JsString.split "=" part !! 1%nat.

Definition verifyCalendlySignature
    (rawBody : string) (signatureHeader signingKey : option string) : outcome bool :=
  if missing signatureHeader || missing signingKey then Ret false else
  match signatureHeader, signingKey with
  | Some header, Some key =>
      let parts := JsString.split "," header in
      let tPart := List.find (fun p => JsString.startsWith (JsString.trim p) "t=") parts in
      let v1Part := List.find (fun p => JsString.startsWith (JsString.trim p) "v1=") parts in
      if missing tPart || missing v1Part then Ret false else
      match tPart, v1Part with
      | Some tp, Some vp =>
          let t := after_equals tp in
          let sig := after_equals vp in
          (* the template literal prints an undefined [t] as "undefined" *)
          let payloadToSign := (default "undefined" t ++ "." ++ rawBody)%string in
          let expected := hmac_sha256_hex w key payloadToSign in
          let a := Buffer.from_hex expected in
          (* [Buffer.from(undefined, 'hex')] throws *)
          b ← (match sig with
               | Some s => Ret (Buffer.from_hex s)
               | None => Throw TypeError
               end);
          if negb (length a =? length b)%nat then Ret false
          else Ret (Buffer.timingSafeEqual a b)
      | _, _ => Ret false
      end
  | _, _ => Ret false
  end.

(** The header has a comma-separated component that starts with [tag]. *)
Definition has_component (tag header : string) : bool :=
  existsb (fun p => JsString.startsWith (JsString.trim p) tag) (JsString.split "," header).

Record normalized : Type := {
  event : value;
  invitee : value;
  eventData : value;
  questionsAnswers : value
}.

Definition normalizeCalendlyWebhook (body : value) : normalized :=
  let payload := Js.GetOpt body "payload" in
  let data := Js.GetOpt body "data" in
  {| event := Js.GetOpt body "event";
     invitee := Js.or (Js.GetOpt payload "invitee") (Js.GetOpt data "invitee");
     eventData := Js.or (Js.GetOpt payload "event") (Js.GetOpt data "event");
     questionsAnswers :=
       Js.or (Js.or (Js.or (Js.GetOpt payload "questions_and_answers")
                           (Js.GetOpt (Js.GetOpt payload "questions_and_answers") "collection"))
                    (Js.GetOpt (Js.GetOpt data "payload") "questions_and_answers"))
             (VArray []) |}.

Fixpoint pickFirst (formAnswers : FormAnswers.t) (keys : list string) : outcome value :=
  match keys with
  | [] => Ret (VString "")
  | k :: rest =>
      let v := FormAnswers.get formAnswers k in
      if Js.nullish v then pickFirst formAnswers rest
      else
        s ← Js.ToString v;
        if (JsString.trim s =? "")%string then pickFirst formAnswers rest
        else Ret v
  end.

(** [questionsAnswers.forEach((qa) => { if (qa?.question) formAnswers[qa.question] = qa.answer; })] *)
Fixpoint collect_answers (formAnswers : FormAnswers.t) (qas : list value)
    : outcome FormAnswers.t :=
  match qas with
  | [] => Ret formAnswers
  | qa :: rest =>
      let q := Js.GetOpt qa "question" in
      if Js.Truthy q then
        a ← Js.Get qa "answer";
        k ← Js.ToString q;
        collect_answers (FormAnswers.set formAnswers k a) rest
      else collect_answers formAnswers rest
  end.

(** The loop that pushes the answers to [otherparams]. *)
Fixpoint push_answers (qas : list value) : outcome (list meta) :=
  match qas with
  | [] => Ret []
  | qa :: rest =>
      let q := Js.GetOpt qa "question" in
      if negb (Js.Truthy q) then push_answers rest
      else if Js.includes_value skipFields q then push_answers rest
      else
        match q with
        | VString s =>
            a ← Js.Get qa "answer";
            more ← push_answers rest;
            Ret ({| meta_key := JsString.replace_ws "_" s;
                    meta_value := Js.coalesce a (VString "") |} :: more)
        | _ => Throw TypeError   (* [qa.question.replace] is not a function *)
        end
  end.

(** [Array.isArray(x)] guarding a loop over [x] *)
Definition array_items (x : value) : list value :=
  match x with
  | VArray l => l
  | _ => []
  end.

Definition fullName_of (invitee : value) : outcome value :=
  n ← Js.Get invitee "name";
  if Js.Truthy n then Ret n
  else
    first ← Js.Get invitee "first_name";
    last ← Js.Get invitee "last_name";
    joined ← Js.join " " (List.filter Js.Truthy [first; last]);
    Ret (Js.or (VString joined) (VString "Unknown")).

Definition eventTitle_of (eventData : value) : outcome value :=
  n ← Js.Get eventData "name";
  Ret (Js.or (Js.or n (Js.GetOpt eventData "event_type")) (VString "")).

(** [formConfig ? pickFirst(formAnswers, formConfig.standardFields.<field>)
               : pickFirst(formAnswers, generic)];
    an inherited member has no [standardFields], reading a field of it throws. *)
Definition standard_field (formConfig : option (member FormConfig))
    (field : StandardFields → list string) (generic : list string)
    (formAnswers : FormAnswers.t) : outcome value :=
  match formConfig with
  | Some (Own c) => pickFirst formAnswers (field (standardFields c))
  | Some (Inherited _) => Throw TypeError
  | None => pickFirst formAnswers generic
  end.

(** Lines 194-262: from the normalized parts to the payload; also returns
    [eventTitle] for the response. *)
Definition buildPayload (invitee eventData questionsAnswers : value)
    : outcome (value * teleforcePayload) :=
  eventTitle ← eventTitle_of eventData;
  key ← Js.ToString eventTitle;
  let segmentId := or_default_segment (table_get SEGMENT_MAPPING key) in
  formAnswers ← collect_answers FormAnswers.empty (array_items questionsAnswers);
  fullName ← fullName_of invitee;
  e ← Js.Get invitee "email";
  let email := Js.or e (VString "") in
  trn ← Js.Get invitee "text_reminder_number";
  pn ← Js.Get invitee "phone_number";
  let mobile := Js.or (Js.or trn pn) (VString "") in
  let formConfig := table_get FORM_MAPPINGS key in
  city ← standard_field formConfig city_keys ["City"; "city"] formAnswers;
  address ← standard_field formConfig address_keys ["Address"; "address"] formAnswers;
  answers ← push_answers (array_items questionsAnswers);
  start ← Js.Get eventData "start_time";
  tz ← Js.Get invitee "timezone";
  Ret (eventTitle,
       {| name := fullName; email := email; mobile := mobile;
          city := city; address := address;
          usergroupid := TELEFORCE_ACCOUNT_ID env;
          segmentid := segmentId;
          otherparams :=
            answers ++
            [ {| meta_key := "Calendly_Event_Title"; meta_value := eventTitle |};
              {| meta_key := "Calendly_Event_Start"; meta_value := Js.or start (VString "") |};
              {| meta_key := "Calendly_Invitee_Email"; meta_value := email |};
              {| meta_key := "Calendly_Invitee_Timezone"; meta_value := Js.or tz (VString "") |} ] |}).

(** The optional check lets the request through. *)
Definition signature_accepted (req : raw_request) : bool :=
  if ENABLE_SIGNATURE_VERIFY then
    match verifyCalendlySignature (body_text req)
            (if missing (signature_header req) then None else signature_header req)
            (CALENDLY_WEBHOOK_SIGNING_KEY env) with
    | Ret ok => ok
    | Throw _ => false
    end
  else true.

Definition webhook (req : raw_request) : Handler response :=
  let rawBody := body_text req in
  let signatureHeader :=
    if missing (signature_header req) then None else signature_header req in
  let body := safeJsonParse (body_text req) in
  if negb (Js.Truthy body) then respond (Json 400 (obj_failure "Invalid JSON body")) else
  _ ← (if ENABLE_SIGNATURE_VERIFY then
         ok ← lift (verifyCalendlySignature rawBody signatureHeader
                      (CALENDLY_WEBHOOK_SIGNING_KEY env));
         if ok : bool then mret tt
         else respond (Json 401 (obj_failure "Invalid webhook signature"))
       else mret tt);
  let n := normalizeCalendlyWebhook body in
  _ ← lift (Js.interpolate (event n));
  if negb (Js.is_string (event n) "invitee.created")
  then respond (Json 200 (obj_message "Event ignored")) else
  if negb (Js.Truthy (invitee n)) || negb (Js.Truthy (eventData n))
  then respond (Json 200 (obj_failure "Missing invitee/event in payload")) else
  '(eventTitle, teleforcePayload) ← lift (buildPayload (invitee n) (eventData n) (questionsAnswers n));
  _ ← await_post w (TELEFORCE_API_URL env) teleforcePayload;
  mret (LeadSent "segment" eventTitle (Some (segmentid teleforcePayload))).

End Route.
End RawBody.

(** ** The version that looks the event type up and resolves the segment by
    keyword ([src/unnamed/part_000], second document) *)
Module EventType.
Section Route.
Variable w : World.
Variable env : Env.

Definition safeJsonParse (buf : string) : value :=
  match JSON_parse w buf with
  | Some v => v
  | None => VNull
  end.

Fixpoint pickFirst (formAnswers : FormAnswers.t) (keys : list string) : outcome value :=
  match keys with
  | [] => Ret (VString "")
  | k :: rest =>
      let v := FormAnswers.get formAnswers k in
      if Js.nullish v then pickFirst formAnswers rest
      else
        s ← Js.ToString v;
        if (JsString.trim s =? "")%string then pickFirst formAnswers rest
        else Ret v
  end.

Record normalized : Type := {
  event : value;
  invitee : value;
  eventData : value;
  questionsAnswers : value
}.

Definition normalizeCalendlyWebhook (body : value) : normalized :=
  let payload := Js.GetOpt body "payload" in
  {| event := Js.GetOpt body "event";
     invitee := Js.or payload VNull;
     eventData := Js.or (Js.GetOpt payload "scheduled_event") VNull;
     questionsAnswers := Js.or (Js.GetOpt payload "questions_and_answers") (VArray []) |}.

(** [try { ... } catch (err) { ...; return null; }] *)
Definition or_null (body : Handler value) : Handler value :=
  fun tr =>
    match body tr with
    | (Raise _, tr') => (Next VNull, tr')
    | other => other
    end.

(** [async function getEventTypeName]: no request is made without a URL,
    and the [catch] turns every exception raised inside, a rejection of the
    request as well as a log line that cannot print its value, into [null]. *)
Definition getEventTypeName (eventTypeUrl : value) : Handler value :=
  or_null
    (if negb (Js.Truthy eventTypeUrl) then mret VNull
     else
       _ ← lift (Js.interpolate eventTypeUrl);
       data ← await_get w eventTypeUrl (CALENDLY_ACCESS_TOKEN env);
       let name := Js.or (Js.GetOpt (Js.GetOpt data "resource") "name") VNull in
       _ ← lift (Js.interpolate name);
       mret name).

(** The lookup of the event type gives no name: there is no URL to ask, or
    the request is rejected (network error, status outside 2xx, timeout). *)
Definition lookup_fails (eventTypeUrl : value) : Prop :=
  Js.Truthy eventTypeUrl = false
  ∨ ∃ d, axios_get w eventTypeUrl (CALENDLY_ACCESS_TOKEN env) = Rejected d.

Record segment : Type := { segmentKey : string; segmentId : member string }.

(** [(eventTypeName || '').toLowerCase()] throws on a truthy value that is
    no string. *)
Definition resolveSegment (eventTypeName : value) : outcome segment :=
  name ← (match Js.or eventTypeName (VString "") with
          | VString s => Ret (JsString.toLowerCase s)
          | _ => Throw TypeError
          end);
  let segmentKey : option string :=
    if JsString.includes name "cro" then Some "CRO"
    else if JsString.includes name "performance" then Some "Performance"
    else None in
  (* a [null] key is looked up as the property "null" *)
  let segmentId := or_default_segment (table_get SEGMENT_MAPPING (default "null" segmentKey)) in
  Ret {| segmentKey := default "default_segment" segmentKey; segmentId := segmentId |}.

(** The predicate of [questionsAnswers.find]:
    [(q.question || '').toLowerCase().includes('mobile')] *)
Definition asks_mobile (q : value) : outcome bool :=
  question ← Js.Get q "question";
  match Js.or question (VString "") with
  | VString s => Ret (JsString.includes (JsString.toLowerCase s) "mobile")
  | _ => Throw TypeError
  end.

Fixpoint find_mobile (qas : list value) : outcome value :=
  match qas with
  | [] => Ret VUndefined
  | q :: rest =>
      hit ← asks_mobile q;
      if hit : bool then Ret q else find_mobile rest
  end.

(** [(questionsAnswers.find(..)?.answer || '').replace(/\s+/g, ' ').trim()];
    [find] exists on arrays only, [replace] on strings only. *)
Definition mobile_of (questionsAnswers : value) : outcome value :=
  match questionsAnswers with
  | VArray qas =>
      found ← find_mobile qas;
      match Js.or (Js.GetOpt found "answer") (VString "") with
      | VString s => Ret (VString (JsString.trim (JsString.replace_ws " " s)))
      | _ => Throw TypeError
      end
  | _ => Throw TypeError
  end.

Fixpoint collect_answers (formAnswers : FormAnswers.t) (qas : list value)
    : outcome FormAnswers.t :=
  match qas with
  | [] => Ret formAnswers
  | qa :: rest =>
      let q := Js.GetOpt qa "question" in
      if Js.Truthy q then
        a ← Js.Get qa "answer";
        k ← Js.ToString q;
        collect_answers (FormAnswers.set formAnswers k a) rest
      else collect_answers formAnswers rest
  end.

(** The loop that pushes the answers to [otherparams]: keeps everything. *)
Fixpoint push_answers (qas : list value) : outcome (list meta) :=
  match qas with
  | [] => Ret []
  | qa :: rest =>
      let q := Js.GetOpt qa "question" in
      if negb (Js.Truthy q) then push_answers rest
      else
        match q with
        | VString s =>
            a ← Js.Get qa "answer";
            more ← push_answers rest;
            Ret ({| meta_key := JsString.replace_ws "_" s;
                    meta_value := Js.coalesce a (VString "") |} :: more)
        | _ => Throw TypeError
        end
  end.

Definition array_items (x : value) : list value :=
  match x with
  | VArray l => l
  | _ => []
  end.

(** What is read from the invitee before the event type is fetched. *)
Record contact : Type := { fullName : value; contact_email : value; contact_mobile : value }.

Definition contact_of (invitee questionsAnswers : value) : outcome contact :=
  n ← Js.Get invitee "name";
  e ← Js.Get invitee "email";
  m ← mobile_of questionsAnswers;
  let c := {| fullName := Js.or n (VString "Unknown");
              contact_email := Js.or e (VString "");
              contact_mobile := m |} in
  _ ← Js.interpolate (fullName c);
  _ ← Js.interpolate (contact_email c);
  Ret c.

Definition standard_field (formConfig : option (member FormConfig))
    (field : StandardFields → list string) (generic : list string)
    (formAnswers : FormAnswers.t) : outcome value :=
  match formConfig with
  | Some (Own c) => pickFirst formAnswers (field (standardFields c))
  | Some (Inherited _) => Throw TypeError
  | None => pickFirst formAnswers generic
  end.

(** From the resolved event-type name to the payload; also returns the
    segment for the response. *)
Definition buildPayload (c : contact) (eventData questionsAnswers eventTypeName : value)
    : outcome (segment * teleforcePayload) :=
  seg ← resolveSegment eventTypeName;
  formAnswers ← collect_answers FormAnswers.empty (array_items questionsAnswers);
  let formConfig := table_get FORM_MAPPINGS (segmentKey seg) in
  city ← standard_field formConfig city_keys ["City"; "city"] formAnswers;
  address ← standard_field formConfig address_keys ["Address"; "address"] formAnswers;
  answers ← push_answers (array_items questionsAnswers);
  uri ← Js.Get eventData "uri";
  start ← Js.Get eventData "start_time";
  finish ← Js.Get eventData "end_time";
  Ret (seg,
       {| name := fullName c; email := contact_email c; mobile := contact_mobile c;
          city := city; address := address;
          usergroupid := TELEFORCE_ACCOUNT_ID env;
          segmentid := segmentId seg;
          otherparams :=
            answers ++
            [ {| meta_key := "Calendly_EventType_Name"; meta_value := Js.or eventTypeName (VString "") |};
              {| meta_key := "Calendly_ScheduledEvent_URI"; meta_value := Js.or uri (VString "") |};
              {| meta_key := "Calendly_Scheduled_Start"; meta_value := Js.or start (VString "") |};
              {| meta_key := "Calendly_Scheduled_End"; meta_value := Js.or finish (VString "") |} ] |}).

Definition webhook (req : raw_request) : Handler response :=
  let body := safeJsonParse (body_text req) in
  if negb (Js.Truthy body) then respond (Json 400 (obj_failure "Invalid JSON body")) else
  let n := normalizeCalendlyWebhook body in
  _ ← lift (Js.interpolate (event n));
  if negb (Js.is_string (event n) "invitee.created")
  then respond (Json 200 (obj_message "Event ignored")) else
  if negb (Js.Truthy (invitee n))
  then respond (Json 200 (obj_failure "Missing invitee in payload")) else
  if negb (Js.Truthy (eventData n))
  then respond (Json 200 (obj_failure "Missing scheduled_event in payload")) else
  c ← lift (contact_of (invitee n) (questionsAnswers n));
  eventTypeUrl ← lift (Js.Get (eventData n) "event_type");
  eventTypeName ← getEventTypeName eventTypeUrl;
  '(seg, teleforcePayload) ← lift (buildPayload c (eventData n) (questionsAnswers n) eventTypeName);
  _ ← await_post w (TELEFORCE_API_URL env) teleforcePayload;
  mret (LeadSent "segmentKey" (VString (segmentKey seg)) (Some (segmentid teleforcePayload))).

End Route.
End EventType.

(** ** [src/index.js]: the body is parsed by [express.json()] before the
    route runs *)
Module IndexJs.
Section Route.
Variable w : World.
Variable env : Env.

(** [list[i]] read as a property key *)
Definition key_at (l : list string) (i : nat) : string := default "undefined" (l !! i).

(** [questionsAnswers.forEach((qa) => { formAnswers[qa.question] = qa.answer; })] *)
Fixpoint collect_answers (formAnswers : FormAnswers.t) (qas : list value)
    : outcome FormAnswers.t :=
  match qas with
  | [] => Ret formAnswers
  | qa :: rest =>
      q ← Js.Get qa "question";
      a ← Js.Get qa "answer";
      k ← Js.ToString q;
      collect_answers (FormAnswers.set formAnswers k a) rest
  end.

(** The loop that adds the custom fields: the key is computed first. *)
Fixpoint push_answers (qas : list value) : outcome (list meta) :=
  match qas with
  | [] => Ret []
  | qa :: rest =>
      q ← Js.Get qa "question";
      match q with
      | VString s =>
          let key := JsString.replace_ws "_" s in
          if negb (Js.includes_value skipFields q) then
            a ← Js.Get qa "answer";
            more ← push_answers rest;
            Ret ({| meta_key := key; meta_value := a |} :: more)
          else push_answers rest
      | _ => Throw TypeError
      end
  end.

(** [x.forEach] is a function on arrays only *)
Definition forEach_items (x : value) : outcome (list value) :=
  match x with
  | VArray l => Ret l
  | _ => Throw TypeError
  end.

(** [formAnswers[k0] || formAnswers[k1] || ''] *)
Definition first_truthy (formAnswers : FormAnswers.t) (k0 k1 : string) : value :=
  Js.or (Js.or (FormAnswers.get formAnswers k0) (FormAnswers.get formAnswers k1)) (VString "").

Definition standard_field (formConfig : option (member FormConfig))
    (field : StandardFields → list string) (generic0 generic1 : string)
    (formAnswers : FormAnswers.t) : outcome value :=
  match formConfig with
  | Some (Own c) =>
      let keys := field (standardFields c) in
      Ret (first_truthy formAnswers (key_at keys 0) (key_at keys 1))
  | Some (Inherited _) => Throw TypeError
  | None => Ret (first_truthy formAnswers generic0 generic1)
  end.

(** [segmentId || ''] *)
Definition or_empty (m : option (member string)) : member string :=
  match m with
  | Some x => x
  | None => Own ""
  end.

(** Lines 59-133: from [data] to the payload; also returns [eventTitle]. *)
Definition buildPayload (data : value) : outcome (value * teleforcePayload) :=
  invitee ← Js.Get data "invitee";
  eventData ← Js.Get data "event";
  payload ← Js.Get data "payload";
  let questionsAnswers := Js.or (Js.GetOpt payload "questions_and_answers") (VArray []) in
  eventTitle ← Js.Get eventData "name";
  key ← Js.ToString eventTitle;
  let segmentId := table_get SEGMENT_MAPPING key in
  qas ← forEach_items questionsAnswers;
  formAnswers ← collect_answers FormAnswers.empty qas;
  n ← Js.Get invitee "name";
  let fullName := Js.or n (VString "Unknown") in
  e ← Js.Get invitee "email";
  let email := Js.or e (VString "") in
  trn ← Js.Get invitee "text_reminder_number";
  let mobile := Js.or trn (VString "") in
  let formConfig := table_get FORM_MAPPINGS key in
  city ← standard_field formConfig city_keys "City" "city" formAnswers;
  address ← standard_field formConfig address_keys "Address" "address" formAnswers;
  answers ← push_answers qas;
  start ← Js.Get eventData "start_time";
  tz ← Js.Get invitee "timezone";
  Ret (eventTitle,
       {| name := fullName; email := email; mobile := mobile;
          city := city; address := address;
          usergroupid := TELEFORCE_ACCOUNT_ID env;
          segmentid := or_empty segmentId;
          otherparams :=
            answers ++
            [ {| meta_key := "Segment_Name"; meta_value := eventTitle |};
              {| meta_key := "Scheduled_Time"; meta_value := start |};
              {| meta_key := "Timezone"; meta_value := tz |} ] |}).

(** The response of the [catch] has no [details] in this version. *)
Definition webhook (req_body : value) : Handler response :=
  event ← lift (Js.Get req_body "event");
  data ← lift (Js.Get req_body "data");
  _ ← lift (Js.interpolate event);
  if negb (Js.is_string event "invitee.created")
  then respond (Json 200 (obj_message "Event ignored")) else
  '(eventTitle, teleforcePayload) ← lift (buildPayload data);
  _ ← await_post w (TELEFORCE_API_URL env) teleforcePayload;
  mret (LeadSent "segment" eventTitle None).

End Route.
End IndexJs.

(** ** Specification of the field lookup *)

(** What [pickFirst] returns: the answer under the first key that has a
    non-blank answer, the empty string when no key has one. *)
Inductive first_nonblank (fa : FormAnswers.t) : list string → value → Prop :=
| first_none : first_nonblank fa [] (VString "")
| first_here k keys :
    Js.nonblank (FormAnswers.get fa k) = Ret true →
    first_nonblank fa (k :: keys) (FormAnswers.get fa k)
| first_later k keys v :
    Js.nonblank (FormAnswers.get fa k) = Ret false →
    first_nonblank fa keys v →
    first_nonblank fa (k :: keys) v.

(** ** Specification of the metadata list

    Which entries of [questionsAnswers] a version keeps, and the metadata
    entry a kept one becomes. *)
Definition question_of (qa : value) : value := Js.GetOpt qa "question".
Definition answer_of (qa : value) : value := Js.GetOpt qa "answer".

(** The raw-body version drops the questions it has used for city and
    address; the event-type version keeps every question. *)
Definition kept_but_standard (qa : value) : bool :=
  Js.Truthy (question_of qa) && negb (Js.includes_value skipFields (question_of qa)).

Definition kept_all (qa : value) : bool := Js.Truthy (question_of qa).

Definition entry_of (qa : value) : meta :=
  {| meta_key := match question_of qa with
                 | VString s => JsString.replace_ws "_" s
                 | _ => ""
                 end;
     meta_value := Js.coalesce (answer_of qa) (VString "") |}.

Definition has_text_question (kept : value → bool) (qa : value) : Prop :=
  kept qa = true → ∃ s, question_of qa = VString s.

(** ** Sample requests *)
Module Sample.

Definition env : Env :=
  {| TELEFORCE_API_URL := Some "https://teleforce.example/api/leads";
     TELEFORCE_ACCOUNT_ID := Some "ACC-1";
     CALENDLY_ACCESS_TOKEN := Some "token";
     CALENDLY_WEBHOOK_SIGNING_KEY := Some "key";
     CALENDLY_VERIFY_SIGNATURE := None |}.

(** The same environment with the signature check switched on. *)
Definition env_verifying : Env :=
  {| TELEFORCE_API_URL := TELEFORCE_API_URL env;
     TELEFORCE_ACCOUNT_ID := TELEFORCE_ACCOUNT_ID env;
     CALENDLY_ACCESS_TOKEN := CALENDLY_ACCESS_TOKEN env;
     CALENDLY_WEBHOOK_SIGNING_KEY := CALENDLY_WEBHOOK_SIGNING_KEY env;
     CALENDLY_VERIFY_SIGNATURE := Some "TRUE" |}.

(** A world where every body parses to [body] and the two services answer
    as given. *)
Definition world (body : value) (lookup forward : http_result) : World :=
  {| JSON_parse := fun _ => Some body;
     hmac_sha256_hex := fun _ _ => "00";
     axios_get := fun _ _ => lookup;
     axios_post := fun _ _ => forward |}.

Definition request : raw_request := {| body_text := "{}"; signature_header := None |}.

Definition jane : value :=
  VObject [("name", VString "Jane Doe"); ("email", VString "jane@x.com");
           ("timezone", VString "America/Chicago")].

(** An envelope for another event than the booking of an invitee. *)
Definition canceled : value :=
  VObject [("event", VString "invitee.canceled");
           ("payload", VObject [("name", VString "Jane Doe")])].

Definition answers : value :=
  VArray [VObject [("question", VString "Company  name"); ("answer", VString "Acme")];
          VObject [("question", VString "City"); ("answer", VString "Austin")];
          VObject [("question", VString "Budget"); ("answer", VNull)]].

(** The [data] of a request in the shape [index.js] reads, for an event
    title that is no key of [SEGMENT_MAPPING]. *)
Definition data_discovery : value :=
  VObject [("invitee", jane);
           ("event", VObject [("name", VString "Discovery Call");
                              ("start_time", VString "2024-01-01T10:00:00Z")]);
           ("payload", VObject [("questions_and_answers", answers)])].

(** A booking in the shape the event-type version reads. *)
Definition booking : value :=
  VObject [("event", VString "invitee.created");
           ("payload",
            VObject [("name", VString "Jane Doe"); ("email", VString "jane@x.com");
                     ("questions_and_answers", answers);
                     ("scheduled_event",
                      VObject [("uri", VString "https://api.calendly.com/scheduled_events/E1");
                               ("event_type", VString "https://api.calendly.com/event_types/T1");
                               ("start_time", VString "2024-01-01T10:00:00Z");
                               ("end_time", VString "2024-01-01T10:30:00Z")])])].

(** The event-type lookup is rejected, the forward succeeds. *)
Definition lookup_down : World :=
  world booking (Rejected (VObject [("message", VString "Not Found")])) (Resolved VNull).

(** An invitee known by first and last name only. *)
Definition first_last : value :=
  VObject [("first_name", VString "Jane"); ("last_name", VString "Doe");
           ("email", VString "jane@x.com")].

Definition data_first_last : value :=
  VObject [("invitee", first_last);
           ("event", VObject [("name", VString "CRO");
                              ("start_time", VString "2024-01-01T10:00:00Z")]);
           ("payload", VObject [("questions_and_answers", answers)])].

(** The preferred key is answered with blanks, the lower-case key with a
    city. *)
Definition blank_city_answers : value :=
  VArray [VObject [("question", VString "City"); ("answer", VString " ")];
          VObject [("question", VString "city"); ("answer", VString "Austin")]].

Definition cro_event : value :=
  VObject [("name", VString "CRO"); ("start_time", VString "2024-01-01T10:00:00Z")].

Definition data_blank_city : value :=
  VObject [("invitee", jane); ("event", cro_event);
           ("payload", VObject [("questions_and_answers", blank_city_answers)])].

(** The event-type lookup names the event type, the forward succeeds. *)
Definition lookup_up : World :=
  world booking
    (Resolved (VObject [("resource", VObject [("name", VString "Website CRO Meet")])]))
    (Resolved VNull).

(** The envelope [index.js] reads: invitee and event under [data]. *)
Definition legacy : value :=
  VObject [("event", VString "invitee.created"); ("data", data_discovery)].

(** A document of mixed shape: the invitee under [payload], the event and
    the answers under [data]. *)
Definition mixed : value :=
  VObject [("event", VString "invitee.created");
           ("payload", VObject [("invitee", jane)]);
           ("data", VObject [("event", cro_event);
                             ("payload", VObject [("questions_and_answers", answers)])])].

End Sample.

(** ** Specification of the form answers

    The answer of the last entry of the sequence that asks [k]. *)
Fixpoint last_answer (k : string) (qas : list value) : option value :=
  match qas with
  | [] => None
  | qa :: rest =>
      match last_answer k rest with
      | Some a => Some a
      | None =>
          if Js.Truthy (question_of qa) && Js.is_string (question_of qa) k
          then Some (answer_of qa)
          else None
      end
  end.

(** An entry without a question, or with a text question other than
    [__proto__]. *)
Definition plain_question (qa : value) : Prop :=
  Js.Truthy (question_of qa) = false
  ∨ ∃ s, question_of qa = VString s ∧ s ≠ "__proto__".

(** ** Specification of the metadata list of [index.js]

    [index.js] drops the city and address questions and passes the answer on
    as it is. *)
Definition kept_by_index (qa : value) : bool :=
  negb (Js.includes_value skipFields (question_of qa)).

Definition raw_entry_of (qa : value) : meta :=
  {| meta_key := match question_of qa with
                 | VString s => JsString.replace_ws "_" s
                 | _ => ""
                 end;
     meta_value := answer_of qa |}.

Definition text_question (qa : value) : Prop := ∃ s, question_of qa = VString s.

(** ** The [/register-webhook] routes

    [GET /register-webhook?url=..&organization=..&scope=..] creates a
    webhook subscription at Calendly. A query parameter is a string, an
    array or an object of the query parser, or [undefined]. *)
Module Register.

Record query : Type := {
  query_url : value;
  query_organization : value;
  query_scope : value
}.

(** The body posted to [https://api.calendly.com/webhook_subscriptions];
    [index.js] sends neither [organization] nor [scope]. *)
Record subscription : Type := {
  url : value;
  events : list string;
  organization : option value;
  scope : option value
}.

Definition registered (data : value) : response :=
  Json 200 (VObject [("success", VBool true);
                     ("message", VString "Webhook registered in Calendly");
                     ("data", data)]).

Section Routes.
(** [axios.post('https://api.calendly.com/webhook_subscriptions', body,
    {headers: {Authorization: `Bearer ${CALENDLY_TOKEN}`, ...}})] *)
Variable post_subscription : subscription → option string → http_result.
Variable env : Env.

Definition submit (s : subscription) : response * list subscription :=
  match post_subscription s (CALENDLY_ACCESS_TOKEN env) with
  | Resolved data => (registered data, [s])
  | Rejected d => (ServerError (AxiosError d), [s])
  end.

(** [src/index.js], lines 165-205 *)
Definition register_index (q : query) : response * list subscription :=
  let webhookUrl := query_url q in
  if negb (Js.Truthy webhookUrl)
  then (Json 400 (VObject [("error", VString "URL parameter required")]), [])
  else
    match Js.interpolate webhookUrl with
    | Throw e => (ServerError e, [])
    | Ret _ =>
        submit {| url := webhookUrl; events := ["invitee.created"];
                  organization := None; scope := None |}
    end.

(** [src/unnamed/part_000], lines 304-355 *)
Definition register_raw (q : query) : response * list subscription :=
  let webhookUrl := query_url q in
  let organization := query_organization q in
  let scope := Js.or (query_scope q) (VString "organization") in
  if negb (Js.Truthy webhookUrl) || negb (Js.Truthy organization)
  then (Json 400
          (VObject [("error", VString "Missing params");
                    ("required",
                     VObject [("url", VString "https://your-service.onrender.com/api/webhook");
                              ("organization",
                               VString "https://api.calendly.com/organizations/XXXX")])]),
        [])
  else
    match (_ ← Js.interpolate webhookUrl;
           _ ← Js.interpolate organization;
           Js.interpolate scope) with
    | Throw e => (ServerError e, [])
    | Ret _ =>
        submit {| url := webhookUrl; events := ["invitee.created"];
                  organization := Some organization; scope := Some scope |}
    end.

End Routes.
End Register.

(** ** Bookings that run through to the forward

    What a request has to look like for a handler to reach the POST: the
    values that the handler prints, joins or calls a string method on are
    texts, or at least values that print without reading the payload any
    further. *)

(** Neither an array nor an object. *)
Definition scalar (v : value) : bool :=
  match v with
  | VArray _ | VObject _ => false
  | _ => true
  end.

(** A text, or nothing. *)
Definition text_or_missing (v : value) : bool :=
  match v with
  | VString _ | VNull | VUndefined => true
  | _ => false
  end.

(** An entry of [questions_and_answers] that the loops of the raw-body
    versions get through: it has no question, or a text question and an
    answer that is no array and no object. *)
Definition form_entry (qa : value) : Prop :=
  Js.Truthy (question_of qa) = false
  ∨ (∃ s, question_of qa = VString s) ∧ scalar (answer_of qa) = true.

(** An entry that the search for the mobile number gets through as well:
    the entry itself is there, and its answer is a text or missing. *)
Definition text_entry (qa : value) : Prop :=
  Js.nullish qa = false
  ∧ (Js.Truthy (question_of qa) = false ∨ ∃ s, question_of qa = VString s)
  ∧ text_or_missing (answer_of qa) = true.

(** An invitee with a name, or with first and last name that can be
    joined. *)
Definition named_invitee (invitee : value) : Prop :=
  Js.Truthy (Js.GetOpt invitee "name") = true
  ∨ scalar (Js.GetOpt invitee "first_name") = true
    ∧ scalar (Js.GetOpt invitee "last_name") = true.

(** The answer of the event-type service, when there is one, names the
    event type by a text or not at all. *)
Definition names_a_text (r : http_result) : Prop :=
  match r with
  | Rejected _ => True
  | Resolved data =>
      let name := Js.GetOpt (Js.GetOpt data "resource") "name" in
      Js.Truthy name = false ∨ ∃ s, name = VString s
  end.

(** All answers collected so far are scalars and no answer has been made
    the prototype. *)
Definition scalar_answers (fa : FormAnswers.t) : Prop :=
  (∀ k v, FormAnswers.props fa !! k = Some v → scalar v = true)
  ∧ (∀ v, FormAnswers.prototype fa ≠ FormAnswers.FromPayload v).

(** A booking for the raw-body version: the event is [invitee.created], the
    invitee is found and can be named, the event has the title [t], which is
    no name of a built-in member, and the answers are form entries. *)
Definition raw_booking (body : value) (t : string) : Prop :=
  let n := RawBody.normalizeCalendlyWebhook body in
  RawBody.event n = VString "invitee.created"
  ∧ Js.Truthy (RawBody.invitee n) = true
  ∧ named_invitee (RawBody.invitee n)
  ∧ Js.GetOpt (RawBody.eventData n) "name" = VString t
  ∧ t ≠ "" ∧ inherited t = false
  ∧ Forall form_entry (RawBody.array_items (RawBody.questionsAnswers n)).

(** A booking for the event-type version: the event is [invitee.created],
    [payload] and [payload.scheduled_event] are there, name and e-mail of the
    invitee print, the answers are the array [l] of text entries, and the
    event-type service, if it is asked and answers, names a text. *)
Definition event_type_booking (w : World) (env : Env) (body : value) (l : list value) : Prop :=
  let n := EventType.normalizeCalendlyWebhook body in
  EventType.event n = VString "invitee.created"
  ∧ Js.Truthy (EventType.invitee n) = true
  ∧ Js.Truthy (EventType.eventData n) = true
  ∧ scalar (Js.GetOpt (EventType.invitee n) "name") = true
  ∧ scalar (Js.GetOpt (EventType.invitee n) "email") = true
  ∧ EventType.questionsAnswers n = VArray l
  ∧ Forall text_entry l
  ∧ (Js.Truthy (Js.GetOpt (EventType.eventData n) "event_type") = false
     ∨ names_a_text (axios_get w (Js.GetOpt (EventType.eventData n) "event_type")
                       (CALENDLY_ACCESS_TOKEN env))).

(** A booking for [index.js]: the event is [invitee.created], [data] has an
    invitee and an event with the title [t], which is no name of a built-in
    member, and the answers are the array [l] of entries with text
    questions. *)
Definition index_booking (body : value) (t : string) (l : list value) : Prop :=
  let data := Js.GetOpt body "data" in
  Js.GetOpt body "event" = VString "invitee.created"
  ∧ Js.nullish (Js.GetOpt data "invitee") = false
  ∧ Js.GetOpt (Js.GetOpt data "event") "name" = VString t
  ∧ inherited t = false
  ∧ Js.or (Js.GetOpt (Js.GetOpt data "payload") "questions_and_answers") (VArray []) = VArray l
  ∧ Forall text_question l.

(** * Properties *)

Example ToString_nested :
  Js.ToString (VArray [VNumber 1; VNull; VArray [VString "a"; VBool true]]) = Ret "1,,a,true".
Proof. reflexivity. Qed.

Example split_header :
  JsString.split "," "t=1, v1=ab" = ["t=1"; " v1=ab"].
Proof. reflexivity. Qed.

Example replace_ws_runs :
  JsString.replace_ws "_" "What  is your
 city" = "What_is_your_city".
Proof. reflexivity. Qed.

Example trim_both : JsString.trim "  a b  " = "a b".
Proof. reflexivity. Qed.

(** A booking of a "Website CRO Meet" goes to the CRO segment, with the city
    taken from the answers. *)
Example booking_is_forwarded :
  ∃ p tr,
    run (EventType.webhook Sample.lookup_up Sample.env Sample.request)
    = (LeadSent "segmentKey" (VString "CRO") (Some (Own CRO_segment)), tr)
    ∧ tr = [GET (VString "https://api.calendly.com/event_types/T1");
            POST (TELEFORCE_API_URL Sample.env) p]
    ∧ name p = VString "Jane Doe"
    ∧ city p = VString "Austin"
    ∧ segmentid p = Own CRO_segment
    ∧ map meta_key (otherparams p)
      = ["Company_name"; "City"; "Budget"; "Calendly_EventType_Name";
         "Calendly_ScheduledEvent_URI"; "Calendly_Scheduled_Start"; "Calendly_Scheduled_End"].
Proof.
  eexists. eexists. split; [vm_compute; reflexivity|].
  repeat split; reflexivity.
Qed.

Example from_hex_stops : Buffer.from_hex "0aFFzz11" = [10%N; 255%N].
Proof. reflexivity. Qed.

(** ** The outcome monad *)

Lemma bind_Ret_inv {A B : Type} (m : outcome A) (f : A → outcome B) (b : B) :
  m ≫= f = Ret b → ∃ a, m = Ret a ∧ f a = Ret b.
Proof. destruct m as [a|e]; simpl; intros H; [eauto | discriminate]. Qed.

Lemma bind_Ret {A B : Type} (m : outcome A) (f : A → outcome B) (a : A) :
  m = Ret a → m ≫= f = f a.
Proof. intros ->. reflexivity. Qed.

(** Splits a hypothesis [x ← m; k = Ret r] into [m = Ret a] and [k a = Ret r]. *)
Ltac invert_bind H :=
  let a := fresh "a" in
  let Ha := fresh "H" a in
  apply bind_Ret_inv in H; destruct H as (a & Ha & H).

Ltac invert_binds H :=
  repeat (let a := fresh "a" in
          let Ha := fresh "H" a in
          apply bind_Ret_inv in H; destruct H as (a & Ha & H)).

Lemma or_string_empty (s : string) : Js.or (VString s) (VString "") = VString s.
Proof. unfold Js.or; simpl. destruct (String.eqb_spec s ""); subst; reflexivity. Qed.

Lemma Truthy_string (s : string) : Js.Truthy (VString s) = true ↔ s ≠ "".
Proof. simpl. destruct (String.eqb_spec s ""); simpl; split; congruence. Qed.

(** ** Segment resolution *)

Lemma SEGMENT_MAPPING_default : table_get SEGMENT_MAPPING "default_segment" = Some (Own default_segment).
Proof. reflexivity. Qed.

Lemma resolveSegment_string (s : string) :
  EventType.resolveSegment (VString s) =
  Ret (let name := JsString.toLowerCase s in
       if JsString.includes name "cro"
       then {| EventType.segmentKey := "CRO"; EventType.segmentId := Own CRO_segment |}
       else if JsString.includes name "performance"
       then {| EventType.segmentKey := "Performance"; EventType.segmentId := Own Performance_segment |}
       else {| EventType.segmentKey := "default_segment"; EventType.segmentId := Own default_segment |}).
Proof.
  unfold EventType.resolveSegment. rewrite or_string_empty. cbn [mbind outcome_bind].
  destruct (JsString.includes _ "cro"); [reflexivity|].
  destruct (JsString.includes _ "performance"); reflexivity.
Qed.

Lemma resolveSegment_falsy (v : value) :
  Js.Truthy v = false →
  EventType.resolveSegment v =
  Ret {| EventType.segmentKey := "default_segment"; EventType.segmentId := Own default_segment |}.
Proof. intros H. unfold EventType.resolveSegment, Js.or. rewrite H. reflexivity. Qed.

(** The segment id of the payload is the one [resolveSegment] gives for the
    event-type name, whatever the rest of the request and the environment. *)
Lemma EventType_segmentid env c eventData qas name seg p :
  EventType.buildPayload env c eventData qas name = Ret (seg, p) →
  EventType.resolveSegment name = Ret seg ∧ segmentid p = EventType.segmentId seg.
Proof.
  unfold EventType.buildPayload. intros H. invert_binds H.
  injection H as <- <-. split; [assumption | reflexivity].
Qed.

Lemma RawBody_segmentid env invitee eventData qas title p :
  RawBody.buildPayload env invitee eventData qas = Ret (title, p) →
  ∃ key, Js.ToString title = Ret key
         ∧ segmentid p = or_default_segment (table_get SEGMENT_MAPPING key)
         ∧ table_get FORM_MAPPINGS key ≠ Some (Inherited key).
Proof.
  unfold RawBody.buildPayload. intros H. invert_binds H.
  injection H as <- <-.
  match goal with K : Js.ToString _ = Ret ?k |- _ => exists k end.
  split; [assumption|]. split; [reflexivity|].
  intros E.
  match goal with K : RawBody.standard_field _ city_keys _ _ = Ret _ |- _ =>
    rewrite E in K; discriminate K end.
Qed.

Lemma IndexJs_segmentid env data title p :
  IndexJs.buildPayload env data = Ret (title, p) →
  ∃ key, Js.ToString title = Ret key
         ∧ segmentid p = IndexJs.or_empty (table_get SEGMENT_MAPPING key).
Proof.
  unfold IndexJs.buildPayload. intros H. invert_binds H.
  injection H as <- <-. eauto.
Qed.

Lemma inherited_FORM_MAPPINGS (k : string) :
  inherited k = true → table_get FORM_MAPPINGS k = Some (Inherited k).
Proof.
  unfold inherited, Object_prototype_keys. cbn [existsb]. intros H.
  repeat (apply orb_prop in H; destruct H as [H|H];
          [apply String.eqb_eq in H; subst k; reflexivity|]).
  discriminate H.
Qed.

Lemma table_get_absent {A : Type} (table : gmap string A) (k : string) :
  table !! k = None → table_get table k = if inherited k then Some (Inherited k) else None.
Proof. intros H. unfold table_get. rewrite H. reflexivity. Qed.

Lemma IndexJs_not_inherited env data title p key :
  IndexJs.buildPayload env data = Ret (title, p) →
  Js.ToString title = Ret key → inherited key = false.
Proof.
  unfold IndexJs.buildPayload. intros H Hk. invert_binds H.
  match goal with K : Js.ToString _ = Ret ?k |- _ =>
    assert (k = key) by congruence; subst k end.
  destruct (inherited key) eqn:E; [|reflexivity].
  apply inherited_FORM_MAPPINGS in E.
  match goal with K : IndexJs.standard_field _ city_keys _ _ _ = Ret _ |- _ =>
    rewrite E in K; discriminate K end.
Qed.

Lemma RawBody_not_inherited env invitee eventData qas title p key :
  RawBody.buildPayload env invitee eventData qas = Ret (title, p) →
  Js.ToString title = Ret key → inherited key = false.
Proof.
  intros H Hk. apply RawBody_segmentid in H as (k & Hk' & _ & Hn).
  assert (k = key) by congruence; subst k.
  destruct (inherited key) eqn:E; [|reflexivity].
  apply inherited_FORM_MAPPINGS in E. contradiction.
Qed.

(** C9. An event-type name that contains "cro" and "performance",
    in whatever case and whatever else it contains, resolves to the CRO
    segment: the CRO keyword is tested first. *)
Theorem C9_both_keywords_resolve_to_CRO (s : string) :
  JsString.includes (JsString.toLowerCase s) "cro" = true →
  JsString.includes (JsString.toLowerCase s) "performance" = true →
  EventType.resolveSegment (VString s) =
  Ret {| EventType.segmentKey := "CRO"; EventType.segmentId := Own CRO_segment |}.
Proof.
  intros Hcro _. rewrite resolveSegment_string. cbv zeta. rewrite Hcro. reflexivity.
Qed.

Lemma C9_witness :
  EventType.resolveSegment (VString "Performance audit + CRO Meet") =
  Ret {| EventType.segmentKey := "CRO"; EventType.segmentId := Own CRO_segment |}.
Proof. apply C9_both_keywords_resolve_to_CRO; reflexivity. Defined.

(** C1 as stated fails in [index.js]: an event title that is no key of the
    table leaves the segment id of the payload empty, not the default. *)
Lemma C1_index_js_has_no_default :
  ∃ p, IndexJs.buildPayload Sample.env Sample.data_discovery
         = Ret (VString "Discovery Call", p)
       ∧ SEGMENT_MAPPING !! "Discovery Call" = None
       ∧ segmentid p = Own ""
       ∧ segmentid p ≠ Own default_segment.
Proof.
  eexists. split; [vm_compute; reflexivity|].
  split; [reflexivity|]. split; [reflexivity|]. discriminate.
Qed.

(** C1, amended. In every version the segment id of the payload is a
    function of the event-type name (of the event title) alone. With the
    keyword resolver, a name that contains neither keyword, and a missing
    or empty name, resolve to [SEGMENT_MAPPING.default_segment]. With the
    exact-name table of the raw-body version, a title that is no key of the
    table resolves to the default too. [index.js] has no default: there such
    a title gives the empty segment id. *)
Theorem C1_segment_resolution :
  (∀ env env' c c' ed ed' qas qas' name seg seg' p p',
     EventType.buildPayload env c ed qas name = Ret (seg, p) →
     EventType.buildPayload env' c' ed' qas' name = Ret (seg', p') →
     segmentid p = segmentid p')
  ∧ (∀ env env' i i' ed ed' qas qas' title p p',
     RawBody.buildPayload env i ed qas = Ret (title, p) →
     RawBody.buildPayload env' i' ed' qas' = Ret (title, p') →
     segmentid p = segmentid p')
  ∧ (∀ env env' data data' title p p',
     IndexJs.buildPayload env data = Ret (title, p) →
     IndexJs.buildPayload env' data' = Ret (title, p') →
     segmentid p = segmentid p')
  ∧ (∀ s,
     JsString.includes (JsString.toLowerCase s) "cro" = false →
     JsString.includes (JsString.toLowerCase s) "performance" = false →
     EventType.resolveSegment (VString s) =
     Ret {| EventType.segmentKey := "default_segment";
            EventType.segmentId := Own default_segment |})
  ∧ (∀ v,
     Js.Truthy v = false →
     EventType.resolveSegment v =
     Ret {| EventType.segmentKey := "default_segment";
            EventType.segmentId := Own default_segment |})
  ∧ (∀ env i ed qas title p key,
     RawBody.buildPayload env i ed qas = Ret (title, p) →
     Js.ToString title = Ret key →
     SEGMENT_MAPPING !! key = None →
     segmentid p = Own default_segment)
  ∧ (∀ env data title p key,
     IndexJs.buildPayload env data = Ret (title, p) →
     Js.ToString title = Ret key →
     SEGMENT_MAPPING !! key = None →
     segmentid p = Own "").
Proof.
  repeat split.
  - intros * H H'. apply EventType_segmentid in H as [R ->], H' as [R' ->]. congruence.
  - intros * H H'.
    apply RawBody_segmentid in H as (k & Hk & -> & _), H' as (k' & Hk' & -> & _).
    congruence.
  - intros * H H'.
    apply IndexJs_segmentid in H as (k & Hk & ->), H' as (k' & Hk' & ->). congruence.
  - intros s Hc Hp. rewrite resolveSegment_string. cbv zeta. rewrite Hc, Hp. reflexivity.
  - apply resolveSegment_falsy.
  - intros * H Hk Hnone. pose proof (RawBody_not_inherited _ _ _ _ _ _ _ H Hk) as Hi.
    apply RawBody_segmentid in H as (k & Hk' & -> & _).
    assert (k = key) by congruence; subst k.
    rewrite (table_get_absent _ _ Hnone), Hi. reflexivity.
  - intros * H Hk Hnone. pose proof (IndexJs_not_inherited _ _ _ _ _ H Hk) as Hi.
    apply IndexJs_segmentid in H as (k & Hk' & ->).
    assert (k = key) by congruence; subst k.
    rewrite (table_get_absent _ _ Hnone), Hi. reflexivity.
Qed.

Lemma C1_witness :
  EventType.resolveSegment (VString "Intro call") =
    Ret {| EventType.segmentKey := "default_segment";
           EventType.segmentId := Own default_segment |}
  ∧ EventType.resolveSegment VNull =
    Ret {| EventType.segmentKey := "default_segment";
           EventType.segmentId := Own default_segment |}
  ∧ ∃ p, IndexJs.buildPayload Sample.env Sample.data_discovery
           = Ret (VString "Discovery Call", p)
         ∧ segmentid p = Own "".
Proof.
  destruct C1_segment_resolution as (_ & _ & _ & Hs & Hf & _ & Hi).
  split; [apply Hs; reflexivity|].
  split; [apply Hf; reflexivity|].
  eexists. split; [vm_compute; reflexivity|].
  apply (Hi Sample.env Sample.data_discovery (VString "Discovery Call") _ "Discovery Call");
    [vm_compute; reflexivity | reflexivity | reflexivity].
Defined.

(** ** The signature verifier *)

Lemma has_char_startsWith (c : ascii) (p s : string) :
  JsString.startsWith s p = true → JsString.has_char c p = true → JsString.has_char c s = true.
Proof.
  revert s. induction p as [|a p IH]; intros s Hs Hc; [discriminate Hc|].
  destruct s as [|b s]; [discriminate Hs|].
  simpl in Hs, Hc |- *. apply andb_prop in Hs as [Hab Hs].
  apply Ascii.eqb_eq in Hab; subst b.
  apply orb_prop in Hc as [Hc|Hc]; [rewrite Hc; reflexivity|].
  rewrite (IH _ Hs Hc). apply orb_true_r.
Qed.

Lemma has_char_trimStart (c : ascii) (s : string) :
  JsString.has_char c (JsString.trimStart s) = true → JsString.has_char c s = true.
Proof.
  induction s as [|d s IH]; simpl; [trivial|].
  destruct (JsString.is_whitespace d); [|trivial].
  intros H. rewrite (IH H). apply orb_true_r.
Qed.

Lemma has_char_trimEnd (c : ascii) (s : string) :
  JsString.has_char c (JsString.trimEnd s) = true → JsString.has_char c s = true.
Proof.
  induction s as [|d s IH]; simpl; [trivial|].
  destruct (JsString.trimEnd s) as [|e t] eqn:E.
  - destruct (JsString.is_whitespace d); simpl; [discriminate|].
    rewrite orb_false_r. intros ->. reflexivity.
  - simpl. simpl in IH. intros H. apply orb_prop in H as [->|H]; [reflexivity|].
    rewrite (IH H). apply orb_true_r.
Qed.

Lemma split_nonempty (sep : ascii) (s : string) : JsString.split sep s ≠ [].
Proof.
  destruct s as [|c r]; simpl; [discriminate|].
  destruct (Ascii.eqb c sep); [discriminate|].
  destruct (JsString.split sep r); discriminate.
Qed.

(** A string that contains the separator splits into two parts at least. *)
Lemma split_has_second (sep : ascii) (s : string) :
  JsString.has_char sep s = true → ∃ x, JsString.split sep s !! 1%nat = Some x.
Proof.
  induction s as [|c r IH]; simpl; [discriminate|].
  destruct (Ascii.eqb c sep) eqn:E; simpl.
  - intros _. destruct (JsString.split sep r) as [|x t] eqn:S.
    + exfalso. exact (split_nonempty _ _ S).
    + exists x. reflexivity.
  - intros H. destruct (IH H) as [x Hx].
    destruct (JsString.split sep r) as [|h t]; [discriminate Hx|].
    exists x. exact Hx.
Qed.

Lemma component_has_value (tag part : string) :
  JsString.has_char "=" tag = true →
  JsString.startsWith (JsString.trim part) tag = true →
  ∃ x, RawBody.after_equals part = Some x.
Proof.
  intros Ht Hs. apply split_has_second.
  apply has_char_trimStart, has_char_trimEnd.
  exact (has_char_startsWith _ _ _ Hs Ht).
Qed.

Lemma find_component (tag header : string) :
  RawBody.has_component tag header = false →
  List.find (fun p => JsString.startsWith (JsString.trim p) tag) (JsString.split "," header) = None.
Proof.
  unfold RawBody.has_component. generalize (JsString.split "," header).
  induction l as [|x l IH]; simpl; [reflexivity|].
  destruct (JsString.startsWith _ tag); simpl; [discriminate | exact IH].
Qed.

(** C5. The verifier returns a boolean on every input, it never throws;
    and it returns false when the header is missing, when the header has no
    [t=] or no [v1=] component, and when the signing key is unset. *)
Theorem C5_verifier_rejects_malformed (w : World) (rawBody : string)
    (signatureHeader signingKey : option string) :
  (∃ b, RawBody.verifyCalendlySignature w rawBody signatureHeader signingKey = Ret b)
  ∧ (RawBody.missing signatureHeader = true
     ∨ RawBody.missing signingKey = true
     ∨ (∃ h, signatureHeader = Some h
             ∧ (RawBody.has_component "t=" h = false
                ∨ RawBody.has_component "v1=" h = false))
     → RawBody.verifyCalendlySignature w rawBody signatureHeader signingKey = Ret false).
Proof.
  unfold RawBody.verifyCalendlySignature.
  destruct (RawBody.missing signatureHeader) eqn:Mh; simpl; [eauto|].
  destruct (RawBody.missing signingKey) eqn:Mk; simpl; [eauto|].
  destruct signatureHeader as [h|]; [|discriminate Mh].
  destruct signingKey as [k|]; [|discriminate Mk].
  destruct (List.find _ (JsString.split "," h)) as [tp|] eqn:Ft; simpl.
  2:{ eauto. }
  destruct (List.find (fun p => JsString.startsWith (JsString.trim p) "v1=") _)
    as [vp|] eqn:Fv; simpl.
  2:{ rewrite orb_true_r. eauto. }
  destruct ((tp =? "")%string || (vp =? "")%string); [eauto|].
  apply find_some in Fv as Hv. destruct Hv as [_ Hv].
  destruct (component_has_value "v1=" vp eq_refl Hv) as [sig ->].
  cbn [mbind outcome_bind].
  split.
  - destruct (negb _); eauto.
  - intros [H|[H|(h' & Eh & [H|H])]]; try discriminate H.
    + injection Eh as <-. rewrite (find_component _ _ H) in Ft. discriminate Ft.
    + injection Eh as <-. rewrite (find_component _ _ H) in Fv. discriminate Fv.
Qed.

Lemma verifier_total (w : World) (rawBody : string) (signatureHeader signingKey : option string) :
  ∃ b, RawBody.verifyCalendlySignature w rawBody signatureHeader signingKey = Ret b.
Proof.
  unfold RawBody.verifyCalendlySignature.
  destruct (RawBody.missing signatureHeader) eqn:Mh; simpl; [eauto|].
  destruct (RawBody.missing signingKey) eqn:Mk; simpl; [eauto|].
  destruct signatureHeader as [h|]; [|discriminate Mh].
  destruct signingKey as [k|]; [|discriminate Mk].
  destruct (List.find _ (JsString.split "," h)) as [tp|] eqn:Ft; simpl; [|eauto].
  destruct (List.find (fun p => JsString.startsWith (JsString.trim p) "v1=") _)
    as [vp|] eqn:Fv; simpl.
  2:{ rewrite orb_true_r. eauto. }
  destruct ((tp =? "")%string || (vp =? "")%string); [eauto|].
  apply find_some in Fv as Hv. destruct Hv as [_ Hv].
  destruct (component_has_value "v1=" vp eq_refl Hv) as [sig ->].
  cbn [mbind outcome_bind]. destruct (negb _); eauto.
Qed.

Lemma C5_witness :
  RawBody.verifyCalendlySignature (Sample.world VNull (Resolved VNull) (Resolved VNull))
    "{}" (Some "t=1700000000") (Some "key") = Ret false.
Proof.
  apply C5_verifier_rejects_malformed.
  right. right. exists "t=1700000000". split; [reflexivity|]. right. reflexivity.
Defined.

(** ** Events other than [invitee.created] *)

Lemma event_is_string (body : value) (s : string) :
  Js.GetOpt body "event" = VString s → ∃ props, body = VObject props.
Proof. destruct body; simpl; try discriminate. eauto. Qed.

Lemma not_created (s : string) :
  s ≠ "invitee.created" → Js.is_string (VString s) "invitee.created" = false.
Proof. intros H. simpl. apply String.eqb_neq. exact H. Qed.

(** Runs the handler monad up to the next test on the request. *)
Ltac step_handler :=
  unfold mbind, mret, handler_bind, handler_ret, lift, respond;
  cbn [Js.interpolate Js.ToString outcome_bind mbind].

Lemma IndexJs_ignores (w : World) (env : Env) (body : value) (s : string) :
  Js.GetOpt body "event" = VString s → s ≠ "invitee.created" →
  run (IndexJs.webhook w env body) = (Json 200 (obj_message "Event ignored"), []).
Proof.
  intros He Hs. destruct (event_is_string _ _ He) as [props ->]. simpl in He.
  unfold run, IndexJs.webhook. cbn [Js.Get]. rewrite He. step_handler.
  rewrite (not_created _ Hs). reflexivity.
Qed.

Lemma EventType_ignores (w : World) (env : Env) (req : raw_request) (body : value) (s : string) :
  JSON_parse w (body_text req) = Some body →
  Js.GetOpt body "event" = VString s → s ≠ "invitee.created" →
  run (EventType.webhook w env req) = (Json 200 (obj_message "Event ignored"), []).
Proof.
  intros Hp He Hs. destruct (event_is_string _ _ He) as [props ->].
  unfold run, EventType.webhook, EventType.safeJsonParse. rewrite Hp.
  cbn [Js.Truthy negb]. cbn [EventType.normalizeCalendlyWebhook EventType.event].
  rewrite He. step_handler.
  rewrite (not_created _ Hs). reflexivity.
Qed.

Lemma RawBody_ignores (w : World) (env : Env) (req : raw_request) (body : value) (s : string) :
  JSON_parse w (body_text req) = Some body →
  Js.GetOpt body "event" = VString s → s ≠ "invitee.created" →
  run (RawBody.webhook w env req) =
  if RawBody.signature_accepted w env req
  then (Json 200 (obj_message "Event ignored"), [])
  else (Json 401 (obj_failure "Invalid webhook signature"), []).
Proof.
  intros Hp He Hs. destruct (event_is_string _ _ He) as [props ->].
  unfold run, RawBody.webhook, RawBody.signature_accepted, RawBody.safeJsonParse.
  rewrite Hp. cbn [Js.Truthy negb].
  cbn [RawBody.normalizeCalendlyWebhook RawBody.event]. rewrite He.
  destruct (RawBody.ENABLE_SIGNATURE_VERIFY env).
  - destruct (verifier_total w (body_text req)
                (if RawBody.missing (signature_header req) then None else signature_header req)
                (CALENDLY_WEBHOOK_SIGNING_KEY env)) as [ok ->].
    destruct ok; step_handler; [|reflexivity].
    rewrite (not_created _ Hs). reflexivity.
  - step_handler. rewrite (not_created _ Hs). reflexivity.
Qed.

(** C6 as stated fails in the raw-body version: with the signature check
    switched on, an unsigned envelope of another event is answered 401. *)
Lemma C6_unsigned_event_is_rejected :
  Js.GetOpt Sample.canceled "event" = VString "invitee.canceled"
  ∧ run (RawBody.webhook (Sample.world Sample.canceled (Resolved VNull) (Resolved VNull))
           Sample.env_verifying Sample.request)
    = (Json 401 (obj_failure "Invalid webhook signature"), [])
  ∧ status_of (fst (run (RawBody.webhook
                           (Sample.world Sample.canceled (Resolved VNull) (Resolved VNull))
                           Sample.env_verifying Sample.request))) = 401.
Proof. repeat split; vm_compute; reflexivity. Qed.

(** C6, amended. An envelope whose event is a string other than
    "invitee.created" never reaches the forward POST: the handler makes no
    outbound call at all. It is answered 200 "Event ignored" by [index.js]
    and by the event-type version; the raw-body version answers the same
    when its signature check is switched off or accepts the request, and 401
    when the check rejects it. *)
Theorem C6_other_events_are_ignored (w : World) (env : Env) (body : value) (s : string) :
  Js.GetOpt body "event" = VString s →
  s ≠ "invitee.created" →
  run (IndexJs.webhook w env body) = (Json 200 (obj_message "Event ignored"), [])
  ∧ ∀ req : raw_request,
      JSON_parse w (body_text req) = Some body →
      run (EventType.webhook w env req) = (Json 200 (obj_message "Event ignored"), [])
      ∧ snd (run (RawBody.webhook w env req)) = []
      ∧ (RawBody.signature_accepted w env req = true →
         run (RawBody.webhook w env req) = (Json 200 (obj_message "Event ignored"), []))
      ∧ (RawBody.signature_accepted w env req = false →
         run (RawBody.webhook w env req) = (Json 401 (obj_failure "Invalid webhook signature"), [])).
Proof.
  intros He Hs. split; [exact (IndexJs_ignores w env body s He Hs)|].
  intros req Hp. split; [exact (EventType_ignores w env req body s Hp He Hs)|].
  rewrite (RawBody_ignores w env req body s Hp He Hs).
  destruct (RawBody.signature_accepted w env req); repeat split; intros; congruence.
Qed.

Lemma C6_witness :
  run (IndexJs.webhook (Sample.world Sample.canceled (Resolved VNull) (Resolved VNull))
         Sample.env Sample.canceled)
  = (Json 200 (obj_message "Event ignored"), [])
  ∧ run (RawBody.webhook (Sample.world Sample.canceled (Resolved VNull) (Resolved VNull))
           Sample.env Sample.request)
    = (Json 200 (obj_message "Event ignored"), []).
Proof.
  destruct (C6_other_events_are_ignored
              (Sample.world Sample.canceled (Resolved VNull) (Resolved VNull))
              Sample.env Sample.canceled "invitee.canceled" eq_refl) as [H1 H2].
  { discriminate. }
  split; [exact H1|].
  destruct (H2 Sample.request eq_refl) as (_ & _ & H3 & _).
  apply H3. reflexivity.
Defined.

(** ** The event-type lookup *)

Lemma getEventTypeName_returns (w : World) (env : Env) (url : value) (tr : list outcall) :
  ∃ v tr', EventType.getEventTypeName w env url tr = (Next v, tr')
           ∧ (tr' = tr ∨ tr' = (tr ++ [GET url])%list).
Proof.
  unfold EventType.getEventTypeName, EventType.or_null.
  destruct (negb (Js.Truthy url)); [step_handler; eauto|].
  step_handler. unfold Js.interpolate. 
  destruct (Js.ToString url); cbn [outcome_bind mbind]; [|eauto].
  unfold await_get. destruct (axios_get _ _ _); [|eauto].
  destruct (Js.ToString _); cbn [outcome_bind mbind]; eauto.
Qed.

Lemma getEventTypeName_failed (w : World) (env : Env) (url : value) (tr : list outcall) :
  EventType.lookup_fails w env url →
  ∃ tr', EventType.getEventTypeName w env url tr = (Next VNull, tr')
         ∧ (tr' = tr ∨ tr' = (tr ++ [GET url])%list).
Proof.
  unfold EventType.getEventTypeName, EventType.or_null.
  intros [H|[d H]].
  - rewrite H. step_handler. eauto.
  - destruct (negb (Js.Truthy url)); [step_handler; eauto|].
    step_handler. unfold Js.interpolate.
    destruct (Js.ToString url); cbn [outcome_bind mbind]; [|eauto].
    unfold await_get. rewrite H. eauto.
Qed.

Lemma invitee_truthy_body (body : value) :
  Js.Truthy (EventType.invitee (EventType.normalizeCalendlyWebhook body)) = true →
  Js.Truthy body = true.
Proof.
  destruct body; simpl; try discriminate; reflexivity.
Qed.


(** ** The normalizer *)

Lemma or_truthy (a b : value) : Js.Truthy a = true → Js.or a b = a.
Proof. unfold Js.or. intros ->. reflexivity. Qed.

Lemma or_falsy (a b : value) : Js.Truthy a = false → Js.or a b = b.
Proof. unfold Js.or. intros ->. reflexivity. Qed.

Lemma or_falsy_collection (x : value) :
  Js.Truthy x = false → Js.or x (Js.GetOpt x "collection") = VUndefined.
Proof.
  unfold Js.or. intros H. rewrite H.
  destruct x; try reflexivity. discriminate H.
Qed.

(** The [collection] alternative of the raw-body normalizer never
    contributes: it is tried only on a falsy value, which has no property. *)
Lemma RawBody_questionsAnswers (body : value) :
  RawBody.questionsAnswers (RawBody.normalizeCalendlyWebhook body) =
  Js.or (Js.GetOpt (Js.GetOpt body "payload") "questions_and_answers")
        (Js.or (Js.GetOpt (Js.GetOpt (Js.GetOpt body "data") "payload") "questions_and_answers")
               (VArray [])).
Proof.
  cbn [RawBody.normalizeCalendlyWebhook RawBody.questionsAnswers].
  set (q := Js.GetOpt (Js.GetOpt body "payload") "questions_and_answers").
  destruct (Js.Truthy q) eqn:T.
  - rewrite !(or_truthy q) by exact T. reflexivity.
  - rewrite (or_falsy_collection q T), (or_falsy q _ T). reflexivity.
Qed.

Lemma IndexJs_needs_data (w : World) (env : Env) (body : value) :
  Js.GetOpt body "event" = VString "invitee.created" →
  Js.nullish (Js.GetOpt body "data") = true →
  run (IndexJs.webhook w env body) = (ServerError TypeError, []).
Proof.
  intros He Hd. destruct (event_is_string _ _ He) as [props ->]. simpl in He, Hd.
  unfold run, IndexJs.webhook. cbn [Js.Get]. rewrite He. step_handler.
  change (Js.is_string (VString "invitee.created") "invitee.created") with true.
  cbn [negb]. unfold IndexJs.buildPayload.
  destruct (Js.own props "data"); try discriminate Hd; reflexivity.
Qed.

(** C2 as stated fails in every version. The event-type version reads
    nothing under [data]: an envelope that carries invitee and event there
    normalizes to no invitee and is answered "Missing invitee". The raw-body
    version does not read the invitee from [payload] itself nor the event
    from [payload.scheduled_event]: it finds neither in an envelope of that
    shape. *)
Lemma C2_no_version_reads_both_shapes :
  Js.GetOpt (Js.GetOpt Sample.legacy "data") "invitee" = Sample.jane
  ∧ EventType.invitee (EventType.normalizeCalendlyWebhook Sample.legacy) = VNull
  ∧ EventType.eventData (EventType.normalizeCalendlyWebhook Sample.legacy) = VNull
  ∧ run (EventType.webhook (Sample.world Sample.legacy (Resolved VNull) (Resolved VNull))
           Sample.env Sample.request)
    = (Json 200 (obj_failure "Missing invitee in payload"), [])
  ∧ Js.Truthy (Js.GetOpt (Js.GetOpt Sample.booking "payload") "scheduled_event") = true
  ∧ RawBody.invitee (RawBody.normalizeCalendlyWebhook Sample.booking) = VUndefined
  ∧ RawBody.eventData (RawBody.normalizeCalendlyWebhook Sample.booking) = VUndefined
  ∧ run (RawBody.webhook (Sample.world Sample.booking (Resolved VNull) (Resolved VNull))
           Sample.env Sample.request)
    = (Json 200 (obj_failure "Missing invitee/event in payload"), []).
Proof. repeat split; vm_compute; reflexivity. Qed.


(** ** The name of the lead *)

Lemma Get_GetOpt (o : value) (k : string) (v : value) :
  Js.Get o k = Ret v → v = Js.GetOpt o k.
Proof. destruct o; simpl; intros H; try discriminate H; congruence. Qed.

Lemma RawBody_name env invitee eventData qas title p :
  RawBody.buildPayload env invitee eventData qas = Ret (title, p) →
  RawBody.fullName_of invitee = Ret (name p).
Proof.
  unfold RawBody.buildPayload. intros H. invert_binds H.
  injection H as <- <-. assumption.
Qed.

Lemma IndexJs_name env data title p :
  IndexJs.buildPayload env data = Ret (title, p) →
  name p = Js.or (Js.GetOpt (Js.GetOpt data "invitee") "name") (VString "Unknown").
Proof.
  unfold IndexJs.buildPayload. intros H. invert_binds H.
  injection H as <- <-. cbn [name].
  repeat match goal with K : Js.Get _ _ = Ret _ |- _ => apply Get_GetOpt in K end.
  congruence.
Qed.

Lemma EventType_name invitee qas c :
  EventType.contact_of invitee qas = Ret c →
  EventType.fullName c = Js.or (Js.GetOpt invitee "name") (VString "Unknown").
Proof.
  unfold EventType.contact_of. intros H. invert_binds H.
  injection H as <-. cbn [EventType.fullName].
  repeat match goal with K : Js.Get _ _ = Ret _ |- _ => apply Get_GetOpt in K end.
  congruence.
Qed.

Lemma EventType_payload_name env c eventData qas eventTypeName seg p :
  EventType.buildPayload env c eventData qas eventTypeName = Ret (seg, p) →
  name p = EventType.fullName c.
Proof.
  unfold EventType.buildPayload. intros H. invert_binds H.
  injection H as <- <-. reflexivity.
Qed.

(** C8 as stated fails in [index.js] and in the event-type version: an
    invitee without [name] is called "Unknown" there even when first and
    last name are given; the raw-body version joins them. *)
Lemma C8_first_and_last_name_ignored :
  RawBody.fullName_of Sample.first_last = Ret (VString "Jane Doe")
  ∧ (∃ c, EventType.contact_of Sample.first_last (VArray []) = Ret c
          ∧ EventType.fullName c = VString "Unknown")
  ∧ (∃ t p, IndexJs.buildPayload Sample.env Sample.data_first_last = Ret (t, p)
            ∧ name p = VString "Unknown").
Proof.
  split; [reflexivity|]. split.
  - eexists. split; [vm_compute; reflexivity | reflexivity].
  - eexists. eexists. split; [vm_compute; reflexivity | reflexivity].
Qed.

(** C8, amended. In the raw-body version the name of the lead is the
    invitee's [name] when that is present and non-empty; otherwise the first
    and the last name joined by one space, or the one of them that is
    present; otherwise "Unknown". In [index.js] and in the event-type version
    it is the invitee's [name] when present and non-empty, and "Unknown"
    otherwise. *)
Theorem C8_lead_name (props : list (string * value)) :
  let invitee := VObject props in
  let n := Js.own props "name" in
  let f := Js.own props "first_name" in
  let l := Js.own props "last_name" in
  (Js.Truthy n = true → RawBody.fullName_of invitee = Ret n)
  ∧ (Js.Truthy n = false →
     (∀ a b, f = VString a → l = VString b → a ≠ "" → b ≠ "" →
        RawBody.fullName_of invitee = Ret (VString (a ++ " " ++ b)))
     ∧ (∀ a, f = VString a → a ≠ "" → Js.Truthy l = false →
        RawBody.fullName_of invitee = Ret (VString a))
     ∧ (∀ b, Js.Truthy f = false → l = VString b → b ≠ "" →
        RawBody.fullName_of invitee = Ret (VString b))
     ∧ (Js.Truthy f = false → Js.Truthy l = false →
        RawBody.fullName_of invitee = Ret (VString "Unknown")))
  ∧ (∀ env eventData qas title p,
       RawBody.buildPayload env invitee eventData qas = Ret (title, p) →
       RawBody.fullName_of invitee = Ret (name p))
  ∧ (∀ env c eventData qas eventTypeName seg p,
       EventType.contact_of invitee qas = Ret c →
       EventType.buildPayload env c eventData qas eventTypeName = Ret (seg, p) →
       name p = if Js.Truthy n then n else VString "Unknown")
  ∧ (∀ env data title p,
       Js.GetOpt data "invitee" = invitee →
       IndexJs.buildPayload env data = Ret (title, p) →
       name p = if Js.Truthy n then n else VString "Unknown").
Proof.
  cbv zeta. unfold RawBody.fullName_of. cbn [Js.Get mbind outcome_bind].
  split. { intros ->. reflexivity. }
  split.
  { intros ->. repeat split.
    - intros a b -> -> Ha Hb.
      apply Truthy_string in Ha, Hb. cbn [List.filter]. rewrite Ha, Hb.
      cbn [Js.join Js.join_strings Js.nullish Js.ToString mbind outcome_bind JsString.join].
      unfold Js.or. 
      assert (T : Js.Truthy (VString (a ++ " " ++ b)) = true).
      { apply Truthy_string. destruct a; [|discriminate]. simpl in Ha. discriminate Ha. }
      rewrite T. reflexivity.
    - intros a -> Ha Hl. pose proof Ha as Ha'. apply Truthy_string in Ha.
      cbn [List.filter]. rewrite Ha, Hl.
      cbn [Js.join Js.join_strings Js.nullish Js.ToString mbind outcome_bind JsString.join].
      unfold Js.or. rewrite Ha. reflexivity.
    - intros b Hf -> Hb. apply Truthy_string in Hb.
      cbn [List.filter]. rewrite Hf, Hb.
      cbn [Js.join Js.join_strings Js.nullish Js.ToString mbind outcome_bind JsString.join].
      unfold Js.or. rewrite Hb. reflexivity.
    - intros Hf Hl. cbn [List.filter]. rewrite Hf, Hl. reflexivity. }
  split. { intros *. apply RawBody_name. }
  split.
  { intros * Hc Hb. apply EventType_payload_name in Hb. apply EventType_name in Hc.
    rewrite Hb, Hc. reflexivity. }
  intros * Hd Hb. apply IndexJs_name in Hb. rewrite Hb, Hd. reflexivity.
Qed.

Lemma C8_witness :
  RawBody.fullName_of Sample.first_last = Ret (VString "Jane Doe")
  ∧ RawBody.fullName_of Sample.jane = Ret (VString "Jane Doe").
Proof.
  split.
  - destruct (C8_lead_name [("first_name", VString "Jane"); ("last_name", VString "Doe");
                            ("email", VString "jane@x.com")]) as (_ & H & _).
    destruct (H eq_refl) as (H2 & _).
    apply (H2 "Jane" "Doe"); [reflexivity | reflexivity | discriminate | discriminate].
  - destruct (C8_lead_name [("name", VString "Jane Doe"); ("email", VString "jane@x.com");
                            ("timezone", VString "America/Chicago")]) as (H & _).
    apply H. reflexivity.
Defined.

(** ** City and address *)

Lemma pickFirst_same (fa : FormAnswers.t) (keys : list string) :
  EventType.pickFirst fa keys = RawBody.pickFirst fa keys.
Proof. induction keys as [|k keys IH]; simpl; [reflexivity|]. rewrite IH. reflexivity. Qed.

Lemma pickFirst_cons (fa : FormAnswers.t) (k : string) (keys : list string) :
  RawBody.pickFirst fa (k :: keys) =
  b ← Js.nonblank (FormAnswers.get fa k);
  if b : bool then Ret (FormAnswers.get fa k) else RawBody.pickFirst fa keys.
Proof.
  cbn [RawBody.pickFirst]. unfold Js.nonblank.
  destruct (Js.nullish _); [reflexivity|].
  destruct (Js.ToString _) as [s|e]; [|reflexivity].
  cbn [mbind outcome_bind]. destruct (JsString.trim s =? "")%string; reflexivity.
Qed.

Lemma pickFirst_first_nonblank fa keys v :
  RawBody.pickFirst fa keys = Ret v → first_nonblank fa keys v.
Proof.
  revert v. induction keys as [|k keys IH]; intros v.
  - simpl. intros [= <-]. constructor.
  - rewrite pickFirst_cons. intros H. invert_bind H. destruct a.
    + injection H as <-. constructor. assumption.
    + apply first_later; auto.
Qed.

Lemma first_nonblank_pickFirst fa keys v :
  first_nonblank fa keys v → RawBody.pickFirst fa keys = Ret v.
Proof.
  induction 1; [reflexivity| |]; rewrite pickFirst_cons.
  - rewrite H. reflexivity.
  - rewrite H. exact IHfirst_nonblank.
Qed.

Lemma FORM_MAPPINGS_lists (k : string) (c : FormConfig) :
  table_get FORM_MAPPINGS k = Some (Own c) →
  city_keys (standardFields c) = ["City"; "city"]
  ∧ address_keys (standardFields c) = ["Address"; "address"].
Proof.
  unfold table_get. destruct (FORM_MAPPINGS !! k) as [c'|] eqn:E.
  2:{ destruct (inherited k); discriminate. }
  intros [= <-]. unfold FORM_MAPPINGS in E.
  apply lookup_insert_Some in E as [[_ <-]|[_ E]]; [split; reflexivity|].
  apply lookup_insert_Some in E as [[_ <-]|[_ E]]; [split; reflexivity|].
  rewrite lookup_empty in E. discriminate.
Qed.

Lemma pickFirst_total fa keys :
  (∀ k, In k keys → ∃ b, Js.nonblank (FormAnswers.get fa k) = Ret b) →
  ∃ v, RawBody.pickFirst fa keys = Ret v.
Proof.
  induction keys as [|k keys IH]; intros H; [simpl; eauto|].
  rewrite pickFirst_cons. destruct (H k (or_introl eq_refl)) as [b ->].
  cbn [mbind outcome_bind]. destruct b; [eauto|].
  apply IH. intros k' Hk'. apply H. right. exact Hk'.
Qed.

Lemma RawBody_standard_field k field generic fa v :
  (∀ c, table_get FORM_MAPPINGS k = Some (Own c) → field (standardFields c) = generic) →
  RawBody.standard_field (table_get FORM_MAPPINGS k) field generic fa = Ret v →
  first_nonblank fa generic v.
Proof.
  intros Hc. unfold RawBody.standard_field.
  destruct (table_get FORM_MAPPINGS k) as [[c|i]|] eqn:E; [| discriminate |].
  - rewrite (Hc c eq_refl). apply pickFirst_first_nonblank.
  - apply pickFirst_first_nonblank.
Qed.

Lemma EventType_standard_field k field generic fa v :
  (∀ c, table_get FORM_MAPPINGS k = Some (Own c) → field (standardFields c) = generic) →
  EventType.standard_field (table_get FORM_MAPPINGS k) field generic fa = Ret v →
  first_nonblank fa generic v.
Proof.
  intros Hc. unfold EventType.standard_field.
  destruct (table_get FORM_MAPPINGS k) as [[c|i]|] eqn:E; [| discriminate |].
  - rewrite (Hc c eq_refl), pickFirst_same. apply pickFirst_first_nonblank.
  - rewrite pickFirst_same. apply pickFirst_first_nonblank.
Qed.

Lemma IndexJs_standard_field k fa v :
  IndexJs.standard_field (table_get FORM_MAPPINGS k) city_keys "City" "city" fa = Ret v →
  v = IndexJs.first_truthy fa "City" "city".
Proof.
  unfold IndexJs.standard_field.
  destruct (table_get FORM_MAPPINGS k) as [[c|i]|] eqn:E; [| discriminate |].
  - destruct (FORM_MAPPINGS_lists _ _ E) as [-> _]. intros [= <-]. reflexivity.
  - intros [= <-]. reflexivity.
Qed.

Lemma IndexJs_standard_field_address k fa v :
  IndexJs.standard_field (table_get FORM_MAPPINGS k) address_keys "Address" "address" fa = Ret v →
  v = IndexJs.first_truthy fa "Address" "address".
Proof.
  unfold IndexJs.standard_field.
  destruct (table_get FORM_MAPPINGS k) as [[c|i]|] eqn:E; [| discriminate |].
  - destruct (FORM_MAPPINGS_lists _ _ E) as [_ ->]. intros [= <-]. reflexivity.
  - intros [= <-]. reflexivity.
Qed.

Lemma RawBody_city_address env invitee eventData qas title p :
  RawBody.buildPayload env invitee eventData qas = Ret (title, p) →
  ∃ fa, RawBody.collect_answers FormAnswers.empty (RawBody.array_items qas) = Ret fa
        ∧ first_nonblank fa ["City"; "city"] (city p)
        ∧ first_nonblank fa ["Address"; "address"] (address p).
Proof.
  unfold RawBody.buildPayload. intros H. invert_binds H. injection H as <- <-.
  eexists. split; [eassumption|]. cbn [city address]. split.
  - eapply RawBody_standard_field; [|eassumption].
    intros c Hc. apply (FORM_MAPPINGS_lists _ _ Hc).
  - eapply RawBody_standard_field; [|eassumption].
    intros c Hc. apply (FORM_MAPPINGS_lists _ _ Hc).
Qed.

Lemma EventType_city_address env c eventData qas eventTypeName seg p :
  EventType.buildPayload env c eventData qas eventTypeName = Ret (seg, p) →
  ∃ fa, EventType.collect_answers FormAnswers.empty (EventType.array_items qas) = Ret fa
        ∧ first_nonblank fa ["City"; "city"] (city p)
        ∧ first_nonblank fa ["Address"; "address"] (address p).
Proof.
  unfold EventType.buildPayload. intros H. invert_binds H. injection H as <- <-.
  eexists. split; [eassumption|]. cbn [city address]. split.
  - eapply EventType_standard_field; [|eassumption].
    intros c' Hc. apply (FORM_MAPPINGS_lists _ _ Hc).
  - eapply EventType_standard_field; [|eassumption].
    intros c' Hc. apply (FORM_MAPPINGS_lists _ _ Hc).
Qed.

Lemma IndexJs_city_address env data title p :
  IndexJs.buildPayload env data = Ret (title, p) →
  ∃ qas fa,
    IndexJs.forEach_items
      (Js.or (Js.GetOpt (Js.GetOpt data "payload") "questions_and_answers") (VArray [])) = Ret qas
    ∧ IndexJs.collect_answers FormAnswers.empty qas = Ret fa
    ∧ city p = IndexJs.first_truthy fa "City" "city"
    ∧ address p = IndexJs.first_truthy fa "Address" "address".
Proof.
  unfold IndexJs.buildPayload. intros H. invert_binds H. injection H as <- <-.
  match goal with K : Js.Get data "payload" = Ret _ |- _ =>
    apply Get_GetOpt in K; subst end.
  eexists. eexists. split; [eassumption|]. split; [eassumption|]. cbn [city address].
  split.
  - eapply IndexJs_standard_field; eassumption.
  - eapply IndexJs_standard_field_address; eassumption.
Qed.

Lemma first_truthy_cases fa k0 k1 :
  IndexJs.first_truthy fa k0 k1 =
  if Js.Truthy (FormAnswers.get fa k0) then FormAnswers.get fa k0
  else if Js.Truthy (FormAnswers.get fa k1) then FormAnswers.get fa k1
  else VString "".
Proof.
  unfold IndexJs.first_truthy, Js.or.
  destruct (Js.Truthy (FormAnswers.get fa k0)) eqn:E0; [rewrite E0; reflexivity|].
  destruct (Js.Truthy (FormAnswers.get fa k1)) eqn:E1; reflexivity.
Qed.

(** C4 as stated fails in [index.js], which takes the first truthy answer:
    a preferred key answered with blanks wins there over the lower-case
    key, while [pickFirst] skips it. *)
Lemma C4_index_js_takes_blank_answer :
  JsString.trim " " = ""
  ∧ (∃ t p, IndexJs.buildPayload Sample.env Sample.data_blank_city = Ret (t, p)
            ∧ city p = VString " ")
  ∧ (∃ t p, RawBody.buildPayload Sample.env Sample.jane Sample.cro_event
              Sample.blank_city_answers = Ret (t, p)
            ∧ city p = VString "Austin").
Proof.
  split; [reflexivity|]. split.
  - eexists. eexists. split; [vm_compute; reflexivity | reflexivity].
  - eexists. eexists. split; [vm_compute; reflexivity | reflexivity].
Qed.

(** C4, amended. In the raw-body and the event-type version, city (and
    likewise address) is the answer under the first key of the ordered list
    ["City", "city"] (["Address", "address"]) whose answer is neither
    missing nor blank once converted to text and trimmed, and the empty
    string when there is none; the lists configured per segment are these
    same lists. In [index.js] it is the first answer among the two keys that
    is truthy, and the empty string when there is none. In every version an
    answer given under the lower-case key only is found. *)
Theorem C4_city_and_address :
  (∀ fa keys v, RawBody.pickFirst fa keys = Ret v ↔ first_nonblank fa keys v)
  ∧ (∀ fa keys, EventType.pickFirst fa keys = RawBody.pickFirst fa keys)
  ∧ (∀ fa keys,
       (∀ k, In k keys → ∃ b, Js.nonblank (FormAnswers.get fa k) = Ret b) →
       ∃ v, RawBody.pickFirst fa keys = Ret v)
  ∧ (∀ env invitee eventData qas title p,
       RawBody.buildPayload env invitee eventData qas = Ret (title, p) →
       ∃ fa, RawBody.collect_answers FormAnswers.empty (RawBody.array_items qas) = Ret fa
             ∧ first_nonblank fa ["City"; "city"] (city p)
             ∧ first_nonblank fa ["Address"; "address"] (address p))
  ∧ (∀ env c eventData qas eventTypeName seg p,
       EventType.buildPayload env c eventData qas eventTypeName = Ret (seg, p) →
       ∃ fa, EventType.collect_answers FormAnswers.empty (EventType.array_items qas) = Ret fa
             ∧ first_nonblank fa ["City"; "city"] (city p)
             ∧ first_nonblank fa ["Address"; "address"] (address p))
  ∧ (∀ env data title p,
       IndexJs.buildPayload env data = Ret (title, p) →
       ∃ qas fa,
         IndexJs.forEach_items
           (Js.or (Js.GetOpt (Js.GetOpt data "payload") "questions_and_answers") (VArray []))
           = Ret qas
         ∧ IndexJs.collect_answers FormAnswers.empty qas = Ret fa
         ∧ city p =
             (if Js.Truthy (FormAnswers.get fa "City") then FormAnswers.get fa "City"
              else if Js.Truthy (FormAnswers.get fa "city") then FormAnswers.get fa "city"
              else VString "")
         ∧ address p =
             (if Js.Truthy (FormAnswers.get fa "Address") then FormAnswers.get fa "Address"
              else if Js.Truthy (FormAnswers.get fa "address") then FormAnswers.get fa "address"
              else VString ""))
  ∧ (∀ fa x,
       FormAnswers.get fa "City" = VUndefined →
       FormAnswers.get fa "city" = VString x →
       JsString.trim x ≠ "" →
       RawBody.pickFirst fa ["City"; "city"] = Ret (VString x)
       ∧ IndexJs.first_truthy fa "City" "city" = VString x).
Proof.
  split. { intros. split; [apply pickFirst_first_nonblank | apply first_nonblank_pickFirst]. }
  split. { apply pickFirst_same. }
  split. { apply pickFirst_total. }
  split. { apply RawBody_city_address. }
  split. { apply EventType_city_address. }
  split.
  { intros * H. destruct (IndexJs_city_address _ _ _ _ H) as (qas & fa & H1 & H2 & H3 & H4).
    exists qas, fa. rewrite H3, H4. repeat split; try assumption; apply first_truthy_cases. }
  intros fa x HC Hc Hx. split.
  - cbn [RawBody.pickFirst]. rewrite HC, Hc. cbn [Js.nullish Js.ToString mbind outcome_bind].
    apply String.eqb_neq in Hx. rewrite Hx. reflexivity.
  - unfold IndexJs.first_truthy. rewrite HC, Hc. unfold Js.or at 2. cbn [Js.Truthy].
    apply or_truthy. apply Truthy_string. intros ->. apply Hx. reflexivity.
Qed.

Lemma C4_witness :
  RawBody.pickFirst
    (FormAnswers.define FormAnswers.empty "city" (VString "Austin")) ["City"; "city"]
  = Ret (VString "Austin")
  ∧ ∃ v, RawBody.pickFirst
           (FormAnswers.define FormAnswers.empty "Address" (VNumber 12)) ["Address"; "address"]
         = Ret v.
Proof.
  destruct C4_city_and_address as (_ & _ & Ht & _ & _ & _ & Hl).
  split.
  - apply Hl; [reflexivity | reflexivity | discriminate].
  - apply Ht. intros k [<-|[<-|[]]]; eexists; vm_compute; reflexivity.
Defined.

(** ** What is posted is the payload that was built *)

Lemma RawBody_posts_built_payload (w : World) (env : Env) (req : raw_request)
    (url : option string) (p : teleforcePayload) :
  In (POST url p) (snd (run (RawBody.webhook w env req))) →
  ∃ body title,
    JSON_parse w (body_text req) = Some body
    ∧ let n := RawBody.normalizeCalendlyWebhook body in
      RawBody.buildPayload env (RawBody.invitee n) (RawBody.eventData n)
        (RawBody.questionsAnswers n) = Ret (title, p).
Proof.
  unfold run, RawBody.webhook, RawBody.safeJsonParse.
  destruct (JSON_parse w (body_text req)) as [body|] eqn:P; [|intros []].
  destruct (Js.Truthy body); cbn [negb]; [|intros []].
  unfold mbind, mret, handler_bind, handler_ret, lift, respond.
  destruct (RawBody.ENABLE_SIGNATURE_VERIFY env);
    [destruct (RawBody.verifyCalendlySignature _ _ _ _) as [[|]|]; try (intros [])|];
    (destruct (Js.interpolate _); [|intros []];
     destruct (negb (Js.is_string _ _)); [intros []|];
     destruct (_ || _); [intros []|];
     destruct (RawBody.buildPayload _ _ _ _) as [[title p']|] eqn:B; [|intros []];
     unfold await_post; destruct (axios_post _ _ _); cbn [snd app];
     (intros [[= <- <-]|[]]; exists body, title; split; [reflexivity | exact B])).
Qed.

Lemma EventType_posts_built_payload (w : World) (env : Env) (req : raw_request)
    (url : option string) (p : teleforcePayload) :
  In (POST url p) (snd (run (EventType.webhook w env req))) →
  ∃ body c eventTypeName seg,
    JSON_parse w (body_text req) = Some body
    ∧ let n := EventType.normalizeCalendlyWebhook body in
      EventType.contact_of (EventType.invitee n) (EventType.questionsAnswers n) = Ret c
      ∧ EventType.buildPayload env c (EventType.eventData n)
          (EventType.questionsAnswers n) eventTypeName = Ret (seg, p).
Proof.
  unfold run, EventType.webhook, EventType.safeJsonParse.
  destruct (JSON_parse w (body_text req)) as [body|] eqn:P; [|intros []].
  destruct (Js.Truthy body); cbn [negb]; [|intros []].
  unfold mbind, mret, handler_bind, handler_ret, lift, respond.
  destruct (Js.interpolate _); [|intros []].
  destruct (negb (Js.is_string _ _)); [intros []|].
  destruct (negb (Js.Truthy (EventType.invitee _))); [intros []|].
  destruct (negb (Js.Truthy (EventType.eventData _))); [intros []|].
  destruct (EventType.contact_of _ _) as [c|] eqn:C; [|intros []].
  destruct (Js.Get _ "event_type") as [u|]; [|intros []].
  destruct (getEventTypeName_returns w env u []) as (v & tr' & -> & Htr).
  destruct (EventType.buildPayload _ _ _ _ _) as [[seg p']|] eqn:B.
  2:{ cbn [snd]. destruct Htr as [->| ->]; [intros [] | intros [[=]|[]]]. }
  unfold await_post. destruct (axios_post _ _ _); cbn [snd];
    (intros H; apply in_app_or in H as [H|[[= <- <-]|[]]];
     [destruct Htr as [->| ->]; [destruct H | destruct H as [[=]|[]]]
     | exists body, c, v, seg; split; [reflexivity | split; [exact C | exact B]]]).
Qed.

Lemma IndexJs_posts_built_payload (w : World) (env : Env) (body : value)
    (url : option string) (p : teleforcePayload) :
  In (POST url p) (snd (run (IndexJs.webhook w env body))) →
  ∃ title, IndexJs.buildPayload env (Js.GetOpt body "data") = Ret (title, p).
Proof.
  unfold run, IndexJs.webhook.
  unfold mbind, mret, handler_bind, handler_ret, lift, respond.
  destruct (Js.Get body "event") as [e|]; [|intros []].
  destruct (Js.Get body "data") as [d|] eqn:D; [|intros []].
  apply Get_GetOpt in D. subst d.
  destruct (Js.interpolate _); [|intros []].
  destruct (negb (Js.is_string _ _)); [intros []|].
  destruct (IndexJs.buildPayload _ _) as [[title p']|] eqn:B; [|intros []].
  unfold await_post. destruct (axios_post _ _ _); cbn [snd app];
    (intros [[= <- <-]|[]]; exists title; reflexivity).
Qed.

(** ** The metadata list *)

Lemma truthy_question_object (qa : value) :
  Js.Truthy (Js.GetOpt qa "question") = true → Js.Get qa "answer" = Ret (answer_of qa).
Proof. destruct qa; simpl; try discriminate; reflexivity. Qed.

Lemma RawBody_push_cons (qa : value) (qas : list value) :
  RawBody.push_answers (qa :: qas) =
  if kept_but_standard qa then
    match question_of qa with
    | VString _ => more ← RawBody.push_answers qas; Ret (entry_of qa :: more)
    | _ => Throw TypeError
    end
  else RawBody.push_answers qas.
Proof.
  cbn [RawBody.push_answers]. unfold kept_but_standard, question_of, entry_of.
  destruct (Js.Truthy (Js.GetOpt qa "question")) eqn:T; cbn [negb andb]; [|reflexivity].
  destruct (Js.includes_value skipFields _); cbn [negb]; [reflexivity|].
  destruct (Js.GetOpt qa "question") eqn:Q; try reflexivity.
  rewrite (truthy_question_object qa) by (rewrite Q; exact T).
  unfold question_of. rewrite Q. reflexivity.
Qed.

Lemma EventType_push_cons (qa : value) (qas : list value) :
  EventType.push_answers (qa :: qas) =
  if kept_all qa then
    match question_of qa with
    | VString _ => more ← EventType.push_answers qas; Ret (entry_of qa :: more)
    | _ => Throw TypeError
    end
  else EventType.push_answers qas.
Proof.
  cbn [EventType.push_answers]. unfold kept_all, question_of, entry_of.
  destruct (Js.Truthy (Js.GetOpt qa "question")) eqn:T; cbn [negb andb]; [|reflexivity].
  destruct (Js.GetOpt qa "question") eqn:Q; try reflexivity.
  rewrite (truthy_question_object qa) by (rewrite Q; exact T).
  unfold question_of. rewrite Q. reflexivity.
Qed.

Lemma RawBody_push_spec (qas : list value) (ps : list meta) :
  RawBody.push_answers qas = Ret ps → ps = map entry_of (List.filter kept_but_standard qas).
Proof.
  revert ps. induction qas as [|qa qas IH]; intros ps.
  - intros [= <-]. reflexivity.
  - rewrite RawBody_push_cons. cbn [List.filter].
    destruct (kept_but_standard qa); [|apply IH].
    destruct (question_of qa); try discriminate.
    intros H. invert_bind H. injection H as <-. rewrite (IH _ Ha). reflexivity.
Qed.

Lemma RawBody_push_total (qas : list value) :
  Forall (has_text_question kept_but_standard) qas →
  RawBody.push_answers qas = Ret (map entry_of (List.filter kept_but_standard qas)).
Proof.
  induction 1 as [|qa qas Hq _ IH]; [reflexivity|].
  rewrite RawBody_push_cons. cbn [List.filter]. unfold has_text_question in Hq.
  destruct (kept_but_standard qa); [|exact IH].
  destruct (Hq eq_refl) as [s ->]. rewrite IH. reflexivity.
Qed.

Lemma EventType_push_spec (qas : list value) (ps : list meta) :
  EventType.push_answers qas = Ret ps → ps = map entry_of (List.filter kept_all qas).
Proof.
  revert ps. induction qas as [|qa qas IH]; intros ps.
  - intros [= <-]. reflexivity.
  - rewrite EventType_push_cons. cbn [List.filter].
    destruct (kept_all qa); [|apply IH].
    destruct (question_of qa); try discriminate.
    intros H. invert_bind H. injection H as <-. rewrite (IH _ Ha). reflexivity.
Qed.

Lemma EventType_push_total (qas : list value) :
  Forall (has_text_question kept_all) qas →
  EventType.push_answers qas = Ret (map entry_of (List.filter kept_all qas)).
Proof.
  induction 1 as [|qa qas Hq _ IH]; [reflexivity|].
  rewrite EventType_push_cons. cbn [List.filter]. unfold has_text_question in Hq.
  destruct (kept_all qa); [|exact IH].
  destruct (Hq eq_refl) as [s ->]. rewrite IH. reflexivity.
Qed.
(** The key has no whitespace left, and a question without whitespace is
    its own key. *)
Lemma replace_ws_no_whitespace (in_run : bool) (s : string) (c : ascii) :
  JsString.has_char c (JsString.replace_ws_from "_" in_run s) = true →
  JsString.is_whitespace c = false.
Proof.
  revert in_run. induction s as [|d s IH]; intros in_run;
    cbn [JsString.replace_ws_from]; [discriminate|].
  destruct (JsString.is_whitespace d) eqn:W.
  - destruct in_run; [apply IH|].
    cbn [String.append JsString.has_char]. intros H.
    apply orb_prop in H as [H|H]; [|exact (IH _ H)].
    apply Ascii.eqb_eq in H. subst c. reflexivity.
  - cbn [JsString.has_char]. intros H. apply orb_prop in H as [H|H]; [|exact (IH _ H)].
    apply Ascii.eqb_eq in H. subst c. exact W.
Qed.

Lemma replace_ws_plain (r : string) (in_run : bool) (s : string) :
  (∀ c, JsString.has_char c s = true → JsString.is_whitespace c = false) →
  JsString.replace_ws_from r in_run s = s.
Proof.
  revert in_run. induction s as [|d s IH]; intros in_run H;
    cbn [JsString.replace_ws_from]; [reflexivity|].
  rewrite (H d) by (cbn [JsString.has_char]; rewrite Ascii.eqb_refl; reflexivity).
  f_equal. apply IH. intros c Hc. apply H. cbn [JsString.has_char]. rewrite Hc.
  apply orb_true_r.
Qed.

Lemma RawBody_otherparams env invitee eventData qas title p :
  RawBody.buildPayload env invitee eventData qas = Ret (title, p) →
  ∃ fixed,
    otherparams p
    = (map entry_of (List.filter kept_but_standard (RawBody.array_items qas)) ++ fixed)%list
    ∧ map meta_key fixed =
      ["Calendly_Event_Title"; "Calendly_Event_Start";
       "Calendly_Invitee_Email"; "Calendly_Invitee_Timezone"].
Proof.
  unfold RawBody.buildPayload. intros H. invert_binds H. injection H as <- <-.
  match goal with K : RawBody.push_answers _ = Ret _ |- _ =>
    apply RawBody_push_spec in K; rewrite K end.
  eexists. cbn [otherparams]. split; reflexivity.
Qed.

Lemma EventType_otherparams env c eventData qas eventTypeName seg p :
  EventType.buildPayload env c eventData qas eventTypeName = Ret (seg, p) →
  ∃ fixed,
    otherparams p
    = (map entry_of (List.filter kept_all (EventType.array_items qas)) ++ fixed)%list
    ∧ map meta_key fixed =
      ["Calendly_EventType_Name"; "Calendly_ScheduledEvent_URI";
       "Calendly_Scheduled_Start"; "Calendly_Scheduled_End"].
Proof.
  unfold EventType.buildPayload. intros H. invert_binds H. injection H as <- <-.
  match goal with K : EventType.push_answers _ = Ret _ |- _ =>
    apply EventType_push_spec in K; rewrite K end.
  eexists. cbn [otherparams]. split; reflexivity.
Qed.


(** ** Entries without a question *)

Lemma RawBody_collect_skip (qa : value) (l1 l2 : list value) (fa : FormAnswers.t) :
  Js.Truthy (question_of qa) = false →
  RawBody.collect_answers fa (l1 ++ qa :: l2) = RawBody.collect_answers fa (l1 ++ l2).
Proof.
  intros Hq. revert fa. induction l1 as [|x l1 IH]; intros fa; cbn [app RawBody.collect_answers].
  - unfold question_of in Hq. rewrite Hq. reflexivity.
  - destruct (Js.Truthy (Js.GetOpt x "question")); [|apply IH].
    destruct (Js.Get x "answer"); [|reflexivity]. cbn [mbind outcome_bind].
    destruct (Js.ToString _); [|reflexivity]. cbn [mbind outcome_bind]. apply IH.
Qed.

Lemma EventType_collect_skip (qa : value) (l1 l2 : list value) (fa : FormAnswers.t) :
  Js.Truthy (question_of qa) = false →
  EventType.collect_answers fa (l1 ++ qa :: l2) = EventType.collect_answers fa (l1 ++ l2).
Proof.
  intros Hq. revert fa. induction l1 as [|x l1 IH]; intros fa; cbn [app EventType.collect_answers].
  - unfold question_of in Hq. rewrite Hq. reflexivity.
  - destruct (Js.Truthy (Js.GetOpt x "question")); [|apply IH].
    destruct (Js.Get x "answer"); [|reflexivity]. cbn [mbind outcome_bind].
    destruct (Js.ToString _); [|reflexivity]. cbn [mbind outcome_bind]. apply IH.
Qed.

Lemma RawBody_push_app (l1 l2 : list value) :
  RawBody.push_answers (l1 ++ l2) =
  ps1 ← RawBody.push_answers l1; ps2 ← RawBody.push_answers l2; Ret (ps1 ++ ps2)%list.
Proof.
  induction l1 as [|x l1 IH]; cbn [app].
  - cbn [RawBody.push_answers mbind outcome_bind].
    destruct (RawBody.push_answers l2); reflexivity.
  - rewrite !RawBody_push_cons. destruct (kept_but_standard x); [|exact IH].
    destruct (question_of x); try reflexivity. rewrite IH.
    destruct (RawBody.push_answers l1); [|reflexivity]. cbn [mbind outcome_bind].
    destruct (RawBody.push_answers l2); reflexivity.
Qed.

Lemma EventType_push_app (l1 l2 : list value) :
  EventType.push_answers (l1 ++ l2) =
  ps1 ← EventType.push_answers l1; ps2 ← EventType.push_answers l2; Ret (ps1 ++ ps2)%list.
Proof.
  induction l1 as [|x l1 IH]; cbn [app].
  - cbn [EventType.push_answers mbind outcome_bind].
    destruct (EventType.push_answers l2); reflexivity.
  - rewrite !EventType_push_cons. destruct (kept_all x); [|exact IH].
    destruct (question_of x); try reflexivity. rewrite IH.
    destruct (EventType.push_answers l1); [|reflexivity]. cbn [mbind outcome_bind].
    destruct (EventType.push_answers l2); reflexivity.
Qed.

Lemma RawBody_push_skip (qa : value) (l1 l2 : list value) :
  Js.Truthy (question_of qa) = false →
  RawBody.push_answers (l1 ++ qa :: l2) = RawBody.push_answers (l1 ++ l2).
Proof.
  intros Hq. rewrite !RawBody_push_app, RawBody_push_cons.
  unfold kept_but_standard. rewrite Hq. reflexivity.
Qed.

Lemma EventType_push_skip (qa : value) (l1 l2 : list value) :
  Js.Truthy (question_of qa) = false →
  EventType.push_answers (l1 ++ qa :: l2) = EventType.push_answers (l1 ++ l2).
Proof.
  intros Hq. rewrite !EventType_push_app, EventType_push_cons.
  unfold kept_all. rewrite Hq. reflexivity.
Qed.

Lemma asks_mobile_without_question (qa : value) :
  Js.nullish qa = false → Js.Truthy (question_of qa) = false →
  EventType.asks_mobile qa = Ret false.
Proof.
  unfold EventType.asks_mobile, question_of. intros Hn Hq.
  destruct qa; try discriminate Hn; cbn [Js.Get Js.GetOpt mbind outcome_bind] in *;
    try reflexivity.
  rewrite (or_falsy _ _ Hq). reflexivity.
Qed.

Lemma find_mobile_skip (qa : value) (l1 l2 : list value) :
  Js.nullish qa = false → Js.Truthy (question_of qa) = false →
  EventType.find_mobile (l1 ++ qa :: l2) = EventType.find_mobile (l1 ++ l2).
Proof.
  intros Hn Hq. induction l1 as [|x l1 IH]; cbn [app EventType.find_mobile].
  - rewrite (asks_mobile_without_question _ Hn Hq). reflexivity.
  - destruct (EventType.asks_mobile x) as [[|]|]; cbn [mbind outcome_bind];
      [reflexivity | exact IH | reflexivity].
Qed.

Lemma RawBody_payload_skip env invitee eventData (qa : value) (l1 l2 : list value) :
  Js.Truthy (question_of qa) = false →
  RawBody.buildPayload env invitee eventData (VArray (l1 ++ qa :: l2))
  = RawBody.buildPayload env invitee eventData (VArray (l1 ++ l2)).
Proof.
  intros Hq. unfold RawBody.buildPayload. cbn [RawBody.array_items].
  rewrite (RawBody_collect_skip _ _ _ _ Hq), (RawBody_push_skip _ _ _ Hq). reflexivity.
Qed.

Lemma EventType_payload_skip env c eventData name (qa : value) (l1 l2 : list value) :
  Js.Truthy (question_of qa) = false →
  EventType.buildPayload env c eventData (VArray (l1 ++ qa :: l2)) name
  = EventType.buildPayload env c eventData (VArray (l1 ++ l2)) name.
Proof.
  intros Hq. unfold EventType.buildPayload. cbn [EventType.array_items].
  rewrite (EventType_collect_skip _ _ _ _ Hq), (EventType_push_skip _ _ _ Hq). reflexivity.
Qed.

Lemma EventType_contact_skip invitee (qa : value) (l1 l2 : list value) :
  Js.nullish qa = false → Js.Truthy (question_of qa) = false →
  EventType.contact_of invitee (VArray (l1 ++ qa :: l2))
  = EventType.contact_of invitee (VArray (l1 ++ l2)).
Proof.
  intros Hn Hq. unfold EventType.contact_of, EventType.mobile_of.
  rewrite (find_mobile_skip _ _ _ Hn Hq). reflexivity.
Qed.

Lemma entry_of_unanswered (qa : value) (s : string) :
  question_of qa = VString s → Js.nullish (answer_of qa) = true →
  entry_of qa = {| meta_key := JsString.replace_ws "_" s; meta_value := VString "" |}.
Proof.
  intros Q A. unfold entry_of, Js.coalesce. rewrite Q, A. reflexivity.
Qed.

(** C10 as stated fails in the raw-body version for the questions it
    drops: a "City" entry with a [null] answer is not emitted at all there;
    the event-type version emits it with the empty string. *)
Lemma C10_dropped_question_not_emitted :
  RawBody.push_answers [VObject [("question", VString "City"); ("answer", VNull)]] = Ret []
  ∧ EventType.push_answers [VObject [("question", VString "City"); ("answer", VNull)]]
    = Ret [ {| meta_key := "City"; meta_value := VString "" |} ].
Proof. split; reflexivity. Qed.

(** C10, amended. An entry whose question is absent, [null] or empty is
    skipped: with it or without it in the sequence, the form answers, the
    whole payload (city, address and [otherparams] included) and the contact
    fields are the same, and the entry alone is processed without an
    exception. An entry with a text question and a [null] or missing answer
    is emitted, at its place in the sequence, with the empty string as
    value, by the event-type version always and by the raw-body version
    unless the question is one of City, city, Address, address, which that
    version drops. *)
Theorem C10_entries_without_question :
  (∀ qa l1 l2,
     Js.Truthy (question_of qa) = false →
     (∀ fa, RawBody.collect_answers fa [qa] = Ret fa ∧ EventType.collect_answers fa [qa] = Ret fa)
     ∧ RawBody.push_answers [qa] = Ret []
     ∧ EventType.push_answers [qa] = Ret []
     ∧ (∀ fa, RawBody.collect_answers fa (l1 ++ qa :: l2)
              = RawBody.collect_answers fa (l1 ++ l2))
     ∧ (∀ fa, EventType.collect_answers fa (l1 ++ qa :: l2)
              = EventType.collect_answers fa (l1 ++ l2))
     ∧ (∀ env invitee eventData,
          RawBody.buildPayload env invitee eventData (VArray (l1 ++ qa :: l2))
          = RawBody.buildPayload env invitee eventData (VArray (l1 ++ l2)))
     ∧ (∀ env c eventData eventTypeName,
          EventType.buildPayload env c eventData (VArray (l1 ++ qa :: l2)) eventTypeName
          = EventType.buildPayload env c eventData (VArray (l1 ++ l2)) eventTypeName)
     ∧ (Js.nullish qa = false →
        ∀ invitee,
          EventType.contact_of invitee (VArray (l1 ++ qa :: l2))
          = EventType.contact_of invitee (VArray (l1 ++ l2))))
  ∧ (∀ qa s l1 l2,
     question_of qa = VString s → s ≠ "" → Js.nullish (answer_of qa) = true →
     let e := {| meta_key := JsString.replace_ws "_" s; meta_value := VString "" |} in
     EventType.push_answers (l1 ++ qa :: l2)
     = (ps1 ← EventType.push_answers l1; ps2 ← EventType.push_answers l2;
        Ret (ps1 ++ e :: ps2)%list)
     ∧ (Js.includes_value skipFields (VString s) = false →
        RawBody.push_answers (l1 ++ qa :: l2)
        = (ps1 ← RawBody.push_answers l1; ps2 ← RawBody.push_answers l2;
           Ret (ps1 ++ e :: ps2)%list))).
Proof.
  split.
  - intros qa l1 l2 Hq.
    split. { intros fa. split.
             - apply (RawBody_collect_skip qa [] [] fa Hq).
             - apply (EventType_collect_skip qa [] [] fa Hq). }
    split. { apply (RawBody_push_skip qa [] [] Hq). }
    split. { apply (EventType_push_skip qa [] [] Hq). }
    split. { intros fa. apply RawBody_collect_skip, Hq. }
    split. { intros fa. apply EventType_collect_skip, Hq. }
    split. { intros. apply RawBody_payload_skip, Hq. }
    split. { intros. apply EventType_payload_skip, Hq. }
    intros Hn invitee. apply EventType_contact_skip; assumption.
  - intros qa s l1 l2 Q Hs A e. apply Truthy_string in Hs.
    split.
    + rewrite EventType_push_app, EventType_push_cons. unfold kept_all. rewrite Q, Hs.
      rewrite (entry_of_unanswered qa s Q A).
      destruct (EventType.push_answers l1); [|reflexivity]. cbn [mbind outcome_bind].
      destruct (EventType.push_answers l2); reflexivity.
    + intros Hk. rewrite RawBody_push_app, RawBody_push_cons.
      unfold kept_but_standard. rewrite Q, Hs, Hk. cbn [negb andb].
      rewrite (entry_of_unanswered qa s Q A).
      destruct (RawBody.push_answers l1); [|reflexivity]. cbn [mbind outcome_bind].
      destruct (RawBody.push_answers l2); reflexivity.
Qed.

Lemma C10_witness :
  RawBody.push_answers [VObject [("answer", VString "orphan")]] = Ret []
  ∧ EventType.push_answers
      ([] ++ VObject [("question", VString "Budget"); ("answer", VNull)] :: [])
    = Ret [ {| meta_key := "Budget"; meta_value := VString "" |} ].
Proof.
  destruct C10_entries_without_question as [Hskip Hemit].
  split.
  - destruct (Hskip (VObject [("answer", VString "orphan")]) [] [] eq_refl) as (_ & H & _).
    exact H.
  - destruct (Hemit (VObject [("question", VString "Budget"); ("answer", VNull)])
                "Budget" [] [] eq_refl) as [H _]; [discriminate | reflexivity |].
    exact H.
Defined.

(** * Further properties *)

(** ** The signature verifier accepts exactly the decoded HMAC *)

Lemma timingSafeEqual_eq (a b : list N) : Buffer.timingSafeEqual a b = true ↔ a = b.
Proof.
  revert b. induction a as [|x a IH]; intros [|y b]; simpl; split; try congruence.
  - intros H. apply andb_prop in H as [Hx Hr]. apply N.eqb_eq in Hx. apply IH in Hr. congruence.
  - intros [= -> ->]. rewrite N.eqb_refl. apply IH. reflexivity.
Qed.

Lemma append_nil (s : string) : "" ++ s = s.
Proof. reflexivity. Qed.

Lemma append_cons (c : ascii) (a b : string) : String c a ++ b = String c (a ++ b).
Proof. reflexivity. Qed.

Lemma split_without_separator (sep : ascii) (s : string) :
  JsString.has_char sep s = false → JsString.split sep s = [s].
Proof.
  induction s as [|c r IH]; [reflexivity|].
  cbn [JsString.has_char JsString.split]. intros H. apply orb_false_elim in H as [Hc Hr].
  rewrite Hc, (IH Hr). reflexivity.
Qed.

Lemma split_at_separator (sep : ascii) (a b : string) :
  JsString.has_char sep a = false →
  JsString.split sep (a ++ String sep b) = a :: JsString.split sep b.
Proof.
  induction a as [|c r IH]; rewrite ?append_nil, ?append_cons;
    cbn [JsString.has_char JsString.split].
  - intros _. rewrite Ascii.eqb_refl. reflexivity.
  - intros H. apply orb_false_elim in H as [Hc Hr]. rewrite Hc, (IH Hr). reflexivity.
Qed.

Lemma trimEnd_keeps_head (c : ascii) (r : string) :
  JsString.is_whitespace c = false →
  JsString.trimEnd (String c r) = String c (JsString.trimEnd r).
Proof.
  intros H. cbn [JsString.trimEnd]. destruct (JsString.trimEnd r); [rewrite H|]; reflexivity.
Qed.

Lemma trim_t_component (x : string) :
  JsString.trim ("t=" ++ x) = "t=" ++ JsString.trimEnd x.
Proof.
  unfold JsString.trim. rewrite !append_cons, append_nil. cbn [JsString.trimStart].
  change (JsString.is_whitespace "t") with false. cbv iota.
  rewrite !trimEnd_keeps_head by reflexivity. reflexivity.
Qed.

Lemma trim_v1_component (x : string) :
  JsString.trim ("v1=" ++ x) = "v1=" ++ JsString.trimEnd x.
Proof.
  unfold JsString.trim. rewrite !append_cons, append_nil. cbn [JsString.trimStart].
  change (JsString.is_whitespace "v") with false. cbv iota.
  rewrite !trimEnd_keeps_head by reflexivity. reflexivity.
Qed.

Lemma has_char_app (c : ascii) (a b : string) :
  JsString.has_char c (a ++ b) = JsString.has_char c a || JsString.has_char c b.
Proof.
  induction a as [|d a IH]; rewrite ?append_nil, ?append_cons;
    cbn [JsString.has_char]; [reflexivity|].
  rewrite IH. apply orb_assoc.
Qed.

Lemma startsWith_empty (s : string) : JsString.startsWith s "" = true.
Proof. destruct s; reflexivity. Qed.

Lemma startsWith_append (p x : string) : JsString.startsWith (p ++ x) p = true.
Proof.
  induction p as [|c p IH]; rewrite ?append_nil, ?append_cons; [apply startsWith_empty|].
  cbn [JsString.startsWith]. rewrite Ascii.eqb_refl, IH. reflexivity.
Qed.

(** The parts found in a header [t=<ts>,v1=<sig>]. *)
Lemma header_components (ts sig : string) :
  JsString.has_char "," ts = false → JsString.has_char "," sig = false →
  let parts := JsString.split "," ("t=" ++ ts ++ ",v1=" ++ sig) in
  List.find (fun p => JsString.startsWith (JsString.trim p) "t=") parts = Some ("t=" ++ ts)
  ∧ List.find (fun p => JsString.startsWith (JsString.trim p) "v1=") parts = Some ("v1=" ++ sig).
Proof.
  intros Ht Hs. cbv zeta.
  assert (E : JsString.split "," ("t=" ++ ts ++ ",v1=" ++ sig) = ["t=" ++ ts; "v1=" ++ sig]).
  { change ("t=" ++ ts ++ ",v1=" ++ sig) with (String "t" (String "=" (ts ++ String "," ("v1=" ++ sig)))).
    replace (String "t" (String "=" (ts ++ String "," ("v1=" ++ sig))))
      with (("t=" ++ ts) ++ String "," ("v1=" ++ sig)) by reflexivity.
    rewrite split_at_separator by (rewrite has_char_app, Ht; reflexivity).
    rewrite split_without_separator by (rewrite has_char_app, Hs; reflexivity).
    reflexivity. }
  rewrite E. cbn [List.find]. rewrite trim_t_component, trim_v1_component.
  rewrite !startsWith_append. split; reflexivity.
Qed.

(** A header [t=<ts>,v1=<sig>] whose signature decodes to the bytes of the
    HMAC of [<ts>.<rawBody>] under the signing key is accepted. *)
Theorem verifier_accepts_matching_signature (w : World) (rawBody key ts sig : string) :
  key ≠ "" →
  JsString.has_char "," ts = false → JsString.has_char "=" ts = false →
  JsString.has_char "," sig = false → JsString.has_char "=" sig = false →
  Buffer.from_hex sig = Buffer.from_hex (hmac_sha256_hex w key (ts ++ "." ++ rawBody)) →
  RawBody.verifyCalendlySignature w rawBody (Some ("t=" ++ ts ++ ",v1=" ++ sig)) (Some key)
  = Ret true.
Proof.
  intros Hk Htc Hte Hsc Hse Hsig. unfold RawBody.verifyCalendlySignature.
  destruct (header_components ts sig Htc Hsc) as [Ft Fv]. cbv zeta in Ft, Fv.
  cbn [RawBody.missing]. apply String.eqb_neq in Hk. rewrite Hk.
  change (("t=" ++ ts ++ ",v1=" ++ sig =? "")%string) with false. cbn [orb].
  rewrite Ft, Fv. cbn [RawBody.missing String.eqb String.append orb Ascii.eqb Bool.eqb].
  unfold RawBody.after_equals.
  replace ("t=" ++ ts) with ("t" ++ String "=" ts) by reflexivity.
  replace ("v1=" ++ sig) with ("v1" ++ String "=" sig) by reflexivity.
  rewrite !split_at_separator by reflexivity.
  rewrite !split_without_separator by assumption.
  cbn [lookup list_lookup default mbind outcome_bind id].
  rewrite Hsig, Nat.eqb_refl. cbn [negb].
  f_equal. apply timingSafeEqual_eq. reflexivity.
Qed.

Lemma verifier_accepts_witness :
  RawBody.verifyCalendlySignature (Sample.world VNull (Resolved VNull) (Resolved VNull))
    "{}" (Some "t=1700000000,v1=00") (Some "key") = Ret true.
Proof.
  apply (verifier_accepts_matching_signature _ "{}" "key" "1700000000" "00");
    [discriminate | reflexivity..].
Defined.

(** The verifier accepts only when header and key are present, the header
    has a [t=] and a [v1=] component, and the signature of the latter decodes
    to the bytes of the HMAC of [<t>.<rawBody>] under the key. *)
Theorem verifier_accepts_only_the_hmac (w : World) (rawBody : string)
    (signatureHeader signingKey : option string) :
  RawBody.verifyCalendlySignature w rawBody signatureHeader signingKey = Ret true →
  ∃ header key tPart v1Part t sig,
    signatureHeader = Some header ∧ signingKey = Some key ∧ key ≠ ""
    ∧ In tPart (JsString.split "," header)
    ∧ JsString.startsWith (JsString.trim tPart) "t=" = true
    ∧ In v1Part (JsString.split "," header)
    ∧ JsString.startsWith (JsString.trim v1Part) "v1=" = true
    ∧ RawBody.after_equals tPart = Some t
    ∧ RawBody.after_equals v1Part = Some sig
    ∧ Buffer.from_hex sig = Buffer.from_hex (hmac_sha256_hex w key (t ++ "." ++ rawBody)).
Proof.
  unfold RawBody.verifyCalendlySignature.
  destruct (RawBody.missing signatureHeader) eqn:Mh; simpl; [discriminate|].
  destruct (RawBody.missing signingKey) eqn:Mk; simpl; [discriminate|].
  destruct signatureHeader as [h|]; [|discriminate Mh].
  destruct signingKey as [k|]; [|discriminate Mk].
  destruct (List.find _ (JsString.split "," h)) as [tp|] eqn:Ft; simpl; [|discriminate].
  destruct (List.find (fun p => JsString.startsWith (JsString.trim p) "v1=") _)
    as [vp|] eqn:Fv; simpl.
  2:{ rewrite orb_true_r. discriminate. }
  destruct ((tp =? "")%string || (vp =? "")%string); [discriminate|].
  apply find_some in Ft as [It Ht], Fv as [Iv Hv].
  destruct (component_has_value "t=" tp eq_refl Ht) as [t Et].
  destruct (component_has_value "v1=" vp eq_refl Hv) as [sig Es].
  rewrite Et, Es. cbn [mbind outcome_bind default id].
  destruct (negb _); [discriminate|]. intros [= H]. apply timingSafeEqual_eq in H.
  exists h, k, tp, vp, t, sig. simpl in Mk. apply String.eqb_neq in Mk.
  repeat split; try assumption. symmetry. exact H.
Qed.

Lemma verifier_accepts_only_witness :
  ∃ sig, Buffer.from_hex sig = Buffer.from_hex "00".
Proof.
  destruct (verifier_accepts_only_the_hmac
              (Sample.world VNull (Resolved VNull) (Resolved VNull))
              "{}" (Some "t=1700000000,v1=00") (Some "key") eq_refl)
    as (h & k & tp & vp & t & sig & _ & Ek & _ & _ & _ & _ & _ & _ & _ & H).
  exists sig. injection Ek as <-. 
  exact (eq_trans H eq_refl).
Defined.
(** ** The routes, step by step

    What each route answers and which outbound calls it makes, written as
    one case analysis on the request. *)

Lemma RawBody_run (w : World) (env : Env) (req : raw_request) :
  run (RawBody.webhook w env req) =
  match JSON_parse w (body_text req) with
  | None => (Json 400 (obj_failure "Invalid JSON body"), [])
  | Some body =>
      if negb (Js.Truthy body) then (Json 400 (obj_failure "Invalid JSON body"), [])
      else if negb (RawBody.signature_accepted w env req)
      then (Json 401 (obj_failure "Invalid webhook signature"), [])
      else
        let n := RawBody.normalizeCalendlyWebhook body in
        match Js.interpolate (RawBody.event n) with
        | Throw e => (ServerError e, [])
        | Ret _ =>
            if negb (Js.is_string (RawBody.event n) "invitee.created")
            then (Json 200 (obj_message "Event ignored"), [])
            else if negb (Js.Truthy (RawBody.invitee n)) || negb (Js.Truthy (RawBody.eventData n))
            then (Json 200 (obj_failure "Missing invitee/event in payload"), [])
            else
              match RawBody.buildPayload env (RawBody.invitee n) (RawBody.eventData n)
                      (RawBody.questionsAnswers n) with
              | Throw e => (ServerError e, [])
              | Ret (title, p) =>
                  match axios_post w (TELEFORCE_API_URL env) p with
                  | Resolved _ =>
                      (LeadSent "segment" title (Some (segmentid p)),
                       [POST (TELEFORCE_API_URL env) p])
                  | Rejected d =>
                      (ServerError (AxiosError d), [POST (TELEFORCE_API_URL env) p])
                  end
              end
        end
  end.
Proof.
  unfold run, RawBody.webhook, RawBody.signature_accepted, RawBody.safeJsonParse.
  destruct (JSON_parse w (body_text req)) as [body|]; [|reflexivity].
  destruct (Js.Truthy body); cbn [negb]; [|reflexivity].
  unfold mbind, mret, handler_bind, handler_ret, lift, respond.
  destruct (RawBody.ENABLE_SIGNATURE_VERIFY env);
    [destruct (verifier_total w (body_text req)
                 (if RawBody.missing (signature_header req) then None
                  else signature_header req)
                 (CALENDLY_WEBHOOK_SIGNING_KEY env)) as [[|] ->]; cbn [negb];
       [|reflexivity]|];
    cbn [negb]; cbv zeta;
    (destruct (Js.interpolate _); [|reflexivity];
     destruct (negb (Js.is_string _ _)); [reflexivity|];
     destruct (_ || _); [reflexivity|];
     destruct (RawBody.buildPayload _ _ _ _) as [[title p]|]; [|reflexivity];
     unfold await_post; destruct (axios_post _ _ _); reflexivity).
Qed.

Lemma EventType_run (w : World) (env : Env) (req : raw_request) :
  run (EventType.webhook w env req) =
  match JSON_parse w (body_text req) with
  | None => (Json 400 (obj_failure "Invalid JSON body"), [])
  | Some body =>
      if negb (Js.Truthy body) then (Json 400 (obj_failure "Invalid JSON body"), [])
      else
        let n := EventType.normalizeCalendlyWebhook body in
        match Js.interpolate (EventType.event n) with
        | Throw e => (ServerError e, [])
        | Ret _ =>
            if negb (Js.is_string (EventType.event n) "invitee.created")
            then (Json 200 (obj_message "Event ignored"), [])
            else if negb (Js.Truthy (EventType.invitee n))
            then (Json 200 (obj_failure "Missing invitee in payload"), [])
            else if negb (Js.Truthy (EventType.eventData n))
            then (Json 200 (obj_failure "Missing scheduled_event in payload"), [])
            else
              match EventType.contact_of (EventType.invitee n) (EventType.questionsAnswers n) with
              | Throw e => (ServerError e, [])
              | Ret c =>
                  match Js.Get (EventType.eventData n) "event_type" with
                  | Throw e => (ServerError e, [])
                  | Ret eventTypeUrl =>
                      match EventType.getEventTypeName w env eventTypeUrl [] with
                      | (Next eventTypeName, tr) =>
                          match EventType.buildPayload env c (EventType.eventData n)
                                  (EventType.questionsAnswers n) eventTypeName with
                          | Throw e => (ServerError e, tr)
                          | Ret (seg, p) =>
                              match axios_post w (TELEFORCE_API_URL env) p with
                              | Resolved _ =>
                                  (LeadSent "segmentKey" (VString (EventType.segmentKey seg))
                                     (Some (segmentid p)),
                                   (tr ++ [POST (TELEFORCE_API_URL env) p])%list)
                              | Rejected d =>
                                  (ServerError (AxiosError d),
                                   (tr ++ [POST (TELEFORCE_API_URL env) p])%list)
                              end
                          end
                      | (Respond r, tr) => (r, tr)
                      | (Raise e, tr) => (ServerError e, tr)
                      end
                  end
              end
        end
  end.
Proof.
  unfold run, EventType.webhook, EventType.safeJsonParse.
  destruct (JSON_parse w (body_text req)) as [body|]; [|reflexivity].
  destruct (Js.Truthy body); cbn [negb]; [|reflexivity].
  unfold mbind, mret, handler_bind, handler_ret, lift, respond. cbv zeta.
  destruct (Js.interpolate _); [|reflexivity].
  destruct (negb (Js.is_string _ _)); [reflexivity|].
  destruct (negb (Js.Truthy (EventType.invitee _))); [reflexivity|].
  destruct (negb (Js.Truthy (EventType.eventData _))); [reflexivity|].
  destruct (EventType.contact_of _ _) as [c|]; [|reflexivity].
  destruct (Js.Get _ "event_type") as [u|]; [|reflexivity].
  destruct (EventType.getEventTypeName w env u []) as [[v|r|e] tr]; try reflexivity.
  destruct (EventType.buildPayload _ _ _ _ _) as [[seg p]|]; [|reflexivity].
  unfold await_post. destruct (axios_post _ _ _); reflexivity.
Qed.

Lemma IndexJs_run (w : World) (env : Env) (body : value) :
  run (IndexJs.webhook w env body) =
  match Js.Get body "event" with
  | Throw e => (ServerError e, [])
  | Ret event =>
      match Js.interpolate event with
      | Throw e => (ServerError e, [])
      | Ret _ =>
          if negb (Js.is_string event "invitee.created")
          then (Json 200 (obj_message "Event ignored"), [])
          else
            match IndexJs.buildPayload env (Js.GetOpt body "data") with
            | Throw e => (ServerError e, [])
            | Ret (title, p) =>
                match axios_post w (TELEFORCE_API_URL env) p with
                | Resolved _ =>
                    (LeadSent "segment" title None, [POST (TELEFORCE_API_URL env) p])
                | Rejected d =>
                    (ServerError (AxiosError d), [POST (TELEFORCE_API_URL env) p])
                end
            end
      end
  end.
Proof.
  unfold run, IndexJs.webhook.
  unfold mbind, mret, handler_bind, handler_ret, lift, respond.
  destruct (Js.Get body "event") as [e|] eqn:E; [|reflexivity].
  assert (D : Js.Get body "data" = Ret (Js.GetOpt body "data")).
  { destruct body; try discriminate E; reflexivity. }
  rewrite D.
  destruct (Js.interpolate _); [|reflexivity].
  destruct (negb (Js.is_string _ _)); [reflexivity|].
  destruct (IndexJs.buildPayload _ _) as [[title p]|]; [|reflexivity].
  unfold await_post. destruct (axios_post _ _ _); reflexivity.
Qed.
(** ** Bodies that are not JSON *)

(** A body that does not parse, and a body that parses to a falsy value
    ([null], [false], [0], the empty string), is answered 400 by both
    raw-body routes before anything else is looked at, the signature
    included; no outbound call is made. *)
Theorem unparsable_body_is_rejected (w : World) (env : Env) (req : raw_request) :
  JSON_parse w (body_text req) = None
  ∨ (∃ v, JSON_parse w (body_text req) = Some v ∧ Js.Truthy v = false) →
  run (RawBody.webhook w env req) = (Json 400 (obj_failure "Invalid JSON body"), [])
  ∧ run (EventType.webhook w env req) = (Json 400 (obj_failure "Invalid JSON body"), []).
Proof.
  rewrite RawBody_run, EventType_run.
  intros [->|(v & -> & ->)]; split; reflexivity.
Qed.

Lemma unparsable_body_witness :
  run (RawBody.webhook (Sample.world (VNumber 0) (Resolved VNull) (Resolved VNull))
         Sample.env_verifying Sample.request)
  = (Json 400 (obj_failure "Invalid JSON body"), []).
Proof.
  apply unparsable_body_is_rejected. right. exists (VNumber 0). split; reflexivity.
Defined.

(** ** The signature gate *)

Lemma verify_normalized_header (w : World) (rawBody : string) (h k : option string) :
  RawBody.verifyCalendlySignature w rawBody (if RawBody.missing h then None else h) k
  = RawBody.verifyCalendlySignature w rawBody h k.
Proof.
  destruct (RawBody.missing h) eqn:M; [|reflexivity].
  unfold RawBody.verifyCalendlySignature. rewrite M. reflexivity.
Qed.

Lemma ENABLE_SIGNATURE_VERIFY_spec (env : Env) :
  RawBody.ENABLE_SIGNATURE_VERIFY env = true
  ↔ ∃ s, CALENDLY_VERIFY_SIGNATURE env = Some s ∧ JsString.toLowerCase s = "true".
Proof.
  unfold RawBody.ENABLE_SIGNATURE_VERIFY, RawBody.env_or.
  destruct (CALENDLY_VERIFY_SIGNATURE env) as [s|].
  - destruct (String.eqb_spec s "") as [->|Hs].
    + split; [discriminate|]. intros (s & [= <-] & H). discriminate H.
    + rewrite String.eqb_eq. split; [eauto|]. intros (s' & [= <-] & H). exact H.
  - split; [discriminate|]. intros (s & H & _). discriminate H.
Qed.

(** The check is switched on exactly by a [CALENDLY_VERIFY_SIGNATURE] that
    reads "true" in any letter case. While it is off, the signature header
    plays no part: two requests with the same body get the same response and
    make the same outbound calls. *)
Theorem signature_check_is_optional (w : World) (env : Env) :
  (RawBody.ENABLE_SIGNATURE_VERIFY env = true
   ↔ ∃ s, CALENDLY_VERIFY_SIGNATURE env = Some s ∧ JsString.toLowerCase s = "true")
  ∧ (RawBody.ENABLE_SIGNATURE_VERIFY env = false →
     ∀ req req', body_text req = body_text req' →
       run (RawBody.webhook w env req) = run (RawBody.webhook w env req')).
Proof.
  split; [apply ENABLE_SIGNATURE_VERIFY_spec|].
  intros Off req req' E. rewrite !RawBody_run. unfold RawBody.signature_accepted.
  rewrite Off, E. reflexivity.
Qed.

Lemma signature_check_is_optional_witness :
  run (RawBody.webhook (Sample.world Sample.canceled (Resolved VNull) (Resolved VNull))
         Sample.env Sample.request)
  = run (RawBody.webhook (Sample.world Sample.canceled (Resolved VNull) (Resolved VNull))
           Sample.env {| body_text := "{}"; signature_header := Some "t=1,v1=ff" |}).
Proof.
  apply (signature_check_is_optional _ Sample.env); reflexivity.
Defined.

(** With the check switched on, a parsed request whose signature the
    verifier refuses is answered 401 whatever its event and content, and
    nothing is forwarded. *)
Theorem refused_signature_is_unauthorized (w : World) (env : Env) (req : raw_request)
    (body : value) :
  RawBody.ENABLE_SIGNATURE_VERIFY env = true →
  JSON_parse w (body_text req) = Some body →
  Js.Truthy body = true →
  RawBody.verifyCalendlySignature w (body_text req) (signature_header req)
    (CALENDLY_WEBHOOK_SIGNING_KEY env) = Ret false →
  run (RawBody.webhook w env req) = (Json 401 (obj_failure "Invalid webhook signature"), []).
Proof.
  intros On P T V. rewrite RawBody_run, P, T. cbn [negb].
  unfold RawBody.signature_accepted. rewrite On, verify_normalized_header, V. reflexivity.
Qed.

Lemma refused_signature_witness :
  run (RawBody.webhook (Sample.world Sample.booking (Resolved VNull) (Resolved VNull))
         Sample.env_verifying {| body_text := "{}"; signature_header := Some "t=1,v1=ff" |})
  = (Json 401 (obj_failure "Invalid webhook signature"), []).
Proof.
  apply (refused_signature_is_unauthorized _ _ _ Sample.booking); reflexivity.
Defined.

(** ** Requests without invitee or event *)

Lemma interpolate_string (s : string) : Js.interpolate (VString s) = Ret tt.
Proof. reflexivity. Qed.

(** A booking in which the invitee or the event cannot be located is
    acknowledged with 200 and [success: false]; no lookup and no forward is
    made. The event-type version tells a missing [payload] from a missing
    [payload.scheduled_event]. *)
Theorem incomplete_booking_is_acknowledged (w : World) (env : Env) (req : raw_request)
    (body : value) :
  JSON_parse w (body_text req) = Some body →
  Js.GetOpt body "event" = VString "invitee.created" →
  (RawBody.signature_accepted w env req = true →
   Js.Truthy (RawBody.invitee (RawBody.normalizeCalendlyWebhook body)) = false
   ∨ Js.Truthy (RawBody.eventData (RawBody.normalizeCalendlyWebhook body)) = false →
   run (RawBody.webhook w env req)
   = (Json 200 (obj_failure "Missing invitee/event in payload"), []))
  ∧ (Js.Truthy (Js.GetOpt body "payload") = false →
     run (EventType.webhook w env req)
     = (Json 200 (obj_failure "Missing invitee in payload"), []))
  ∧ (Js.Truthy (Js.GetOpt body "payload") = true →
     Js.Truthy (Js.GetOpt (Js.GetOpt body "payload") "scheduled_event") = false →
     run (EventType.webhook w env req)
     = (Json 200 (obj_failure "Missing scheduled_event in payload"), [])).
Proof.
  intros P E. destruct (event_is_string _ _ E) as [props ->].
  rewrite RawBody_run, EventType_run, P. cbn [Js.Truthy negb]. cbv zeta.
  cbn [RawBody.normalizeCalendlyWebhook RawBody.event RawBody.invitee RawBody.eventData
       EventType.normalizeCalendlyWebhook EventType.event EventType.invitee
       EventType.eventData].
  rewrite E, interpolate_string.
  change (Js.is_string (VString "invitee.created") "invitee.created") with true.
  cbn [negb]. split; [|split].
  - intros -> [H|H]; cbn [negb]; rewrite H; cbn [negb orb]; [reflexivity|].
    rewrite orb_true_r. reflexivity.
  - intros H. rewrite (or_falsy _ _ H). reflexivity.
  - intros H1 H2. rewrite (or_truthy _ _ H1), H1, (or_falsy _ _ H2). reflexivity.
Qed.

Lemma incomplete_booking_witness :
  run (EventType.webhook (Sample.world Sample.legacy (Resolved VNull) (Resolved VNull))
         Sample.env Sample.request)
  = (Json 200 (obj_failure "Missing invitee in payload"), []).
Proof.
  destruct (incomplete_booking_is_acknowledged
              (Sample.world Sample.legacy (Resolved VNull) (Resolved VNull))
              Sample.env Sample.request Sample.legacy eq_refl eq_refl) as (_ & H & _).
  apply H. reflexivity.
Defined.
(** The lookup makes a request only for a truthy URL. *)
Lemma getEventTypeName_called (w : World) (env : Env) (url : value) :
  ∃ v tr, EventType.getEventTypeName w env url [] = (Next v, tr)
          ∧ (tr = [] ∨ ∃ u, tr = [GET u] ∧ Js.Truthy u = true).
Proof.
  unfold EventType.getEventTypeName, EventType.or_null.
  destruct (Js.Truthy url) eqn:T; cbn [negb]; [|step_handler; eauto].
  step_handler. unfold Js.interpolate.
  destruct (Js.ToString url); cbn [outcome_bind mbind]; [|eauto].
  unfold await_get. destruct (axios_get _ _ _).
  - destruct (Js.ToString _); cbn [outcome_bind mbind]; eexists _, _;
      (split; [reflexivity | right; eauto]).
  - eexists _, _. split; [reflexivity | right; eauto].
Qed.

(** ** Outbound calls *)

(** A request is forwarded at most once, to [TELEFORCE_API_URL]; the
    event-type version asks for the event type at most once, and before it
    forwards. There is no second attempt. *)
Theorem one_forward_at_most (w : World) (env : Env) :
  (∀ req, snd (run (RawBody.webhook w env req)) = []
          ∨ ∃ p, snd (run (RawBody.webhook w env req)) = [POST (TELEFORCE_API_URL env) p])
  ∧ (∀ body, snd (run (IndexJs.webhook w env body)) = []
             ∨ ∃ p, snd (run (IndexJs.webhook w env body)) = [POST (TELEFORCE_API_URL env) p])
  ∧ (∀ req, ∃ lookups forwards,
       snd (run (EventType.webhook w env req)) = (lookups ++ forwards)%list
       ∧ (lookups = [] ∨ ∃ u, lookups = [GET u] ∧ Js.Truthy u = true)
       ∧ (forwards = [] ∨ ∃ p, forwards = [POST (TELEFORCE_API_URL env) p])).
Proof.
  split; [|split].
  - intros req. rewrite RawBody_run. cbv zeta.
    destruct (JSON_parse w (body_text req)) as [body|]; [|auto].
    destruct (negb (Js.Truthy body)); [auto|].
    destruct (negb (RawBody.signature_accepted w env req)); [auto|].
    destruct (Js.interpolate _); [|auto].
    destruct (negb (Js.is_string _ _)); [auto|].
    destruct (_ || _); [auto|].
    destruct (RawBody.buildPayload _ _ _ _) as [[title p]|]; [|auto].
    destruct (axios_post _ _ _); cbn [snd]; eauto.
  - intros body. rewrite IndexJs_run.
    destruct (Js.Get body "event"); [|auto].
    destruct (Js.interpolate _); [|auto].
    destruct (negb (Js.is_string _ _)); [auto|].
    destruct (IndexJs.buildPayload _ _) as [[title p]|]; [|auto].
    destruct (axios_post _ _ _); cbn [snd]; eauto.
  - intros req. rewrite EventType_run. cbv zeta.
    destruct (JSON_parse w (body_text req)) as [body|]; [|exists [], []; auto].
    destruct (negb (Js.Truthy body)); [exists [], []; auto|].
    destruct (Js.interpolate _); [|exists [], []; auto].
    destruct (negb (Js.is_string _ _)); [exists [], []; auto|].
    destruct (negb (Js.Truthy (EventType.invitee _))); [exists [], []; auto|].
    destruct (negb (Js.Truthy (EventType.eventData _))); [exists [], []; auto|].
    destruct (EventType.contact_of _ _) as [c|]; [|exists [], []; auto].
    destruct (Js.Get _ "event_type") as [u|]; [|exists [], []; auto].
    destruct (getEventTypeName_called w env u) as (v & tr & -> & Htr).
    destruct (EventType.buildPayload _ _ _ _ _) as [[seg p]|].
    + destruct (axios_post _ _ _); cbn [snd]; eexists tr, _; (split; [reflexivity|]);
        (split; [exact Htr | right; eauto]).
    + cbn [snd]. exists tr, []. rewrite app_nil_r. auto.
Qed.

(** ** What is forwarded *)

Lemma RawBody_payload_shape env invitee eventData qas title p :
  RawBody.buildPayload env invitee eventData qas = Ret (title, p) →
  usergroupid p = TELEFORCE_ACCOUNT_ID env ∧ (4 ≤ length (otherparams p))%nat.
Proof.
  unfold RawBody.buildPayload. intros H. invert_binds H. injection H as <- <-.
  cbn [usergroupid otherparams]. split; [reflexivity|]. rewrite length_app. simpl. lia.
Qed.

Lemma EventType_payload_shape env c eventData qas name seg p :
  EventType.buildPayload env c eventData qas name = Ret (seg, p) →
  usergroupid p = TELEFORCE_ACCOUNT_ID env ∧ (4 ≤ length (otherparams p))%nat.
Proof.
  unfold EventType.buildPayload. intros H. invert_binds H. injection H as <- <-.
  cbn [usergroupid otherparams]. split; [reflexivity|]. rewrite length_app. simpl. lia.
Qed.

Lemma IndexJs_payload_shape env data title p :
  IndexJs.buildPayload env data = Ret (title, p) →
  usergroupid p = TELEFORCE_ACCOUNT_ID env ∧ (3 ≤ length (otherparams p))%nat.
Proof.
  unfold IndexJs.buildPayload. intros H. invert_binds H. injection H as <- <-.
  cbn [usergroupid otherparams]. split; [reflexivity|]. rewrite length_app. simpl. lia.
Qed.

(** Every payload that a route posts carries the configured account id as
    [usergroupid] and a non-empty [otherparams]: the fixed entries are always
    there, four of them, three in [index.js]. *)
Theorem forwarded_lead_has_account_and_metadata (w : World) (env : Env)
    (url : option string) (p : teleforcePayload) :
  (∀ req, In (POST url p) (snd (run (RawBody.webhook w env req))) →
     usergroupid p = TELEFORCE_ACCOUNT_ID env ∧ (4 ≤ length (otherparams p))%nat)
  ∧ (∀ req, In (POST url p) (snd (run (EventType.webhook w env req))) →
     usergroupid p = TELEFORCE_ACCOUNT_ID env ∧ (4 ≤ length (otherparams p))%nat)
  ∧ (∀ body, In (POST url p) (snd (run (IndexJs.webhook w env body))) →
     usergroupid p = TELEFORCE_ACCOUNT_ID env ∧ (3 ≤ length (otherparams p))%nat).
Proof.
  split; [|split].
  - intros req H. apply RawBody_posts_built_payload in H as (body & title & _ & B).
    exact (RawBody_payload_shape _ _ _ _ _ _ B).
  - intros req H.
    apply EventType_posts_built_payload in H as (body & c & nm & seg & _ & _ & B).
    exact (EventType_payload_shape _ _ _ _ _ _ _ B).
  - intros body H. apply IndexJs_posts_built_payload in H as (title & B).
    exact (IndexJs_payload_shape _ _ _ _ B).
Qed.

Lemma forwarded_lead_witness :
  ∃ p, usergroupid p = Some "ACC-1" ∧ (4 ≤ length (otherparams p))%nat.
Proof.
  eexists.
  destruct (forwarded_lead_has_account_and_metadata
              Sample.lookup_up Sample.env (TELEFORCE_API_URL Sample.env)
              ltac:(match eval vm_compute in
                      (snd (run (EventType.webhook Sample.lookup_up Sample.env Sample.request)))
                    with [_; POST _ ?p] => exact p end)) as (_ & H & _).
  apply (H Sample.request). vm_compute. right. left. reflexivity.
Defined.
(** ** The keyword resolver *)

Lemma toLowerCase_append (a b : string) :
  JsString.toLowerCase (a ++ b) = JsString.toLowerCase a ++ JsString.toLowerCase b.
Proof.
  induction a as [|c a IH]; rewrite ?append_nil, ?append_cons;
    cbn [JsString.toLowerCase]; rewrite ?append_nil, ?append_cons; [reflexivity|].
  rewrite IH. reflexivity.
Qed.

Lemma includes_unfold (s p : string) :
  JsString.includes s p =
  JsString.startsWith s p
  || match s with
     | EmptyString => false
     | String _ r => JsString.includes r p
     end.
Proof. destruct s; reflexivity. Qed.

Lemma includes_infix (a p b : string) : JsString.includes (a ++ p ++ b) p = true.
Proof.
  induction a as [|c a IH]; rewrite ?append_nil, ?append_cons; rewrite includes_unfold.
  - rewrite startsWith_append. reflexivity.
  - rewrite IH. apply orb_true_r.
Qed.

(** The keyword is found wherever it stands in the name and in whatever
    letter case it is written: a name with "cro" in it goes to the CRO
    segment (also as part of a longer word), a name with "performance" and
    without "cro" to the Performance segment. *)
Theorem keyword_is_found_anywhere (a k b : string) :
  (JsString.toLowerCase k = "cro" →
   EventType.resolveSegment (VString (a ++ k ++ b))
   = Ret {| EventType.segmentKey := "CRO"; EventType.segmentId := Own CRO_segment |})
  ∧ (JsString.toLowerCase k = "performance" →
     JsString.includes (JsString.toLowerCase (a ++ k ++ b)) "cro" = false →
     EventType.resolveSegment (VString (a ++ k ++ b))
     = Ret {| EventType.segmentKey := "Performance";
              EventType.segmentId := Own Performance_segment |}).
Proof.
  split.
  - intros Hk. rewrite resolveSegment_string. cbv zeta.
    rewrite !toLowerCase_append, Hk, includes_infix. reflexivity.
  - intros Hk Hc. rewrite resolveSegment_string. cbv zeta. rewrite Hc.
    rewrite !toLowerCase_append, Hk, includes_infix. reflexivity.
Qed.

Lemma keyword_is_found_witness :
  EventType.resolveSegment (VString ("Mi" ++ "CRO" ++ "soft onboarding"))
  = Ret {| EventType.segmentKey := "CRO"; EventType.segmentId := Own CRO_segment |}
  ∧ EventType.resolveSegment (VString ("Paid " ++ "Performance" ++ " review"))
    = Ret {| EventType.segmentKey := "Performance";
             EventType.segmentId := Own Performance_segment |}.
Proof.
  split.
  - apply (keyword_is_found_anywhere "Mi" "CRO" "soft onboarding"). reflexivity.
  - apply (keyword_is_found_anywhere "Paid " "Performance" " review"); reflexivity.
Defined.

(** Whatever [resolveSegment] returns, the key is one of the three keys of
    [SEGMENT_MAPPING] and the id is the one the table holds for that key.
    It throws exactly on a truthy name that is no string. *)
Theorem resolved_segment_is_in_the_table (eventTypeName : value) :
  (∀ seg, EventType.resolveSegment eventTypeName = Ret seg →
     In (EventType.segmentKey seg) ["CRO"; "Performance"; "default_segment"]
     ∧ ∃ id, SEGMENT_MAPPING !! EventType.segmentKey seg = Some id
             ∧ EventType.segmentId seg = Own id)
  ∧ (EventType.resolveSegment eventTypeName = Throw TypeError
     ↔ Js.Truthy eventTypeName = true ∧ ∀ s, eventTypeName ≠ VString s).
Proof.
  destruct (Js.Truthy eventTypeName) eqn:T.
  - destruct eventTypeName as [| |b|n|s|l|ps];
      try discriminate T;
      try (split; [intros seg H; unfold EventType.resolveSegment in H;
                   rewrite (or_truthy _ _ T) in H; discriminate H
                  |split; [intros _; split; [reflexivity | discriminate]
                          |intros _; unfold EventType.resolveSegment;
                           rewrite (or_truthy _ _ T); reflexivity]]).
    rewrite resolveSegment_string. cbv zeta. split.
    + intros seg.
      destruct (JsString.includes _ "cro"); [|destruct (JsString.includes _ "performance")];
        intros [= <-]; cbn [EventType.segmentKey EventType.segmentId];
        (split; [cbn [In]; auto | eexists; split; reflexivity]).
    + split; [|intros [_ H]; exfalso; exact (H s eq_refl)].
      destruct (JsString.includes _ "cro"); [|destruct (JsString.includes _ "performance")];
        discriminate.
  - rewrite (resolveSegment_falsy _ T). split.
    + intros seg [= <-]. cbn [EventType.segmentKey EventType.segmentId].
      split; [cbn [In]; auto | eexists; split; reflexivity].
    + split; [discriminate | intros [H _]; discriminate H].
Qed.

Lemma resolved_segment_witness :
  EventType.resolveSegment (VNumber 7) = Throw TypeError.
Proof.
  apply resolved_segment_is_in_the_table. split; [reflexivity | discriminate].
Defined.

(** ** The event-type lookup, when it succeeds *)

(** For a non-empty URL whose request resolves, the lookup makes exactly
    that one GET and returns the [name] of the [resource] in the answer, or
    [null] when the answer has no such name. *)
Theorem lookup_returns_the_resource_name (w : World) (env : Env) (u : string)
    (data : value) (tr : list outcall) :
  u ≠ "" →
  axios_get w (VString u) (CALENDLY_ACCESS_TOKEN env) = Resolved data →
  let name := Js.GetOpt (Js.GetOpt data "resource") "name" in
  (∃ text, Js.ToString name = Ret text) →
  EventType.getEventTypeName w env (VString u) tr
  = (Next (if Js.Truthy name then name else VNull), (tr ++ [GET (VString u)])%list).
Proof.
  intros Hu Hg name [text Ht].
  unfold EventType.getEventTypeName, EventType.or_null.
  apply Truthy_string in Hu. rewrite Hu. cbn [negb].
  unfold mbind, mret, handler_bind, handler_ret, lift, await_get.
  rewrite interpolate_string, Hg. fold name. unfold Js.interpolate.
  destruct (Js.Truthy name) eqn:T.
  - rewrite (or_truthy _ _ T), Ht. reflexivity.
  - rewrite (or_falsy _ _ T). reflexivity.
Qed.

Lemma lookup_returns_witness :
  EventType.getEventTypeName Sample.lookup_up Sample.env
    (VString "https://api.calendly.com/event_types/T1") []
  = (Next (VString "Website CRO Meet"),
     [GET (VString "https://api.calendly.com/event_types/T1")]).
Proof.
  apply (lookup_returns_the_resource_name Sample.lookup_up Sample.env
           "https://api.calendly.com/event_types/T1"
           (VObject [("resource", VObject [("name", VString "Website CRO Meet")])]) []).
  - discriminate.
  - reflexivity.
  - eexists. reflexivity.
Defined.
(** ** The form answers *)

Lemma collect_answers_same (fa : FormAnswers.t) (qas : list value) :
  EventType.collect_answers fa qas = RawBody.collect_answers fa qas.
Proof.
  revert fa. induction qas as [|qa qas IH]; intros fa; [reflexivity|].
  cbn [EventType.collect_answers RawBody.collect_answers].
  destruct (Js.Truthy _); [|apply IH].
  destruct (Js.Get qa "answer"); [|reflexivity]. cbn [mbind outcome_bind].
  destruct (Js.ToString _); [|reflexivity]. cbn [mbind outcome_bind]. apply IH.
Qed.

Lemma get_define (fa : FormAnswers.t) (k k' : string) (v : value) :
  FormAnswers.get (FormAnswers.define fa k v) k'
  = if (k =? k')%string then v else FormAnswers.get fa k'.
Proof.
  unfold FormAnswers.get, FormAnswers.define. cbn [FormAnswers.props FormAnswers.prototype].
  destruct (String.eqb_spec k k') as [->|N].
  - rewrite lookup_insert_eq. reflexivity.
  - rewrite lookup_insert_ne by exact N. reflexivity.
Qed.

Lemma set_plain_key (fa : FormAnswers.t) (k : string) (v : value) :
  k ≠ "__proto__" → FormAnswers.set fa k v = FormAnswers.define fa k v.
Proof.
  intros N. unfold FormAnswers.set. apply String.eqb_neq in N. rewrite N. reflexivity.
Qed.

Lemma collect_answers_last (qas : list value) (fa0 : FormAnswers.t) :
  Forall plain_question qas →
  ∃ fa, RawBody.collect_answers fa0 qas = Ret fa
        ∧ ∀ k, FormAnswers.get fa k
               = match last_answer k qas with
                 | Some a => a
                 | None => FormAnswers.get fa0 k
                 end.
Proof.
  intros H. revert fa0. induction H as [|qa qas Hq _ IH]; intros fa0.
  - exists fa0. split; reflexivity.
  - cbn [RawBody.collect_answers last_answer]. unfold plain_question, question_of in *.
    destruct (Js.Truthy (Js.GetOpt qa "question")) eqn:T.
    + destruct Hq as [Hq|(s & Q & N)]; [discriminate Hq|].
      rewrite (truthy_question_object qa T), Q. cbn [mbind outcome_bind Js.ToString].
      rewrite (set_plain_key _ _ _ N).
      destruct (IH (FormAnswers.define fa0 s (answer_of qa))) as (fa & -> & G).
      exists fa. split; [reflexivity|]. intros k. rewrite G, get_define.
      cbn [andb Js.is_string]. destruct (last_answer k qas); [reflexivity|].
      destruct (s =? k)%string; reflexivity.
    + destruct (IH fa0) as (fa & -> & G). exists fa. split; [reflexivity|].
      intros k. rewrite G. cbn [andb]. destruct (last_answer k qas); reflexivity.
Qed.

(** When a question occurs more than once, the last answer counts: after
    the loop over a sequence of entries with text questions (or none),
    [formAnswers[k]] is, for every key [k] that is no name of a member of
    [Object.prototype], the answer of the last entry that asks [k], and
    [undefined] when no entry does. (Under the name of an inherited member
    that no entry asks for, the object gives that member.) Both raw-body
    routes build the same object. *)
Theorem last_answer_wins (qas : list value) :
  Forall plain_question qas →
  ∃ fa, RawBody.collect_answers FormAnswers.empty qas = Ret fa
        ∧ EventType.collect_answers FormAnswers.empty qas = Ret fa
        ∧ ∀ k, inherited k = false →
               FormAnswers.get fa k = default VUndefined (last_answer k qas).
Proof.
  intros H. destruct (collect_answers_last qas FormAnswers.empty H) as (fa & E & G).
  exists fa. rewrite (collect_answers_same FormAnswers.empty qas). repeat split; try exact E.
  intros k _. rewrite G. destruct (last_answer k qas); reflexivity.
Qed.

Lemma last_answer_wins_witness :
  ∃ fa, RawBody.collect_answers FormAnswers.empty
          [VObject [("question", VString "City"); ("answer", VString "Austin")];
           VObject [("answer", VString "orphan")];
           VObject [("question", VString "City"); ("answer", VString "Dallas")]] = Ret fa
        ∧ FormAnswers.get fa "City" = VString "Dallas".
Proof.
  destruct (last_answer_wins
              [VObject [("question", VString "City"); ("answer", VString "Austin")];
               VObject [("answer", VString "orphan")];
               VObject [("question", VString "City"); ("answer", VString "Dallas")]])
    as (fa & E & _ & G).
  - constructor; [|constructor; [|constructor; [|constructor]]].
    + right. exists "City". split; [reflexivity | discriminate].
    + left. reflexivity.
    + right. exists "City". split; [reflexivity | discriminate].
  - exists fa. split; [exact E | apply G; reflexivity].
Defined.

Lemma first_nonblank_here fa k keys v :
  Js.nonblank (FormAnswers.get fa k) = Ret true →
  first_nonblank fa (k :: keys) v → v = FormAnswers.get fa k.
Proof.
  intros Hk H. inversion H; subst; [reflexivity | congruence].
Qed.

(** A question named [__proto__] whose answer is an object does not become
    an entry of [formAnswers] but its prototype: the city is then read from
    inside that answer. *)
Theorem proto_question_supplies_the_city (env : Env) (ps : list (string * value))
    (x : string) :
  let qas := VArray [VObject [("question", VString "__proto__"); ("answer", VObject ps)]] in
  Js.own ps "City" = VString x →
  JsString.trim x ≠ "" →
  (∀ invitee eventData title p,
     RawBody.buildPayload env invitee eventData qas = Ret (title, p) → city p = VString x)
  ∧ (∀ c eventData eventTypeName seg p,
     EventType.buildPayload env c eventData qas eventTypeName = Ret (seg, p) →
     city p = VString x).
Proof.
  intros qas Hc Hx.
  assert (N : ∀ fa, fa = {| FormAnswers.props := ∅;
                            FormAnswers.prototype := FormAnswers.FromPayload (VObject ps) |} →
                    Js.nonblank (FormAnswers.get fa "City") = Ret true
                    ∧ FormAnswers.get fa "City" = VString x).
  { intros fa ->. unfold FormAnswers.get. cbn [FormAnswers.props FormAnswers.prototype].
    rewrite lookup_empty, Hc. split; [|reflexivity].
    unfold Js.nonblank. cbn [Js.nullish Js.ToString mbind outcome_bind].
    apply String.eqb_neq in Hx. rewrite Hx. reflexivity. }
  split.
  - intros * B. apply RawBody_city_address in B as (fa & E & F & _).
    injection E as <-. destruct (N _ eq_refl) as [Hn Hg].
    rewrite (first_nonblank_here _ _ _ _ Hn F). exact Hg.
  - intros * B. apply EventType_city_address in B as (fa & E & F & _).
    injection E as <-. destruct (N _ eq_refl) as [Hn Hg].
    rewrite (first_nonblank_here _ _ _ _ Hn F). exact Hg.
Qed.

Lemma proto_question_witness :
  ∃ t p, RawBody.buildPayload Sample.env Sample.jane Sample.cro_event
           (VArray [VObject [("question", VString "__proto__");
                             ("answer", VObject [("City", VString "Oslo")])]]) = Ret (t, p)
         ∧ city p = VString "Oslo".
Proof.
  eexists. eexists. split; [vm_compute; reflexivity|].
  destruct (proto_question_supplies_the_city Sample.env [("City", VString "Oslo")] "Oslo"
              eq_refl) as [H _]; [discriminate|].
  eapply (H Sample.jane Sample.cro_event). vm_compute. reflexivity.
Defined.
(** ** The exact-name table *)

Lemma SEGMENT_MAPPING_lookup (key : string) :
  SEGMENT_MAPPING !! key =
  if (key =? "CRO")%string then Some CRO_segment
  else if (key =? "Performance")%string then Some Performance_segment
  else if (key =? "default_segment")%string then Some default_segment
  else None.
Proof.
  unfold SEGMENT_MAPPING.
  destruct (String.eqb_spec key "CRO") as [->|N1]; [apply lookup_insert_eq|].
  rewrite lookup_insert_ne by congruence.
  destruct (String.eqb_spec key "Performance") as [->|N2]; [apply lookup_insert_eq|].
  rewrite lookup_insert_ne by congruence.
  destruct (String.eqb_spec key "default_segment") as [->|N3]; [apply lookup_insert_eq|].
  rewrite lookup_insert_ne by congruence. apply lookup_empty.
Qed.

(** The lookup by event title is exact and case-sensitive. In the raw-body
    version the segment id is the one of CRO or of Performance for exactly
    these two titles, and the default for every other title; in [index.js]
    every other title gives the empty id, except the title
    "default_segment". *)
Theorem title_lookup_is_exact (env : Env) (title : value) (key : string)
    (p : teleforcePayload) :
  Js.ToString title = Ret key →
  (∀ invitee eventData qas,
     RawBody.buildPayload env invitee eventData qas = Ret (title, p) →
     segmentid p
     = Own (if (key =? "CRO")%string then CRO_segment
            else if (key =? "Performance")%string then Performance_segment
            else default_segment))
  ∧ (∀ data,
     IndexJs.buildPayload env data = Ret (title, p) →
     segmentid p
     = Own (if (key =? "CRO")%string then CRO_segment
            else if (key =? "Performance")%string then Performance_segment
            else if (key =? "default_segment")%string then default_segment
            else "")).
Proof.
  intros Hk. split.
  - intros * B. pose proof (RawBody_not_inherited _ _ _ _ _ _ _ B Hk) as Hi.
    apply RawBody_segmentid in B as (k & Hk' & -> & _).
    assert (k = key) by congruence; subst k.
    unfold table_get. rewrite SEGMENT_MAPPING_lookup, Hi.
    destruct (key =? "CRO")%string; [reflexivity|].
    destruct (key =? "Performance")%string; [reflexivity|].
    destruct (key =? "default_segment")%string; reflexivity.
  - intros * B. pose proof (IndexJs_not_inherited _ _ _ _ _ B Hk) as Hi.
    apply IndexJs_segmentid in B as (k & Hk' & ->).
    assert (k = key) by congruence; subst k.
    unfold table_get. rewrite SEGMENT_MAPPING_lookup, Hi.
    destruct (key =? "CRO")%string; [reflexivity|].
    destruct (key =? "Performance")%string; [reflexivity|].
    destruct (key =? "default_segment")%string; reflexivity.
Qed.

Lemma title_lookup_witness :
  ∃ p, RawBody.buildPayload Sample.env Sample.jane
         (VObject [("name", VString "cro")]) Sample.answers = Ret (VString "cro", p)
       ∧ segmentid p = Own default_segment.
Proof.
  eexists. split; [vm_compute; reflexivity|].
  destruct (title_lookup_is_exact Sample.env (VString "cro") "cro"
              ltac:(match eval vm_compute in
                      (RawBody.buildPayload Sample.env Sample.jane
                         (VObject [("name", VString "cro")]) Sample.answers)
                    with Ret (_, ?p) => exact p end) eq_refl) as [H _].
  apply (H Sample.jane (VObject [("name", VString "cro")]) Sample.answers).
  vm_compute. reflexivity.
Defined.

Lemma RawBody_title env invitee eventData qas title p :
  RawBody.buildPayload env invitee eventData qas = Ret (title, p) →
  RawBody.eventTitle_of eventData = Ret title.
Proof.
  unfold RawBody.buildPayload. intros H. invert_binds H. injection H as <- <-. assumption.
Qed.

Lemma IndexJs_title env data title p :
  IndexJs.buildPayload env data = Ret (title, p) →
  title = Js.GetOpt (Js.GetOpt data "event") "name".
Proof.
  unfold IndexJs.buildPayload. intros H. invert_binds H. injection H as <- <-.
  repeat match goal with K : Js.Get _ _ = Ret _ |- _ => apply Get_GetOpt in K end.
  congruence.
Qed.

(** An event whose title is the name of a member that every object
    inherits ("toString", "constructor", "__proto__", ...) is taken for a
    configured form: reading its fields throws, the request is answered 500
    and nothing is forwarded. *)
Theorem builtin_title_is_a_server_error (w : World) (env : Env) (body : value) (k : string) :
  Js.GetOpt body "event" = VString "invitee.created" →
  inherited k = true →
  (Js.GetOpt (Js.GetOpt (Js.GetOpt body "data") "event") "name" = VString k →
   ∃ e, run (IndexJs.webhook w env body) = (ServerError e, []))
  ∧ (∀ req,
     let n := RawBody.normalizeCalendlyWebhook body in
     JSON_parse w (body_text req) = Some body →
     RawBody.signature_accepted w env req = true →
     Js.Truthy (RawBody.invitee n) = true →
     Js.Truthy (RawBody.eventData n) = true →
     RawBody.eventTitle_of (RawBody.eventData n) = Ret (VString k) →
     ∃ e, run (RawBody.webhook w env req) = (ServerError e, [])).
Proof.
  intros E Hi. destruct (event_is_string _ _ E) as [props ->]. split.
  - intros Hn. rewrite IndexJs_run. cbn [Js.Get]. cbn [Js.GetOpt] in E. rewrite E.
    rewrite interpolate_string.
    change (Js.is_string (VString "invitee.created") "invitee.created") with true.
    cbn [negb].
    destruct (IndexJs.buildPayload _ _) as [[title p]|e] eqn:B; [|eauto].
    pose proof (IndexJs_title _ _ _ _ B) as Ht. rewrite Hn in Ht. subst title.
    pose proof (IndexJs_not_inherited _ _ _ _ k B eq_refl). congruence.
  - intros req n P A Ti Te Ht. rewrite RawBody_run, P, A. cbn [Js.Truthy negb]. cbv zeta.
    fold n. cbn [RawBody.normalizeCalendlyWebhook RawBody.event] in *.
    unfold n at 1 2. cbn [RawBody.normalizeCalendlyWebhook RawBody.event].
    rewrite E, interpolate_string.
    change (Js.is_string (VString "invitee.created") "invitee.created") with true.
    rewrite Ti, Te. cbn [negb orb].
    destruct (RawBody.buildPayload _ _ _ _) as [[title p]|e] eqn:B; [|eauto].
    pose proof (RawBody_title _ _ _ _ _ _ B) as Ht'. rewrite Ht in Ht'.
    injection Ht' as <-.
    pose proof (RawBody_not_inherited _ _ _ _ _ _ k B eq_refl). congruence.
Qed.

Lemma builtin_title_witness :
  ∃ e, run (IndexJs.webhook (Sample.world VNull (Resolved VNull) (Resolved VNull)) Sample.env
              (VObject [("event", VString "invitee.created");
                        ("data", VObject [("invitee", Sample.jane);
                                          ("event", VObject [("name", VString "toString")])])]))
       = (ServerError e, []).
Proof.
  eapply (builtin_title_is_a_server_error _ _ _ "toString"); reflexivity.
Defined.
(** ** The mobile number of the event-type version *)

Lemma trimStart_head (c : ascii) (r : string) :
  JsString.is_whitespace c = false → JsString.trimStart (String c r) = String c r.
Proof. intros H. cbn [JsString.trimStart]. rewrite H. reflexivity. Qed.

Lemma trimStart_shape (s : string) :
  JsString.trimStart s = ""
  ∨ ∃ c r, JsString.trimStart s = String c r ∧ JsString.is_whitespace c = false.
Proof.
  induction s as [|c r IH]; [left; reflexivity|].
  cbn [JsString.trimStart]. destruct (JsString.is_whitespace c) eqn:W; [exact IH|].
  right. eauto.
Qed.

Lemma trimEnd_idempotent (s : string) :
  JsString.trimEnd (JsString.trimEnd s) = JsString.trimEnd s.
Proof.
  induction s as [|c r IH]; [reflexivity|].
  cbn [JsString.trimEnd]. destruct (JsString.trimEnd r) as [|d t] eqn:E.
  - destruct (JsString.is_whitespace c) eqn:W; [reflexivity|].
    cbn [JsString.trimEnd]. rewrite W. reflexivity.
  - cbn [JsString.trimEnd]. cbn [JsString.trimEnd] in IH.
    destruct (match JsString.trimEnd t with
              | "" => if JsString.is_whitespace d then "" else String d ""
              | String a s0 => String d (String a s0)
              end) eqn:F; [discriminate IH|].
    rewrite IH. reflexivity.
Qed.

Lemma trim_is_trimmed (s : string) :
  JsString.trimStart (JsString.trim s) = JsString.trim s
  ∧ JsString.trimEnd (JsString.trim s) = JsString.trim s.
Proof.
  unfold JsString.trim. split; [|apply trimEnd_idempotent].
  destruct (trimStart_shape s) as [->|(c & r & -> & W)]; [reflexivity|].
  rewrite (trimEnd_keeps_head _ _ W). apply trimStart_head, W.
Qed.

Lemma replace_ws_chars (r : string) (in_run : bool) (s : string) (c : ascii) :
  JsString.has_char c (JsString.replace_ws_from r in_run s) = true →
  JsString.has_char c r = true ∨ JsString.is_whitespace c = false.
Proof.
  revert in_run. induction s as [|d s IH]; intros in_run;
    cbn [JsString.replace_ws_from]; [discriminate|].
  destruct (JsString.is_whitespace d) eqn:W.
  - destruct in_run; [apply IH|]. rewrite has_char_app. intros H.
    apply orb_prop in H as [H|H]; [left; exact H | exact (IH _ H)].
  - cbn [JsString.has_char]. intros H. apply orb_prop in H as [H|H]; [|exact (IH _ H)].
    apply Ascii.eqb_eq in H. subst c. right. exact W.
Qed.

Lemma find_mobile_none (l : list value) :
  Forall (fun q => EventType.asks_mobile q = Ret false) l →
  EventType.find_mobile l = Ret VUndefined.
Proof.
  induction 1 as [|q l Hq _ IH]; [reflexivity|].
  cbn [EventType.find_mobile]. rewrite Hq. exact IH.
Qed.

Lemma find_mobile_first (l1 l2 : list value) (q : value) :
  Forall (fun q => EventType.asks_mobile q = Ret false) l1 →
  EventType.asks_mobile q = Ret true →
  EventType.find_mobile (l1 ++ q :: l2) = Ret q.
Proof.
  intros H Hq. induction H as [|x l Hx _ IH]; cbn [app EventType.find_mobile].
  - rewrite Hq. reflexivity.
  - rewrite Hx. exact IH.
Qed.

(** The mobile number is the answer of the first entry whose question
    contains "mobile" in any letter case, with every run of whitespace
    turned into one space and the ends trimmed; it is the empty string when
    no entry asks for it. Whatever is returned is a string without leading or
    trailing whitespace in which the only whitespace is the plain space. A
    [questions_and_answers] that is no array makes the computation throw. *)
Theorem mobile_is_normalized :
  (∀ qas v,
     EventType.mobile_of qas = Ret v →
     ∃ m, v = VString m
          ∧ JsString.trimStart m = m ∧ JsString.trimEnd m = m
          ∧ ∀ c, JsString.has_char c m = true → JsString.is_whitespace c = true →
                 c = " "%char)
  ∧ (∀ l, Forall (fun q => EventType.asks_mobile q = Ret false) l →
          EventType.mobile_of (VArray l) = Ret (VString ""))
  ∧ (∀ l1 l2 props s a,
       Forall (fun q => EventType.asks_mobile q = Ret false) l1 →
       Js.own props "question" = VString s →
       JsString.includes (JsString.toLowerCase s) "mobile" = true →
       Js.own props "answer" = VString a →
       EventType.mobile_of (VArray (l1 ++ VObject props :: l2))
       = Ret (VString (JsString.trim (JsString.replace_ws " " a))))
  ∧ (∀ v, (∀ l, v ≠ VArray l) → EventType.mobile_of v = Throw TypeError).
Proof.
  split; [|split; [|split]].
  - intros qas v. unfold EventType.mobile_of.
    destruct qas as [| | | | |l|]; try discriminate.
    destruct (EventType.find_mobile l) as [found|]; [|discriminate].
    cbn [mbind outcome_bind].
    destruct (Js.or _ _) as [| | | |s| |]; try discriminate.
    intros [= <-]. eexists. split; [reflexivity|].
    destruct (trim_is_trimmed (JsString.replace_ws " " s)) as [H1 H2].
    split; [exact H1|]. split; [exact H2|].
    intros c Hc W.
    unfold JsString.trim in Hc.
    apply has_char_trimEnd, has_char_trimStart, replace_ws_chars in Hc.
    destruct Hc as [Hc|Hc]; [|congruence].
    cbn [JsString.has_char] in Hc. rewrite orb_false_r in Hc.
    apply Ascii.eqb_eq in Hc. congruence.
  - intros l H. unfold EventType.mobile_of. rewrite (find_mobile_none l H). reflexivity.
  - intros l1 l2 props s a H Q M A. unfold EventType.mobile_of.
    rewrite (find_mobile_first l1 l2 (VObject props) H).
    + cbn [mbind outcome_bind Js.GetOpt]. rewrite A, or_string_empty. reflexivity.
    + unfold EventType.asks_mobile. cbn [Js.Get mbind outcome_bind].
      rewrite Q, or_string_empty, M. reflexivity.
  - intros v H. destruct v; try reflexivity. exfalso. exact (H _ eq_refl).
Qed.

Lemma mobile_is_normalized_witness :
  EventType.mobile_of
    (VArray ([VObject [("question", VString "City"); ("answer", VString "Austin")]]
             ++ VObject [("question", VString "Your MOBILE number");
                         ("answer", VString "  +1  512   555 0100 ")] :: []))
  = Ret (VString "+1 512 555 0100").
Proof.
  destruct mobile_is_normalized as (_ & _ & H & _).
  apply (H _ _ _ "Your MOBILE number" "  +1  512   555 0100 ");
    [repeat constructor | reflexivity..].
Defined.
(** ** The metadata list of [index.js] *)

Lemma IndexJs_push_spec (qas : list value) (ps : list meta) :
  IndexJs.push_answers qas = Ret ps →
  Forall text_question qas ∧ ps = map raw_entry_of (List.filter kept_by_index qas).
Proof.
  revert ps. induction qas as [|qa qas IH]; intros ps.
  - intros [= <-]. split; [constructor | reflexivity].
  - cbn [IndexJs.push_answers]. intros H. invert_bind H. apply Get_GetOpt in Ha. subst a.
    destruct (Js.GetOpt qa "question") as [| | | |s| |] eqn:Q; try discriminate H.
    cbn [List.filter]. unfold kept_by_index at 1, question_of. rewrite Q.
    destruct (negb (Js.includes_value skipFields (VString s))).
    + invert_bind H. apply Get_GetOpt in Ha. subst a. invert_bind H. injection H as <-.
      destruct (IH _ Ha) as [F ->]. split.
      * constructor; [exists s; exact Q | exact F].
      * cbn [List.map]. f_equal. unfold raw_entry_of, question_of, answer_of.
        rewrite Q. reflexivity.
    + destruct (IH _ H) as [F ->]. split; [|reflexivity].
      constructor; [exists s; exact Q | exact F].
Qed.

Lemma IndexJs_otherparams env data title p :
  IndexJs.buildPayload env data = Ret (title, p) →
  ∃ l,
    Js.or (Js.GetOpt (Js.GetOpt data "payload") "questions_and_answers") (VArray []) = VArray l
    ∧ Forall text_question l
    ∧ otherparams p
      = (map raw_entry_of (List.filter kept_by_index l)
         ++ [ {| meta_key := "Segment_Name"; meta_value := title |};
              {| meta_key := "Scheduled_Time";
                 meta_value := Js.GetOpt (Js.GetOpt data "event") "start_time" |};
              {| meta_key := "Timezone";
                 meta_value := Js.GetOpt (Js.GetOpt data "invitee") "timezone" |} ])%list.
Proof.
  unfold IndexJs.buildPayload. intros H. invert_binds H. injection H as <- <-.
  repeat match goal with K : Js.Get _ _ = Ret _ |- _ => apply Get_GetOpt in K end.
  subst.
  match goal with K : IndexJs.forEach_items ?x = Ret ?l |- _ =>
    destruct x as [| | | | |l'|] eqn:X; try discriminate K; injection K as <- end.
  match goal with K : IndexJs.push_answers _ = Ret _ |- _ =>
    apply IndexJs_push_spec in K as [F ->] end.
  exists l'. split; [reflexivity|]. split; [exact F | reflexivity].
Qed.

(** What [index.js] forwards: one entry for each entry of the answers
    other than the city and address questions, in the order of the input,
    keyed by the question with whitespace runs replaced by underscores and
    carrying the answer unchanged ([null] stays [null]); then the three fixed
    entries Segment_Name, Scheduled_Time, Timezone. It forwards only when the
    answers are an array (or missing) and every entry has a text question. *)
Theorem index_js_otherparams (w : World) (env : Env) (body : value)
    (url : option string) (p : teleforcePayload) :
  In (POST url p) (snd (run (IndexJs.webhook w env body))) →
  let data := Js.GetOpt body "data" in
  ∃ l title,
    Js.or (Js.GetOpt (Js.GetOpt data "payload") "questions_and_answers") (VArray []) = VArray l
    ∧ Forall text_question l
    ∧ otherparams p
      = (map raw_entry_of (List.filter kept_by_index l)
         ++ [ {| meta_key := "Segment_Name"; meta_value := title |};
              {| meta_key := "Scheduled_Time";
                 meta_value := Js.GetOpt (Js.GetOpt data "event") "start_time" |};
              {| meta_key := "Timezone";
                 meta_value := Js.GetOpt (Js.GetOpt data "invitee") "timezone" |} ])%list.
Proof.
  intros H data. apply IndexJs_posts_built_payload in H as (title & B).
  apply IndexJs_otherparams in B as (l & E & F & O). exists l, title. auto.
Qed.

Lemma index_js_otherparams_witness :
  ∃ p l title,
    Forall text_question l
    ∧ otherparams p
      = (map raw_entry_of (List.filter kept_by_index l)
         ++ [ {| meta_key := "Segment_Name"; meta_value := title |};
              {| meta_key := "Scheduled_Time"; meta_value := VString "2024-01-01T10:00:00Z" |};
              {| meta_key := "Timezone"; meta_value := VString "America/Chicago" |} ])%list.
Proof.
  eexists.
  edestruct (index_js_otherparams
               (Sample.world Sample.legacy (Resolved VNull) (Resolved VNull))
               Sample.env Sample.legacy) as (l & title & _ & F & O).
  - vm_compute. left. reflexivity.
  - exists l, title. split; [exact F | exact O].
Defined.

(** In [index.js] an entry without a text question is not skipped: the
    request is answered 500 and nothing is forwarded. *)
Theorem index_js_needs_text_questions (w : World) (env : Env) (body : value)
    (l : list value) (qa : value) :
  Js.GetOpt body "event" = VString "invitee.created" →
  Js.GetOpt (Js.GetOpt (Js.GetOpt body "data") "payload") "questions_and_answers" = VArray l →
  In qa l →
  (∀ s, question_of qa ≠ VString s) →
  ∃ e, run (IndexJs.webhook w env body) = (ServerError e, []).
Proof.
  intros E Q I N. destruct (event_is_string _ _ E) as [props ->].
  rewrite IndexJs_run. cbn [Js.Get]. cbn [Js.GetOpt] in E. rewrite E, interpolate_string.
  change (Js.is_string (VString "invitee.created") "invitee.created") with true.
  cbn [negb].
  destruct (IndexJs.buildPayload _ _) as [[title p]|e] eqn:B; [|eauto].
  apply IndexJs_otherparams in B as (l' & E' & F & _).
  rewrite Q in E'. rewrite or_truthy in E' by reflexivity. injection E' as <-.
  rewrite Forall_forall in F. destruct (F qa) as [s Hs].
  - apply list_elem_of_In. exact I.
  - exfalso. exact (N s Hs).
Qed.

Lemma index_js_needs_text_witness :
  ∃ e, run (IndexJs.webhook (Sample.world VNull (Resolved VNull) (Resolved VNull)) Sample.env
              (VObject [("event", VString "invitee.created");
                        ("data",
                         VObject [("invitee", Sample.jane); ("event", Sample.cro_event);
                                  ("payload",
                                   VObject [("questions_and_answers",
                                             VArray [VObject [("answer", VString "orphan")]])])])]))
       = (ServerError e, []).
Proof.
  eapply (index_js_needs_text_questions _ _ _ _ (VObject [("answer", VString "orphan")]));
    [reflexivity | reflexivity | left; reflexivity | discriminate].
Defined.
(** ** Registering the webhook *)

(** Without a [url] (and, in the raw-body version, without an
    [organization]) the registration is refused with 400 and Calendly is not
    called. Otherwise Calendly is called at most once, for the event
    [invitee.created] only, with the URL as given and, in the raw-body
    version, the scope "organization" unless another is given; its answer is
    passed on with 200, and its refusal is answered 500 with the error it
    gave. *)
Theorem registration_is_checked_and_relayed
    (post : Register.subscription → option string → http_result) (env : Env)
    (q : Register.query) :
  (Js.Truthy (Register.query_url q) = false →
   snd (Register.register_index post env q) = []
   ∧ Register.register_index post env q
     = (Json 400 (VObject [("error", VString "URL parameter required")]), []))
  ∧ (Js.Truthy (Register.query_url q) = false
     ∨ Js.Truthy (Register.query_organization q) = false →
     snd (Register.register_raw post env q) = []
     ∧ status_of (fst (Register.register_raw post env q)) = 400)
  ∧ (∀ s, In s (snd (Register.register_index post env q)) →
       snd (Register.register_index post env q) = [s]
       ∧ Register.url s = Register.query_url q
       ∧ Register.events s = ["invitee.created"]
       ∧ fst (Register.register_index post env q)
         = match post s (CALENDLY_ACCESS_TOKEN env) with
           | Resolved data => Register.registered data
           | Rejected d => ServerError (AxiosError d)
           end)
  ∧ (∀ s, In s (snd (Register.register_raw post env q)) →
       snd (Register.register_raw post env q) = [s]
       ∧ Register.url s = Register.query_url q
       ∧ Register.events s = ["invitee.created"]
       ∧ Register.organization s = Some (Register.query_organization q)
       ∧ Register.scope s
         = Some (if Js.Truthy (Register.query_scope q) then Register.query_scope q
                 else VString "organization")
       ∧ fst (Register.register_raw post env q)
         = match post s (CALENDLY_ACCESS_TOKEN env) with
           | Resolved data => Register.registered data
           | Rejected d => ServerError (AxiosError d)
           end).
Proof.
  split; [|split; [|split]].
  - intros H. unfold Register.register_index. rewrite H. split; reflexivity.
  - intros H. unfold Register.register_raw.
    assert (E : negb (Js.Truthy (Register.query_url q))
                || negb (Js.Truthy (Register.query_organization q)) = true).
    { destruct H as [->| ->]; [reflexivity | apply orb_true_r]. }
    rewrite E. split; reflexivity.
  - intros s. unfold Register.register_index.
    destruct (negb _); [intros []|].
    destruct (Js.interpolate _); [|intros []].
    unfold Register.submit. destruct (post _ _) eqn:P; cbn [snd fst];
      intros [<-|[]]; rewrite P; repeat split.
  - intros s. unfold Register.register_raw.
    destruct (_ || _); [intros []|].
    destruct (_ ≫= _); [|intros []].
    unfold Register.submit. destruct (post _ _) eqn:P; cbn [snd fst];
      intros [<-|[]]; rewrite P; repeat split.
Qed.

Lemma registration_witness :
  snd (Register.register_raw (fun _ _ => Resolved VNull) Sample.env
         {| Register.query_url := VString "https://svc.example/api/webhook";
            Register.query_organization := VUndefined;
            Register.query_scope := VUndefined |}) = []
  ∧ status_of (fst (Register.register_raw (fun _ _ => Resolved VNull) Sample.env
                      {| Register.query_url := VString "https://svc.example/api/webhook";
                         Register.query_organization := VUndefined;
                         Register.query_scope := VUndefined |})) = 400.
Proof.
  apply (registration_is_checked_and_relayed (fun _ _ => Resolved VNull) Sample.env
           {| Register.query_url := VString "https://svc.example/api/webhook";
              Register.query_organization := VUndefined;
              Register.query_scope := VUndefined |}).
  right. reflexivity.
Defined.
(** ** The segment of a forwarded lead *)

Lemma resolveSegment_ids (name : value) (seg : EventType.segment) :
  EventType.resolveSegment name = Ret seg →
  In (EventType.segmentId seg) [Own CRO_segment; Own Performance_segment; Own default_segment].
Proof.
  destruct (Js.Truthy name) eqn:T.
  - destruct name as [| | | |s| |];
      try (unfold EventType.resolveSegment; rewrite (or_truthy _ _ T); discriminate).
    rewrite resolveSegment_string. cbv zeta.
    destruct (JsString.includes _ "cro"); [|destruct (JsString.includes _ "performance")];
      intros [= <-]; cbn [EventType.segmentId In]; auto.
  - rewrite (resolveSegment_falsy _ T). intros [= <-]. cbn [EventType.segmentId In]. auto.
Qed.

(** The segment id of every lead that the raw-body and the event-type
    version forward is one of the three ids of [SEGMENT_MAPPING]; [index.js]
    may also forward the empty id. No other value is ever sent. *)
Theorem forwarded_segment_is_configured (w : World) (env : Env)
    (url : option string) (p : teleforcePayload) :
  (∀ req, In (POST url p) (snd (run (EventType.webhook w env req))) →
     In (segmentid p) [Own CRO_segment; Own Performance_segment; Own default_segment])
  ∧ (∀ req, In (POST url p) (snd (run (RawBody.webhook w env req))) →
     In (segmentid p) [Own CRO_segment; Own Performance_segment; Own default_segment])
  ∧ (∀ body, In (POST url p) (snd (run (IndexJs.webhook w env body))) →
     In (segmentid p)
        [Own CRO_segment; Own Performance_segment; Own default_segment; Own ""]).
Proof.
  split; [|split].
  - intros req H.
    apply EventType_posts_built_payload in H as (body & c & nm & seg & _ & _ & B).
    apply EventType_segmentid in B as [R ->]. exact (resolveSegment_ids _ _ R).
  - intros req H. apply RawBody_posts_built_payload in H as (body & title & _ & B).
    cbv zeta in B. pose proof B as B'.
    apply RawBody_segmentid in B as (k & Hk & -> & _).
    pose proof (RawBody_not_inherited _ _ _ _ _ _ _ B' Hk) as Hi.
    unfold table_get. rewrite SEGMENT_MAPPING_lookup, Hi.
    destruct (k =? "CRO")%string; [cbn; auto|].
    destruct (k =? "Performance")%string; [cbn; auto|].
    destruct (k =? "default_segment")%string; cbn; auto.
  - intros body H. apply IndexJs_posts_built_payload in H as (title & B). pose proof B as B'.
    apply IndexJs_segmentid in B as (k & Hk & ->).
    pose proof (IndexJs_not_inherited _ _ _ _ _ B' Hk) as Hi.
    unfold table_get. rewrite SEGMENT_MAPPING_lookup, Hi.
    destruct (k =? "CRO")%string; [cbn; auto|].
    destruct (k =? "Performance")%string; [cbn; auto|].
    destruct (k =? "default_segment")%string; cbn; auto 6.
Qed.

Lemma forwarded_segment_witness :
  ∃ p, In (segmentid p) [Own CRO_segment; Own Performance_segment; Own default_segment].
Proof.
  eexists.
  destruct (forwarded_segment_is_configured
              Sample.lookup_up Sample.env (TELEFORCE_API_URL Sample.env)
              ltac:(match eval vm_compute in
                      (snd (run (EventType.webhook Sample.lookup_up Sample.env Sample.request)))
                    with [_; POST _ ?p] => exact p end)) as (H & _).
  apply (H Sample.request). vm_compute. right. left. reflexivity.
Defined.

(** ** Answers the event-type version cannot read *)

Lemma EventType_contact_failure (w : World) (env : Env) (req : raw_request)
    (body : value) (e : exn) :
  let n := EventType.normalizeCalendlyWebhook body in
  JSON_parse w (body_text req) = Some body →
  Js.GetOpt body "event" = VString "invitee.created" →
  Js.Truthy (EventType.invitee n) = true →
  Js.Truthy (EventType.eventData n) = true →
  EventType.contact_of (EventType.invitee n) (EventType.questionsAnswers n) = Throw e →
  run (EventType.webhook w env req) = (ServerError e, []).
Proof.
  intros n P E Ti Te C. destruct (event_is_string _ _ E) as [props ->].
  rewrite EventType_run, P. cbn [Js.Truthy negb]. cbv zeta. fold n.
  replace (EventType.event n) with (VString "invitee.created") by (symmetry; exact E).
  rewrite interpolate_string.
  change (Js.is_string (VString "invitee.created") "invitee.created") with true.
  rewrite Ti, Te, C. reflexivity.
Qed.

(** The event-type version looks for the mobile number before anything
    else and without the guards of the later loops: answers that are not an
    array, a [null] entry met before a mobile question, and a mobile answer
    that is neither text nor falsy each make a booking fail with 500, before
    any lookup or forward. *)
Theorem unreadable_answers_fail_the_booking (w : World) (env : Env) (req : raw_request)
    (body : value) :
  let n := EventType.normalizeCalendlyWebhook body in
  JSON_parse w (body_text req) = Some body →
  Js.GetOpt body "event" = VString "invitee.created" →
  Js.Truthy (EventType.invitee n) = true →
  Js.Truthy (EventType.eventData n) = true →
  ((∀ l, EventType.questionsAnswers n ≠ VArray l)
   ∨ (∃ l1 l2, EventType.questionsAnswers n = VArray (l1 ++ VNull :: l2)
               ∧ Forall (fun q => EventType.asks_mobile q = Ret false) l1)
   ∨ (∃ l1 l2 q, EventType.questionsAnswers n = VArray (l1 ++ q :: l2)
                 ∧ Forall (fun q => EventType.asks_mobile q = Ret false) l1
                 ∧ EventType.asks_mobile q = Ret true
                 ∧ Js.Truthy (answer_of q) = true
                 ∧ ∀ s, answer_of q ≠ VString s)) →
  run (EventType.webhook w env req) = (ServerError TypeError, []).
Proof.
  intros n P E Ti Te H. apply (EventType_contact_failure w env req body TypeError P E Ti Te).
  fold n. unfold EventType.contact_of.
  assert (G : ∃ v, Js.Get (EventType.invitee n) "name" = Ret v
                   ∧ ∃ v', Js.Get (EventType.invitee n) "email" = Ret v').
  { destruct (EventType.invitee n); try discriminate Ti; cbn [Js.Get]; eauto. }
  destruct G as (v & -> & v' & ->). cbn [mbind outcome_bind].
  assert (M : EventType.mobile_of (EventType.questionsAnswers n) = Throw TypeError);
    [|rewrite M; reflexivity].
  destruct H as [H|[(l1 & l2 & -> & F)|(l1 & l2 & q & -> & F & A & T & N)]].
  - destruct (EventType.questionsAnswers n); try reflexivity. exfalso. exact (H _ eq_refl).
  - unfold EventType.mobile_of.
    assert (X : EventType.find_mobile (l1 ++ VNull :: l2) = Throw TypeError).
    { induction F as [|x l Hx _ IH]; cbn [app EventType.find_mobile]; [reflexivity|].
      rewrite Hx. exact IH. }
    rewrite X. reflexivity.
  - unfold EventType.mobile_of. rewrite (find_mobile_first l1 l2 q F A).
    cbn [mbind outcome_bind]. unfold answer_of in T, N. rewrite (or_truthy _ _ T).
    destruct (Js.GetOpt q "answer"); try reflexivity. exfalso. exact (N _ eq_refl).
Qed.

Lemma unreadable_answers_witness :
  run (EventType.webhook
         (Sample.world
            (VObject [("event", VString "invitee.created");
                      ("payload",
                       VObject [("name", VString "Jane Doe");
                                ("questions_and_answers",
                                 VArray ([] ++ VNull :: []));
                                ("scheduled_event", Sample.cro_event)])])
            (Resolved VNull) (Resolved VNull))
         Sample.env Sample.request)
  = (ServerError TypeError, []).
Proof.
  eapply unreadable_answers_fail_the_booking; try reflexivity.
  right. left. exists [], []. split; [reflexivity | constructor].
Defined.
(** * Bookings that are forwarded *)

(** ** Values that print *)

Lemma scalar_prints (v : value) : scalar v = true → ∃ s, Js.ToString v = Ret s.
Proof. destruct v as [| |[|]| | | |]; try discriminate; cbn [Js.ToString]; eauto. Qed.

Lemma scalar_nonblank (v : value) : scalar v = true → ∃ b, Js.nonblank v = Ret b.
Proof.
  intros H. unfold Js.nonblank. destruct (Js.nullish v); [eauto|].
  destruct (scalar_prints v H) as [s ->]. cbn [mbind outcome_bind]. eauto.
Qed.

Lemma scalar_interpolates (v : value) : scalar v = true → Js.interpolate v = Ret tt.
Proof.
  intros H. unfold Js.interpolate. destruct (scalar_prints v H) as [s ->]. reflexivity.
Qed.

Lemma scalar_or (a b : value) : scalar a = true → scalar b = true → scalar (Js.or a b) = true.
Proof. unfold Js.or. destruct (Js.Truthy a); auto. Qed.

Lemma text_is_scalar (v : value) : text_or_missing v = true → scalar v = true.
Proof. destruct v; try discriminate; reflexivity. Qed.

Lemma Get_truthy (o : value) (k : string) :
  Js.Truthy o = true → Js.Get o k = Ret (Js.GetOpt o k).
Proof. destruct o; try discriminate; reflexivity. Qed.

Lemma Get_present (o : value) (k : string) :
  Js.nullish o = false → Js.Get o k = Ret (Js.GetOpt o k).
Proof. destruct o; try discriminate; reflexivity. Qed.

Lemma has_property (o : value) (k : string) (s : string) :
  Js.GetOpt o k = VString s → Js.Truthy o = true.
Proof. destruct o; try discriminate; reflexivity. Qed.

(** ** The form answers of a well-formed sequence *)

Lemma scalar_answers_empty : scalar_answers FormAnswers.empty.
Proof.
  split.
  - intros k v H. cbn [FormAnswers.empty FormAnswers.props] in H.
    rewrite lookup_empty in H. discriminate.
  - intros v. discriminate.
Qed.

Lemma scalar_answers_set (fa : FormAnswers.t) (k : string) (v : value) :
  scalar_answers fa → scalar v = true → scalar_answers (FormAnswers.set fa k v).
Proof.
  intros [Hp Hq] Hv. unfold FormAnswers.set.
  destruct ((k =? "__proto__")%string && FormAnswers.reaches_proto_setter fa).
  - destruct v; try discriminate Hv; try (split; assumption).
    split; [exact Hp | intros v; discriminate].
  - split.
    + intros k' v'. cbn [FormAnswers.define FormAnswers.props]. intros H.
      apply lookup_insert_Some in H as [[_ <-]|[_ H]]; [exact Hv | exact (Hp _ _ H)].
    + exact Hq.
Qed.

Lemma scalar_answers_get (fa : FormAnswers.t) (k : string) :
  scalar_answers fa → scalar (FormAnswers.get fa k) = true.
Proof.
  intros [Hp Hq]. unfold FormAnswers.get.
  destruct (FormAnswers.props fa !! k) as [v|] eqn:E; [exact (Hp _ _ E)|].
  destruct (FormAnswers.prototype fa) as [| |v] eqn:P; try reflexivity.
  exfalso. exact (Hq v eq_refl).
Qed.

Lemma collect_form_entries (l : list value) (fa : FormAnswers.t) :
  Forall form_entry l → scalar_answers fa →
  ∃ fa', RawBody.collect_answers fa l = Ret fa' ∧ scalar_answers fa'.
Proof.
  intros H. revert fa. induction H as [|qa l Hq _ IH]; intros fa Hfa.
  - exists fa. split; [reflexivity | exact Hfa].
  - cbn [RawBody.collect_answers]. unfold form_entry, question_of in Hq.
    destruct (Js.Truthy (Js.GetOpt qa "question")) eqn:T; [|exact (IH fa Hfa)].
    destruct Hq as [Hq|[[s Q] A]]; [discriminate Hq|].
    rewrite (truthy_question_object qa T), Q. cbn [mbind outcome_bind Js.ToString].
    apply IH. apply scalar_answers_set; assumption.
Qed.

Lemma pickFirst_scalar (fa : FormAnswers.t) (keys : list string) :
  scalar_answers fa → ∃ v, RawBody.pickFirst fa keys = Ret v.
Proof.
  intros H. apply pickFirst_total. intros k _.
  apply scalar_nonblank, scalar_answers_get, H.
Qed.

Lemma RawBody_standard_field_returns (key : string) field generic (fa : FormAnswers.t) :
  inherited key = false → scalar_answers fa →
  ∃ v, RawBody.standard_field (table_get FORM_MAPPINGS key) field generic fa = Ret v.
Proof.
  intros Hi Hfa. unfold RawBody.standard_field, table_get. rewrite Hi.
  destruct (FORM_MAPPINGS !! key); apply pickFirst_scalar, Hfa.
Qed.

Lemma EventType_standard_field_returns (key : string) field generic (fa : FormAnswers.t) :
  inherited key = false → scalar_answers fa →
  ∃ v, EventType.standard_field (table_get FORM_MAPPINGS key) field generic fa = Ret v.
Proof.
  intros Hi Hfa. unfold EventType.standard_field, table_get. rewrite Hi.
  destruct (FORM_MAPPINGS !! key); rewrite pickFirst_same; apply pickFirst_scalar, Hfa.
Qed.

Lemma form_entries_kept_but_standard (l : list value) :
  Forall form_entry l → Forall (has_text_question kept_but_standard) l.
Proof.
  intros F. eapply Forall_impl; [exact F|]. intros qa H K. unfold kept_but_standard in K.
  apply andb_prop in K as [K _]. destruct H as [H|[H _]]; [congruence | exact H].
Qed.

Lemma form_entries_kept_all (l : list value) :
  Forall form_entry l → Forall (has_text_question kept_all) l.
Proof.
  intros F. eapply Forall_impl; [exact F|]. intros qa H K. unfold kept_all in K.
  destruct H as [H|[H _]]; [congruence | exact H].
Qed.

Lemma text_entries_are_form_entries (l : list value) :
  Forall text_entry l → Forall form_entry l.
Proof.
  intros F. eapply Forall_impl; [exact F|]. intros qa (_ & [Q|Q] & A); [left; exact Q|].
  right. split; [exact Q | exact (text_is_scalar _ A)].
Qed.

(** The keys under which the handlers read [formAnswers] are no names of
    inherited members. *)
Lemma read_keys_not_inherited (k : string) (c : FormConfig) :
  table_get FORM_MAPPINGS k = Some (Own c) →
  Forall (fun key => inherited key = false)
    (city_keys (standardFields c) ++ address_keys (standardFields c)
     ++ ["City"; "city"; "Address"; "address"]).
Proof.
  intros H. destruct (FORM_MAPPINGS_lists _ _ H) as [-> ->].
  repeat (constructor; [reflexivity|]). constructor.
Qed.

(** ** The name of the invitee *)

Lemma fullName_returns (invitee : value) :
  Js.Truthy invitee = true → named_invitee invitee →
  ∃ v, RawBody.fullName_of invitee = Ret v.
Proof.
  intros T H. unfold RawBody.fullName_of. rewrite !(Get_truthy _ _ T).
  cbn [mbind outcome_bind].
  destruct (Js.Truthy (Js.GetOpt invitee "name")) eqn:N; [eauto|].
  destruct H as [H|[F L]]; [congruence|].
  destruct (scalar_prints _ F) as [f Ef], (scalar_prints _ L) as [l El].
  unfold Js.join. cbn [List.filter].
  destruct (Js.Truthy (Js.GetOpt invitee "first_name")) eqn:TF,
           (Js.Truthy (Js.GetOpt invitee "last_name")) eqn:TL;
    cbn [Js.join_strings];
    repeat match goal with
           | |- context [Js.nullish ?x] =>
               destruct (Js.nullish x) eqn:?; cbn [mbind outcome_bind]
           end;
    rewrite ?Ef, ?El; cbn [mbind outcome_bind]; eauto.
Qed.

(** ** The raw-body version forwards a booking *)

Lemma RawBody_builds (env : Env) (invitee eventData qas : value) (t : string) :
  Js.Truthy invitee = true → named_invitee invitee →
  Js.GetOpt eventData "name" = VString t → t ≠ "" → inherited t = false →
  Forall form_entry (RawBody.array_items qas) →
  ∃ p, RawBody.buildPayload env invitee eventData qas = Ret (VString t, p)
       ∧ RawBody.fullName_of invitee = Ret (name p)
       ∧ otherparams p
         = (map entry_of (List.filter kept_but_standard (RawBody.array_items qas))
            ++ [ {| meta_key := "Calendly_Event_Title"; meta_value := VString t |};
                 {| meta_key := "Calendly_Event_Start";
                    meta_value := Js.or (Js.GetOpt eventData "start_time") (VString "") |};
                 {| meta_key := "Calendly_Invitee_Email";
                    meta_value := Js.or (Js.GetOpt invitee "email") (VString "") |};
                 {| meta_key := "Calendly_Invitee_Timezone";
                    meta_value := Js.or (Js.GetOpt invitee "timezone") (VString "") |} ])%list.
Proof.
  intros Ti Hn Ht Ne Hi Hq.
  pose proof (has_property _ _ _ Ht) as Te.
  assert (Tt : Js.Truthy (VString t) = true) by (apply Truthy_string; exact Ne).
  unfold RawBody.buildPayload, RawBody.eventTitle_of.
  rewrite !(Get_truthy _ _ Te), !(Get_truthy _ _ Ti), Ht. cbn [mbind outcome_bind].
  rewrite (or_truthy (VString t) _ Tt), (or_truthy (VString t) _ Tt).
  cbn [Js.ToString mbind outcome_bind].
  destruct (collect_form_entries _ FormAnswers.empty Hq scalar_answers_empty) as (fa & -> & Hfa).
  cbn [mbind outcome_bind].
  destruct (fullName_returns invitee Ti Hn) as [fullName ->]. cbn [mbind outcome_bind].
  destruct (RawBody_standard_field_returns t city_keys ["City"; "city"] fa Hi Hfa) as [c ->].
  destruct (RawBody_standard_field_returns t address_keys ["Address"; "address"] fa Hi Hfa)
    as [a ->].
  cbn [mbind outcome_bind].
  rewrite (RawBody_push_total _ (form_entries_kept_but_standard _ Hq)).
  cbn [mbind outcome_bind].
  eexists. split; [reflexivity|]. split; reflexivity.
Qed.

Lemma RawBody_forwards (w : World) (env : Env) (req : raw_request) (body : value) (t : string) :
  let n := RawBody.normalizeCalendlyWebhook body in
  JSON_parse w (body_text req) = Some body →
  RawBody.signature_accepted w env req = true →
  raw_booking body t →
  ∃ p, run (RawBody.webhook w env req)
       = (match axios_post w (TELEFORCE_API_URL env) p with
          | Resolved _ => LeadSent "segment" (VString t) (Some (segmentid p))
          | Rejected d => ServerError (AxiosError d)
          end, [POST (TELEFORCE_API_URL env) p])
       ∧ RawBody.buildPayload env (RawBody.invitee n) (RawBody.eventData n)
           (RawBody.questionsAnswers n) = Ret (VString t, p)
       ∧ RawBody.fullName_of (RawBody.invitee n) = Ret (name p)
       ∧ otherparams p
         = (map entry_of
              (List.filter kept_but_standard (RawBody.array_items (RawBody.questionsAnswers n)))
            ++ [ {| meta_key := "Calendly_Event_Title"; meta_value := VString t |};
                 {| meta_key := "Calendly_Event_Start";
                    meta_value :=
                      Js.or (Js.GetOpt (RawBody.eventData n) "start_time") (VString "") |};
                 {| meta_key := "Calendly_Invitee_Email";
                    meta_value := Js.or (Js.GetOpt (RawBody.invitee n) "email") (VString "") |};
                 {| meta_key := "Calendly_Invitee_Timezone";
                    meta_value :=
                      Js.or (Js.GetOpt (RawBody.invitee n) "timezone") (VString "") |} ])%list.
Proof.
  intros n P S (E & Ti & Hn & Ht & Ne & Hi & Hq). fold n in E, Ti, Hn, Ht, Hq.
  destruct (RawBody_builds env _ _ _ t Ti Hn Ht Ne Hi Hq) as (p & B & N & O).
  exists p. split; [|split; [exact B | split; [exact N | exact O]]].
  destruct (event_is_string body "invitee.created" E) as [props ->].
  rewrite RawBody_run, P, S. cbn [Js.Truthy negb]. cbv zeta. fold n.
  rewrite E, interpolate_string.
  change (Js.is_string (VString "invitee.created") "invitee.created") with true.
  rewrite Ti, (has_property _ _ _ Ht). cbn [negb orb]. rewrite B.
  destruct (axios_post w (TELEFORCE_API_URL env) p); reflexivity.
Qed.

(** ** The event-type version forwards a booking *)

Lemma resolveSegment_key (name : value) (seg : EventType.segment) :
  EventType.resolveSegment name = Ret seg →
  In (EventType.segmentKey seg) ["CRO"; "Performance"; "default_segment"].
Proof.
  destruct (Js.Truthy name) eqn:T.
  - destruct name as [| | | |s| |];
      try (unfold EventType.resolveSegment; rewrite (or_truthy _ _ T); discriminate).
    rewrite resolveSegment_string. cbv zeta.
    destruct (JsString.includes _ "cro"); [|destruct (JsString.includes _ "performance")];
      intros [= <-]; cbn [EventType.segmentKey In]; auto.
  - rewrite (resolveSegment_falsy _ T). intros [= <-]. cbn [EventType.segmentKey In]. auto.
Qed.

Lemma resolveSegment_text (name : value) :
  Js.Truthy name = false ∨ (∃ s, name = VString s) →
  ∃ seg, EventType.resolveSegment name = Ret seg.
Proof.
  intros [H|[s ->]]; [rewrite (resolveSegment_falsy _ H) | rewrite resolveSegment_string]; eauto.
Qed.

Lemma EventType_builds (env : Env) (c : EventType.contact) (eventData qas name : value)
    (seg : EventType.segment) :
  Js.Truthy eventData = true →
  Forall form_entry (EventType.array_items qas) →
  EventType.resolveSegment name = Ret seg →
  ∃ p, EventType.buildPayload env c eventData qas name = Ret (seg, p)
       ∧ otherparams p
         = (map entry_of (List.filter kept_all (EventType.array_items qas))
            ++ [ {| meta_key := "Calendly_EventType_Name";
                    meta_value := Js.or name (VString "") |};
                 {| meta_key := "Calendly_ScheduledEvent_URI";
                    meta_value := Js.or (Js.GetOpt eventData "uri") (VString "") |};
                 {| meta_key := "Calendly_Scheduled_Start";
                    meta_value := Js.or (Js.GetOpt eventData "start_time") (VString "") |};
                 {| meta_key := "Calendly_Scheduled_End";
                    meta_value := Js.or (Js.GetOpt eventData "end_time") (VString "") |} ])%list.
Proof.
  intros Te Hq R.
  assert (Hi : inherited (EventType.segmentKey seg) = false).
  { destruct (resolveSegment_key _ _ R) as [<-|[<-|[<-|[]]]]; reflexivity. }
  unfold EventType.buildPayload. rewrite R, !(Get_truthy _ _ Te). cbn [mbind outcome_bind].
  rewrite collect_answers_same.
  destruct (collect_form_entries _ FormAnswers.empty Hq scalar_answers_empty) as (fa & -> & Hfa).
  cbn [mbind outcome_bind].
  destruct (EventType_standard_field_returns _ city_keys ["City"; "city"] fa Hi Hfa) as [ct ->].
  destruct (EventType_standard_field_returns _ address_keys ["Address"; "address"] fa Hi Hfa)
    as [a ->].
  cbn [mbind outcome_bind].
  rewrite (EventType_push_total _ (form_entries_kept_all _ Hq)). cbn [mbind outcome_bind].
  eexists. split; reflexivity.
Qed.

Lemma standard_field_default (key : string) field generic (fa : FormAnswers.t) (v : value) :
  In key ["CRO"; "Performance"; "default_segment"] →
  (∀ c, table_get FORM_MAPPINGS key = Some (Own c) → field (standardFields c) = generic) →
  EventType.standard_field (table_get FORM_MAPPINGS key) field generic fa = Ret v →
  EventType.standard_field (table_get FORM_MAPPINGS "default_segment") field generic fa = Ret v.
Proof.
  intros K Hc. change (table_get FORM_MAPPINGS "default_segment") with (@None (member FormConfig)).
  unfold EventType.standard_field.
  destruct (table_get FORM_MAPPINGS key) as [[c|i]|] eqn:E; [| discriminate | auto].
  rewrite (Hc c eq_refl). auto.
Qed.

(** A payload that is built for some event-type name is also built without
    a name, and differs only in what the name decides. *)
Lemma EventType_builds_without_name (env : Env) (c : EventType.contact)
    (eventData qas eventTypeName : value) (seg0 : EventType.segment) (p0 : teleforcePayload) :
  EventType.buildPayload env c eventData qas eventTypeName = Ret (seg0, p0) →
  ∃ p, EventType.buildPayload env c eventData qas VNull
       = Ret ({| EventType.segmentKey := "default_segment";
                 EventType.segmentId := Own default_segment |}, p)
       ∧ segmentid p = Own default_segment
       ∧ name p = name p0 ∧ email p = email p0 ∧ mobile p = mobile p0
       ∧ city p = city p0 ∧ address p = address p0
       ∧ usergroupid p = usergroupid p0
       ∧ map meta_key (otherparams p) = map meta_key (otherparams p0).
Proof.
  unfold EventType.buildPayload. intros H.
  apply bind_Ret_inv in H as (seg & R & H).
  pose proof (resolveSegment_key _ _ R) as K.
  rewrite (resolveSegment_falsy VNull eq_refl). cbn [mbind outcome_bind EventType.segmentKey].
  invert_binds H. injection H as <- <-.
  repeat match goal with
         | E : EventType.collect_answers _ _ = Ret _ |- _ => rewrite E; clear E; cbn [mbind outcome_bind]
         | E : EventType.push_answers _ = Ret _ |- _ => rewrite E; clear E; cbn [mbind outcome_bind]
         | E : Js.Get _ _ = Ret _ |- _ => rewrite E; clear E; cbn [mbind outcome_bind]
         | E : EventType.standard_field _ city_keys _ _ = Ret _ |- _ =>
             rewrite (standard_field_default _ city_keys ["City"; "city"] _ _ K
                        (fun c Hc => proj1 (FORM_MAPPINGS_lists _ c Hc)) E); clear E; cbn [mbind outcome_bind]
         | E : EventType.standard_field _ address_keys _ _ = Ret _ |- _ =>
             rewrite (standard_field_default _ address_keys ["Address"; "address"] _ _ K
                        (fun c Hc => proj2 (FORM_MAPPINGS_lists _ c Hc)) E); clear E; cbn [mbind outcome_bind]
         end.
  cbn [mbind outcome_bind].
  eexists. split; [reflexivity|].
  cbn [segmentid name email mobile city address usergroupid otherparams EventType.segmentId].
  rewrite !map_app. repeat split; reflexivity.
Qed.

Lemma asks_mobile_text (q : value) :
  text_entry q → ∃ b, EventType.asks_mobile q = Ret b.
Proof.
  intros (N & Q & _). unfold EventType.asks_mobile. rewrite (Get_present _ _ N).
  cbn [mbind outcome_bind]. fold (question_of q).
  destruct Q as [Q|[s ->]]; [rewrite (or_falsy _ _ Q) | rewrite or_string_empty]; eauto.
Qed.

Lemma find_mobile_text (l : list value) :
  Forall text_entry l →
  ∃ found, EventType.find_mobile l = Ret found ∧ (found = VUndefined ∨ text_entry found).
Proof.
  induction 1 as [|q l Hq _ IH]; [exists VUndefined; split; [reflexivity | left; reflexivity]|].
  cbn [EventType.find_mobile]. destruct (asks_mobile_text q Hq) as [b ->].
  cbn [mbind outcome_bind]. destruct b; [|exact IH].
  exists q. split; [reflexivity | right; exact Hq].
Qed.

Lemma contact_returns (invitee : value) (l : list value) :
  Js.Truthy invitee = true →
  scalar (Js.GetOpt invitee "name") = true →
  scalar (Js.GetOpt invitee "email") = true →
  Forall text_entry l →
  ∃ c, EventType.contact_of invitee (VArray l) = Ret c
       ∧ EventType.fullName c = Js.or (Js.GetOpt invitee "name") (VString "Unknown").
Proof.
  intros T N E H. unfold EventType.contact_of. rewrite !(Get_truthy _ _ T).
  cbn [mbind outcome_bind]. unfold EventType.mobile_of.
  destruct (find_mobile_text l H) as (found & -> & F). cbn [mbind outcome_bind].
  assert (M : ∃ s, Js.or (Js.GetOpt found "answer") (VString "") = VString s).
  { destruct F as [->|(_ & _ & A)]; [exists ""; reflexivity|].
    unfold answer_of in A. destruct (Js.GetOpt found "answer"); try discriminate A.
    - exists "". reflexivity.
    - exists "". reflexivity.
    - rewrite or_string_empty. eauto. }
  destruct M as [s ->]. cbn [mbind outcome_bind EventType.fullName EventType.contact_email].
  rewrite (scalar_interpolates _ (scalar_or _ (VString "Unknown") N eq_refl)).
  rewrite (scalar_interpolates _ (scalar_or _ (VString "") E eq_refl)).
  cbn [mbind outcome_bind]. eexists. split; reflexivity.
Qed.

Lemma getEventTypeName_text (w : World) (env : Env) (url : value) :
  Js.Truthy url = false ∨ names_a_text (axios_get w url (CALENDLY_ACCESS_TOKEN env)) →
  ∃ eventTypeName lookups,
    EventType.getEventTypeName w env url [] = (Next eventTypeName, lookups)
    ∧ (Js.Truthy eventTypeName = false ∨ ∃ s, eventTypeName = VString s).
Proof.
  intros H. unfold EventType.getEventTypeName, EventType.or_null.
  destruct (Js.Truthy url) eqn:T; cbn [negb];
    [|step_handler; eexists _, _; split; [reflexivity | left; reflexivity]].
  destruct H as [H|H]; [discriminate H|].
  step_handler. unfold Js.interpolate.
  destruct (Js.ToString url); cbn [outcome_bind mbind];
    [|eexists _, _; split; [reflexivity | left; reflexivity]].
  unfold await_get. destruct (axios_get w url (CALENDLY_ACCESS_TOKEN env));
    [|eexists _, _; split; [reflexivity | left; reflexivity]].
  cbn [names_a_text] in H. cbv zeta in H.
  destruct H as [H|[s H]].
  - rewrite (or_falsy _ _ H). cbn [Js.ToString outcome_bind mbind].
    eexists _, _. split; [reflexivity | left; reflexivity].
  - rewrite H. unfold Js.or. destruct (Js.Truthy (VString s)); cbn [Js.ToString outcome_bind mbind];
      eexists _, _; (split; [reflexivity|]); [right; eauto | left; reflexivity].
Qed.

Lemma EventType_forwards (w : World) (env : Env) (req : raw_request) (body : value)
    (l : list value) :
  let n := EventType.normalizeCalendlyWebhook body in
  JSON_parse w (body_text req) = Some body →
  event_type_booking w env body l →
  ∃ p eventTypeName seg lookups,
    run (EventType.webhook w env req)
    = (match axios_post w (TELEFORCE_API_URL env) p with
       | Resolved _ =>
           LeadSent "segmentKey" (VString (EventType.segmentKey seg)) (Some (segmentid p))
       | Rejected d => ServerError (AxiosError d)
       end, (lookups ++ [POST (TELEFORCE_API_URL env) p])%list)
    ∧ EventType.resolveSegment eventTypeName = Ret seg
    ∧ segmentid p = EventType.segmentId seg
    ∧ name p = Js.or (Js.GetOpt (EventType.invitee n) "name") (VString "Unknown")
    ∧ otherparams p
      = (map entry_of (List.filter kept_all l)
         ++ [ {| meta_key := "Calendly_EventType_Name";
                 meta_value := Js.or eventTypeName (VString "") |};
              {| meta_key := "Calendly_ScheduledEvent_URI";
                 meta_value := Js.or (Js.GetOpt (EventType.eventData n) "uri") (VString "") |};
              {| meta_key := "Calendly_Scheduled_Start";
                 meta_value :=
                   Js.or (Js.GetOpt (EventType.eventData n) "start_time") (VString "") |};
              {| meta_key := "Calendly_Scheduled_End";
                 meta_value :=
                   Js.or (Js.GetOpt (EventType.eventData n) "end_time") (VString "") |} ])%list.
Proof.
  intros n P (E & Ti & Te & N & M & Q & F & L). fold n in E, Ti, Te, N, M, Q, F, L.
  destruct (contact_returns _ l Ti N M F) as (c & C & Hc).
  destruct (getEventTypeName_text w env _ L) as (nm & lookups & G & Hn).
  destruct (resolveSegment_text nm Hn) as [seg R].
  destruct (EventType_builds env c (EventType.eventData n) (VArray l) nm seg Te
              (text_entries_are_form_entries _ F) R) as (p & B & O).
  exists p, nm, seg, lookups.
  destruct (EventType_segmentid _ _ _ _ _ _ _ B) as [_ S].
  split; [|split; [exact R | split; [exact S | split; [|exact O]]]].
  - rewrite EventType_run, P, (invitee_truthy_body _ Ti). cbn [negb]. cbv zeta. fold n.
    rewrite E, interpolate_string.
    change (Js.is_string (VString "invitee.created") "invitee.created") with true.
    rewrite Ti, Te. cbn [negb]. rewrite Q, C, (Get_truthy _ _ Te), G, B.
    destruct (axios_post w (TELEFORCE_API_URL env) p); reflexivity.
  - rewrite (EventType_payload_name _ _ _ _ _ _ _ B). exact Hc.
Qed.

(** ** [index.js] forwards a booking *)

Lemma IndexJs_collect_returns (l : list value) (fa : FormAnswers.t) :
  Forall text_question l → ∃ fa', IndexJs.collect_answers fa l = Ret fa'.
Proof.
  intros H. revert fa. induction H as [|qa l [s Q] _ IH]; intros fa; [eauto|].
  cbn [IndexJs.collect_answers]. unfold question_of in Q.
  assert (N : Js.nullish qa = false) by (destruct qa; try discriminate Q; reflexivity).
  rewrite !(Get_present _ _ N), Q. cbn [mbind outcome_bind Js.ToString]. apply IH.
Qed.

Lemma IndexJs_push_total (l : list value) :
  Forall text_question l →
  IndexJs.push_answers l = Ret (map raw_entry_of (List.filter kept_by_index l)).
Proof.
  induction 1 as [|qa l [s Q] _ IH]; [reflexivity|].
  cbn [IndexJs.push_answers List.filter]. unfold kept_by_index at 1.
  unfold question_of in Q |- *.
  assert (N : Js.nullish qa = false) by (destruct qa; try discriminate Q; reflexivity).
  rewrite !(Get_present _ _ N), Q. cbn [mbind outcome_bind].
  destruct (negb (Js.includes_value skipFields (VString s))); [|exact IH].
  rewrite IH. cbn [mbind outcome_bind List.map]. do 2 f_equal.
  unfold raw_entry_of, question_of, answer_of. rewrite Q. reflexivity.
Qed.

Lemma IndexJs_forwards (w : World) (env : Env) (body : value) (t : string) (l : list value) :
  let data := Js.GetOpt body "data" in
  index_booking body t l →
  ∃ p, run (IndexJs.webhook w env body)
       = (match axios_post w (TELEFORCE_API_URL env) p with
          | Resolved _ => LeadSent "segment" (VString t) None
          | Rejected d => ServerError (AxiosError d)
          end, [POST (TELEFORCE_API_URL env) p])
       ∧ name p = Js.or (Js.GetOpt (Js.GetOpt data "invitee") "name") (VString "Unknown")
       ∧ otherparams p
         = (map raw_entry_of (List.filter kept_by_index l)
            ++ [ {| meta_key := "Segment_Name"; meta_value := VString t |};
                 {| meta_key := "Scheduled_Time";
                    meta_value := Js.GetOpt (Js.GetOpt data "event") "start_time" |};
                 {| meta_key := "Timezone";
                    meta_value := Js.GetOpt (Js.GetOpt data "invitee") "timezone" |} ])%list.
Proof.
  intros data (E & Ni & Ht & Hi & Q & F). fold data in Ni, Ht, Q.
  pose proof (has_property _ _ _ Ht) as Te.
  assert (Td : Js.Truthy data = true).
  { destruct data; try discriminate Te; reflexivity. }
  assert (B : ∃ p, IndexJs.buildPayload env data = Ret (VString t, p)).
  { unfold IndexJs.buildPayload. rewrite !(Get_truthy _ _ Td). cbn [mbind outcome_bind].
    rewrite !(Get_truthy _ _ Te), !(Get_present _ _ Ni), Ht, Q.
    cbn [mbind outcome_bind Js.ToString IndexJs.forEach_items].
    destruct (IndexJs_collect_returns l FormAnswers.empty F) as [fa ->].
    cbn [mbind outcome_bind].
    unfold IndexJs.standard_field, table_get. rewrite Hi.
    rewrite (IndexJs_push_total l F).
    destruct (FORM_MAPPINGS !! t); cbn [mbind outcome_bind]; eauto. }
  destruct B as [p B]. exists p. split; [|split].
  - destruct (event_is_string body "invitee.created" E) as [props ->].
    rewrite IndexJs_run. cbn [Js.Get]. cbn [Js.GetOpt] in E. rewrite E, interpolate_string.
    change (Js.is_string (VString "invitee.created") "invitee.created") with true.
    cbn [negb]. fold data. rewrite B.
    destruct (axios_post w (TELEFORCE_API_URL env) p); reflexivity.
  - exact (IndexJs_name _ _ _ _ B).
  - destruct (IndexJs_otherparams _ _ _ _ B) as (l' & Q' & _ & O).
    fold data in Q', O. rewrite Q in Q'. injection Q' as <-. exact O.
Qed.

(** ** The lookup of the event type fails *)

Lemma lookup_failure_forward (w : World) (env : Env) (req : raw_request)
    (body : value) (c : EventType.contact) (url : value)
    (seg : EventType.segment) (p : teleforcePayload) :
  let n := EventType.normalizeCalendlyWebhook body in
  JSON_parse w (body_text req) = Some body →
  EventType.event n = VString "invitee.created" →
  Js.Truthy (EventType.invitee n) = true →
  Js.Truthy (EventType.eventData n) = true →
  EventType.contact_of (EventType.invitee n) (EventType.questionsAnswers n) = Ret c →
  Js.Get (EventType.eventData n) "event_type" = Ret url →
  EventType.lookup_fails w env url →
  EventType.buildPayload env c (EventType.eventData n) (EventType.questionsAnswers n) VNull
  = Ret (seg, p) →
  EventType.segmentKey seg = "default_segment"
  ∧ segmentid p = Own default_segment
  ∧ fst (run (EventType.webhook w env req)) =
    match axios_post w (TELEFORCE_API_URL env) p with
    | Resolved _ => LeadSent "segmentKey" (VString "default_segment") (Some (Own default_segment))
    | Rejected d => ServerError (AxiosError d)
    end
  ∧ last (snd (run (EventType.webhook w env req))) = Some (POST (TELEFORCE_API_URL env) p).
Proof.
  intros n Hp He Hi Hd Hc Hu Hf Hb.
  pose proof (EventType_segmentid _ _ _ _ _ _ _ Hb) as [Hr Hs].
  rewrite resolveSegment_falsy in Hr by reflexivity. injection Hr as <-.
  split; [reflexivity|]. split; [exact Hs|].
  rewrite EventType_run, Hp, (invitee_truthy_body _ Hi). cbn [negb]. cbv zeta. fold n.
  rewrite He, interpolate_string.
  change (Js.is_string (VString "invitee.created") "invitee.created") with true.
  rewrite Hi, Hd. cbn [negb]. rewrite Hc, Hu.
  destruct (getEventTypeName_failed w env url [] Hf) as (tr' & -> & Htr).
  rewrite Hb.
  destruct (axios_post w (TELEFORCE_API_URL env) p); cbn [fst snd];
    (split; [try rewrite Hs; reflexivity | apply last_snoc]).
Qed.

(** C7. When the lookup of the event type fails (no URL, or a rejected
    request: network error, status outside 2xx, timeout),
    [getEventTypeName] still returns, with [null]; [resolveSegment] maps
    [null] to the default segment; and the request goes on to the forward:
    the payload carries the default segment id, it is posted, and the
    response is the one of the forward (200 with the default segment when it
    succeeds), never a failure caused by the lookup. The payload is built
    without the name whenever it can be built for some name of the event
    type, with the same contact, city and address; it is built whenever the
    answers are form entries; and a booking with text entries is forwarded
    to the default segment. *)
Theorem C7_lookup_failure_falls_back (w : World) (env : Env) (req : raw_request)
    (body : value) (url : value) :
  let n := EventType.normalizeCalendlyWebhook body in
  let forwarded_to_default (p : teleforcePayload) :=
    segmentid p = Own default_segment
    ∧ fst (run (EventType.webhook w env req)) =
      match axios_post w (TELEFORCE_API_URL env) p with
      | Resolved _ => LeadSent "segmentKey" (VString "default_segment") (Some (Own default_segment))
      | Rejected d => ServerError (AxiosError d)
      end
    ∧ last (snd (run (EventType.webhook w env req))) = Some (POST (TELEFORCE_API_URL env) p) in
  JSON_parse w (body_text req) = Some body →
  EventType.event n = VString "invitee.created" →
  Js.Truthy (EventType.invitee n) = true →
  Js.Truthy (EventType.eventData n) = true →
  Js.Get (EventType.eventData n) "event_type" = Ret url →
  EventType.lookup_fails w env url →
  (∀ tr, ∃ tr', EventType.getEventTypeName w env url tr = (Next VNull, tr'))
  ∧ EventType.resolveSegment VNull =
      Ret {| EventType.segmentKey := "default_segment"; EventType.segmentId := Own default_segment |}
  ∧ (∀ c seg p,
      EventType.contact_of (EventType.invitee n) (EventType.questionsAnswers n) = Ret c →
      EventType.buildPayload env c (EventType.eventData n) (EventType.questionsAnswers n) VNull = Ret (seg, p) →
      EventType.segmentKey seg = "default_segment" ∧ forwarded_to_default p)
  ∧ (∀ c eventTypeName seg0 p0,
      EventType.contact_of (EventType.invitee n) (EventType.questionsAnswers n) = Ret c →
      EventType.buildPayload env c (EventType.eventData n) (EventType.questionsAnswers n)
        eventTypeName = Ret (seg0, p0) →
      ∃ p, forwarded_to_default p
           ∧ name p = name p0 ∧ email p = email p0 ∧ mobile p = mobile p0
           ∧ city p = city p0 ∧ address p = address p0
           ∧ usergroupid p = usergroupid p0
           ∧ map meta_key (otherparams p) = map meta_key (otherparams p0))
  ∧ (∀ c,
      EventType.contact_of (EventType.invitee n) (EventType.questionsAnswers n) = Ret c →
      Forall form_entry (EventType.array_items (EventType.questionsAnswers n)) →
      ∃ p, forwarded_to_default p ∧ name p = EventType.fullName c)
  ∧ (∀ l,
      event_type_booking w env body l →
      ∃ p, forwarded_to_default p
           ∧ name p = Js.or (Js.GetOpt (EventType.invitee n) "name") (VString "Unknown")
           ∧ otherparams p
             = (map entry_of (List.filter kept_all l)
                ++ [ {| meta_key := "Calendly_EventType_Name"; meta_value := VString "" |};
                     {| meta_key := "Calendly_ScheduledEvent_URI";
                        meta_value :=
                          Js.or (Js.GetOpt (EventType.eventData n) "uri") (VString "") |};
                     {| meta_key := "Calendly_Scheduled_Start";
                        meta_value :=
                          Js.or (Js.GetOpt (EventType.eventData n) "start_time") (VString "") |};
                     {| meta_key := "Calendly_Scheduled_End";
                        meta_value :=
                          Js.or (Js.GetOpt (EventType.eventData n) "end_time") (VString "") |}
                   ])%list).
Proof.
  intros n forwarded_to_default Hp He Hi Hd Hu Hf. subst forwarded_to_default. cbv beta.
  split. { intros tr. destruct (getEventTypeName_failed w env url tr Hf) as (tr' & -> & _). eauto. }
  split. { apply resolveSegment_falsy. reflexivity. }
  split.
  { intros c seg p Hc Hb.
    exact (lookup_failure_forward w env req body c url seg p Hp He Hi Hd Hc Hu Hf Hb). }
  split.
  { intros c eventTypeName seg0 p0 Hc H0.
    destruct (EventType_builds_without_name _ _ _ _ _ _ _ H0) as (p & Hb & _ & Same).
    exists p. split; [|exact Same].
    exact (proj2 (lookup_failure_forward w env req body c url _ p Hp He Hi Hd Hc Hu Hf Hb)). }
  split.
  { intros c Hc Hq.
    destruct (EventType_builds env c (EventType.eventData n) (EventType.questionsAnswers n)
                VNull _ Hd Hq (resolveSegment_falsy VNull eq_refl)) as (p & Hb & O).
    exists p. split.
    - exact (proj2 (lookup_failure_forward w env req body c url _ p Hp He Hi Hd Hc Hu Hf Hb)).
    - exact (EventType_payload_name _ _ _ _ _ _ _ Hb). }
  intros l (_ & _ & _ & N & M & Q & F & _). fold n in N, M, Q.
  destruct (contact_returns _ l Hi N M F) as (c & Hc & Hn). rewrite <- Q in Hc.
  assert (Hq : Forall form_entry (EventType.array_items (EventType.questionsAnswers n))).
  { rewrite Q. exact (text_entries_are_form_entries _ F). }
  destruct (EventType_builds env c (EventType.eventData n) (EventType.questionsAnswers n)
              VNull _ Hd Hq (resolveSegment_falsy VNull eq_refl)) as (p & Hb & O).
  exists p. split; [|split].
  - exact (proj2 (lookup_failure_forward w env req body c url _ p Hp He Hi Hd Hc Hu Hf Hb)).
  - rewrite (EventType_payload_name _ _ _ _ _ _ _ Hb). exact Hn.
  - rewrite O, Q. reflexivity.
Qed.

Lemma C7_witness :
  ∃ p, segmentid p = Own default_segment
       ∧ fst (run (EventType.webhook Sample.lookup_down Sample.env Sample.request))
         = LeadSent "segmentKey" (VString "default_segment") (Some (Own default_segment))
       ∧ last (snd (run (EventType.webhook Sample.lookup_down Sample.env Sample.request)))
         = Some (POST (TELEFORCE_API_URL Sample.env) p)
       ∧ name p = VString "Jane Doe".
Proof.
  destruct (C7_lookup_failure_falls_back Sample.lookup_down Sample.env Sample.request
              Sample.booking (VString "https://api.calendly.com/event_types/T1"))
    as (_ & _ & _ & _ & _ & H).
  - reflexivity.
  - reflexivity.
  - reflexivity.
  - reflexivity.
  - reflexivity.
  - right. eexists. reflexivity.
  - destruct (H (EventType.array_items Sample.answers)) as (p & (S & R & L) & N & _).
    + split; [reflexivity|]. split; [reflexivity|]. split; [reflexivity|].
      split; [reflexivity|]. split; [reflexivity|]. split; [reflexivity|].
      split; [|right; exact I].
      constructor; [|constructor; [|constructor; [|constructor]]];
        (split; [reflexivity|]; split; [right; eexists; reflexivity | reflexivity]).
    + exists p. split; [exact S|]. split; [exact R|]. split; [exact L | exact N].
Defined.

(** ** The metadata list of a forwarded booking *)

(** C3. The [otherparams] of the payload that a handler posts are: one
    entry for each entry of [questionsAnswers] that the version keeps (the
    raw-body version drops the city and address questions, the event-type
    version keeps all), in the order of the input, with the question's
    whitespace runs replaced by underscores as key; and after them the four
    fixed entries, in their fixed order. A sequence whose kept entries all
    have text questions is always processed, and a booking with such
    answers is forwarded with this list: the raw-body version posts it once
    the signature is accepted, the event-type version after the lookup. *)
Theorem C3_otherparams_order :
  (∀ w env req url p,
     In (POST url p) (snd (run (RawBody.webhook w env req))) →
     ∃ body fixed,
       JSON_parse w (body_text req) = Some body
       ∧ otherparams p
         = (map entry_of
              (List.filter kept_but_standard
                 (RawBody.array_items
                    (RawBody.questionsAnswers (RawBody.normalizeCalendlyWebhook body))))
            ++ fixed)%list
       ∧ map meta_key fixed =
         ["Calendly_Event_Title"; "Calendly_Event_Start";
          "Calendly_Invitee_Email"; "Calendly_Invitee_Timezone"])
  ∧ (∀ w env req url p,
     In (POST url p) (snd (run (EventType.webhook w env req))) →
     ∃ body fixed,
       JSON_parse w (body_text req) = Some body
       ∧ otherparams p
         = (map entry_of
              (List.filter kept_all
                 (EventType.array_items
                    (EventType.questionsAnswers (EventType.normalizeCalendlyWebhook body))))
            ++ fixed)%list
       ∧ map meta_key fixed =
         ["Calendly_EventType_Name"; "Calendly_ScheduledEvent_URI";
          "Calendly_Scheduled_Start"; "Calendly_Scheduled_End"])
  ∧ (∀ qas,
     Forall (has_text_question kept_but_standard) qas →
     RawBody.push_answers qas = Ret (map entry_of (List.filter kept_but_standard qas)))
  ∧ (∀ qas,
     Forall (has_text_question kept_all) qas →
     EventType.push_answers qas = Ret (map entry_of (List.filter kept_all qas)))
  ∧ (∀ qa s,
     question_of qa = VString s →
     meta_key (entry_of qa) = JsString.replace_ws "_" s
     ∧ (∀ c, JsString.has_char c (meta_key (entry_of qa)) = true →
             JsString.is_whitespace c = false)
     ∧ ((∀ c, JsString.has_char c s = true → JsString.is_whitespace c = false) →
        meta_key (entry_of qa) = s))
  ∧ (∀ w env req body t,
     JSON_parse w (body_text req) = Some body →
     RawBody.signature_accepted w env req = true →
     raw_booking body t →
     ∃ p fixed,
       snd (run (RawBody.webhook w env req)) = [POST (TELEFORCE_API_URL env) p]
       ∧ otherparams p
         = (map entry_of
              (List.filter kept_but_standard
                 (RawBody.array_items
                    (RawBody.questionsAnswers (RawBody.normalizeCalendlyWebhook body))))
            ++ fixed)%list
       ∧ map meta_key fixed =
         ["Calendly_Event_Title"; "Calendly_Event_Start";
          "Calendly_Invitee_Email"; "Calendly_Invitee_Timezone"])
  ∧ (∀ w env req body l,
     JSON_parse w (body_text req) = Some body →
     event_type_booking w env body l →
     ∃ p lookups fixed,
       snd (run (EventType.webhook w env req))
       = (lookups ++ [POST (TELEFORCE_API_URL env) p])%list
       ∧ otherparams p = (map entry_of (List.filter kept_all l) ++ fixed)%list
       ∧ map meta_key fixed =
         ["Calendly_EventType_Name"; "Calendly_ScheduledEvent_URI";
          "Calendly_Scheduled_Start"; "Calendly_Scheduled_End"]).
Proof.
  split.
  { intros * H. apply RawBody_posts_built_payload in H as (body & title & P & B).
    apply RawBody_otherparams in B as (fixed & O & K). eauto. }
  split.
  { intros * H.
    apply EventType_posts_built_payload in H as (body & c & nm & seg & P & _ & B).
    apply EventType_otherparams in B as (fixed & O & K). eauto. }
  split; [exact RawBody_push_total|]. split; [exact EventType_push_total|].
  split.
  { intros qa s Q. unfold entry_of. rewrite Q. cbn [meta_key].
    split; [reflexivity|]. split.
    - intros c. apply replace_ws_no_whitespace.
    - apply replace_ws_plain. }
  split.
  - intros w env req body t P S H.
    destruct (RawBody_forwards w env req body t P S H) as (p & R & _ & _ & O).
    exists p. eexists. rewrite R. split; [reflexivity|]. split; [exact O | reflexivity].
  - intros w env req body l P H.
    destruct (EventType_forwards w env req body l P H) as (p & nm & seg & lookups & R & _ & _ & _ & O).
    exists p, lookups. eexists. rewrite R. split; [reflexivity|]. split; [exact O | reflexivity].
Qed.

Lemma C3_witness :
  ∃ p,
    snd (run (RawBody.webhook (Sample.world Sample.mixed (Resolved VNull) (Resolved VNull))
                Sample.env Sample.request))
    = [POST (TELEFORCE_API_URL Sample.env) p]
    ∧ map meta_key (otherparams p)
      = ["Company_name"; "Budget"; "Calendly_Event_Title"; "Calendly_Event_Start";
         "Calendly_Invitee_Email"; "Calendly_Invitee_Timezone"].
Proof.
  destruct C3_otherparams_order as (_ & _ & _ & _ & _ & H & _).
  destruct (H (Sample.world Sample.mixed (Resolved VNull) (Resolved VNull))
              Sample.env Sample.request Sample.mixed "CRO" eq_refl eq_refl)
    as (p & fixed & T & O & K).
  - split; [reflexivity|]. split; [reflexivity|]. split; [left; reflexivity|].
    split; [reflexivity|]. split; [discriminate|]. split; [reflexivity|].
    constructor; [|constructor; [|constructor; [|constructor]]];
      right; (split; [eexists; reflexivity | reflexivity]).
  - exists p. split; [exact T|]. rewrite O, map_app, K. reflexivity.
Defined.

(** ** Where the parts of a booking are read *)

Lemma or_null_truthy (a : value) : Js.Truthy (Js.or a VNull) = true → Js.or a VNull = a.
Proof. unfold Js.or. destruct (Js.Truthy a); [reflexivity | discriminate]. Qed.

Lemma IndexJs_reads_event_and_data (w : World) (env : Env) (body body' : value) :
  Js.nullish body = false → Js.nullish body' = false →
  Js.GetOpt body' "event" = Js.GetOpt body "event" →
  Js.GetOpt body' "data" = Js.GetOpt body "data" →
  run (IndexJs.webhook w env body') = run (IndexJs.webhook w env body).
Proof.
  intros N N' E D. rewrite !IndexJs_run, (Get_present _ _ N), (Get_present _ _ N'), E, D.
  reflexivity.
Qed.

(** C2, amended. Each version resolves the three fields independently of
    one another, each from its own locations, and reads nothing else of the
    envelope. The raw-body version takes the invitee from [payload.invitee],
    the event from [payload.event] and the answers from
    [payload.questions_and_answers], and falls back, field by field and
    whenever the first location is falsy, to [data.invitee], [data.event]
    and [data.payload.questions_and_answers]. The event-type version takes
    the invitee from [payload] itself, the event from
    [payload.scheduled_event] and the answers from
    [payload.questions_and_answers], with no fallback to [data]. [index.js]
    reads [data] only and throws without it: its response and its outbound
    calls are the same for two envelopes with the same [event] and [data]. A
    document that has one field under [payload] and the other under [data]
    is resolved field by field by the raw-body version. The answers default
    to the empty array. What is resolved is what is forwarded: the name, the
    start time and the per-question entries of the posted lead come from the
    invitee, the event and the answers found at these locations. *)
Theorem C2_normalizer_locations (body : value) :
  let payload := Js.GetOpt body "payload" in
  let data := Js.GetOpt body "data" in
  let raw := RawBody.normalizeCalendlyWebhook body in
  let evt := EventType.normalizeCalendlyWebhook body in
  RawBody.invitee raw = Js.or (Js.GetOpt payload "invitee") (Js.GetOpt data "invitee")
  ∧ RawBody.eventData raw = Js.or (Js.GetOpt payload "event") (Js.GetOpt data "event")
  ∧ RawBody.questionsAnswers raw =
      Js.or (Js.GetOpt payload "questions_and_answers")
            (Js.or (Js.GetOpt (Js.GetOpt data "payload") "questions_and_answers") (VArray []))
  ∧ EventType.invitee evt = Js.or payload VNull
  ∧ EventType.eventData evt = Js.or (Js.GetOpt payload "scheduled_event") VNull
  ∧ EventType.questionsAnswers evt = Js.or (Js.GetOpt payload "questions_and_answers") (VArray [])
  ∧ (Js.Truthy (Js.GetOpt payload "invitee") = true →
     Js.Truthy (Js.GetOpt payload "event") = false →
     RawBody.invitee raw = Js.GetOpt payload "invitee"
     ∧ RawBody.eventData raw = Js.GetOpt data "event")
  ∧ (Js.Truthy (Js.GetOpt payload "invitee") = false →
     Js.Truthy (Js.GetOpt payload "event") = true →
     RawBody.invitee raw = Js.GetOpt data "invitee"
     ∧ RawBody.eventData raw = Js.GetOpt payload "event")
  ∧ Js.Truthy (RawBody.questionsAnswers raw) = true
  ∧ Js.Truthy (EventType.questionsAnswers evt) = true
  ∧ (∀ w env,
      Js.is_string (Js.GetOpt body "event") "invitee.created" = true
      ∧ Js.nullish data = true →
      run (IndexJs.webhook w env body) = (ServerError TypeError, []))
  ∧ (∀ body',
      Js.GetOpt body' "event" = Js.GetOpt body "event" →
      Js.GetOpt (Js.GetOpt body' "payload") "invitee" = Js.GetOpt payload "invitee" →
      Js.GetOpt (Js.GetOpt body' "payload") "event" = Js.GetOpt payload "event" →
      Js.GetOpt (Js.GetOpt body' "payload") "questions_and_answers"
      = Js.GetOpt payload "questions_and_answers" →
      Js.GetOpt (Js.GetOpt body' "data") "invitee" = Js.GetOpt data "invitee" →
      Js.GetOpt (Js.GetOpt body' "data") "event" = Js.GetOpt data "event" →
      Js.GetOpt (Js.GetOpt (Js.GetOpt body' "data") "payload") "questions_and_answers"
      = Js.GetOpt (Js.GetOpt data "payload") "questions_and_answers" →
      RawBody.normalizeCalendlyWebhook body' = raw)
  ∧ (∀ body',
      Js.GetOpt body' "event" = Js.GetOpt body "event" →
      Js.GetOpt body' "payload" = payload →
      EventType.normalizeCalendlyWebhook body' = evt)
  ∧ (∀ w env body',
      Js.nullish body = false → Js.nullish body' = false →
      Js.GetOpt body' "event" = Js.GetOpt body "event" →
      Js.GetOpt body' "data" = data →
      run (IndexJs.webhook w env body') = run (IndexJs.webhook w env body))
  ∧ (∀ w env req t,
      JSON_parse w (body_text req) = Some body →
      RawBody.signature_accepted w env req = true →
      raw_booking body t →
      ∃ p,
        snd (run (RawBody.webhook w env req)) = [POST (TELEFORCE_API_URL env) p]
        ∧ RawBody.fullName_of (Js.or (Js.GetOpt payload "invitee") (Js.GetOpt data "invitee"))
          = Ret (name p)
        ∧ otherparams p
          = (map entry_of
               (List.filter kept_but_standard
                  (RawBody.array_items
                     (Js.or (Js.GetOpt payload "questions_and_answers")
                        (Js.or (Js.GetOpt (Js.GetOpt data "payload") "questions_and_answers")
                           (VArray [])))))
             ++ [ {| meta_key := "Calendly_Event_Title"; meta_value := VString t |};
                  {| meta_key := "Calendly_Event_Start";
                     meta_value :=
                       Js.or (Js.GetOpt (Js.or (Js.GetOpt payload "event")
                                               (Js.GetOpt data "event")) "start_time")
                             (VString "") |};
                  {| meta_key := "Calendly_Invitee_Email";
                     meta_value :=
                       Js.or (Js.GetOpt (Js.or (Js.GetOpt payload "invitee")
                                               (Js.GetOpt data "invitee")) "email")
                             (VString "") |};
                  {| meta_key := "Calendly_Invitee_Timezone";
                     meta_value :=
                       Js.or (Js.GetOpt (Js.or (Js.GetOpt payload "invitee")
                                               (Js.GetOpt data "invitee")) "timezone")
                             (VString "") |} ])%list)
  ∧ (∀ w env req l,
      JSON_parse w (body_text req) = Some body →
      event_type_booking w env body l →
      ∃ p eventTypeName lookups,
        snd (run (EventType.webhook w env req))
        = (lookups ++ [POST (TELEFORCE_API_URL env) p])%list
        ∧ Js.or (Js.GetOpt payload "questions_and_answers") (VArray []) = VArray l
        ∧ name p = Js.or (Js.GetOpt payload "name") (VString "Unknown")
        ∧ otherparams p
          = (map entry_of (List.filter kept_all l)
             ++ [ {| meta_key := "Calendly_EventType_Name";
                     meta_value := Js.or eventTypeName (VString "") |};
                  {| meta_key := "Calendly_ScheduledEvent_URI";
                     meta_value :=
                       Js.or (Js.GetOpt (Js.GetOpt payload "scheduled_event") "uri")
                             (VString "") |};
                  {| meta_key := "Calendly_Scheduled_Start";
                     meta_value :=
                       Js.or (Js.GetOpt (Js.GetOpt payload "scheduled_event") "start_time")
                             (VString "") |};
                  {| meta_key := "Calendly_Scheduled_End";
                     meta_value :=
                       Js.or (Js.GetOpt (Js.GetOpt payload "scheduled_event") "end_time")
                             (VString "") |} ])%list)
  ∧ (∀ w env t l,
      index_booking body t l →
      ∃ p,
        snd (run (IndexJs.webhook w env body)) = [POST (TELEFORCE_API_URL env) p]
        ∧ name p = Js.or (Js.GetOpt (Js.GetOpt data "invitee") "name") (VString "Unknown")
        ∧ otherparams p
          = (map raw_entry_of (List.filter kept_by_index l)
             ++ [ {| meta_key := "Segment_Name"; meta_value := VString t |};
                  {| meta_key := "Scheduled_Time";
                     meta_value := Js.GetOpt (Js.GetOpt data "event") "start_time" |};
                  {| meta_key := "Timezone";
                     meta_value := Js.GetOpt (Js.GetOpt data "invitee") "timezone" |} ])%list).
Proof.
  cbv zeta. split; [reflexivity|]. split; [reflexivity|].
  split; [apply RawBody_questionsAnswers|].
  split; [reflexivity|]. split; [reflexivity|]. split; [reflexivity|].
  split.
  { intros Hi He. cbn [RawBody.normalizeCalendlyWebhook RawBody.invitee RawBody.eventData].
    rewrite (or_truthy _ _ Hi), (or_falsy _ _ He). split; reflexivity. }
  split.
  { intros Hi He. cbn [RawBody.normalizeCalendlyWebhook RawBody.invitee RawBody.eventData].
    rewrite (or_falsy _ _ Hi), (or_truthy _ _ He). split; reflexivity. }
  split.
  { rewrite RawBody_questionsAnswers. unfold Js.or.
    repeat (match goal with |- context [if Js.Truthy ?x then _ else _] =>
              destruct (Js.Truthy x) eqn:? end); auto. }
  split.
  { cbn [EventType.normalizeCalendlyWebhook EventType.questionsAnswers]. unfold Js.or.
    match goal with |- context [if Js.Truthy ?x then _ else _] =>
      destruct (Js.Truthy x) eqn:? end; auto. }
  split.
  { intros w env [He Hd]. apply IndexJs_needs_data; [|exact Hd].
    destruct (Js.GetOpt body "event"); try discriminate He.
    simpl in He. apply String.eqb_eq in He. congruence. }
  split.
  { intros body' E H1 H2 H3 H4 H5 H6. unfold RawBody.normalizeCalendlyWebhook.
    rewrite E, H1, H2, H3, H4, H5, H6. reflexivity. }
  split.
  { intros body' E H. unfold EventType.normalizeCalendlyWebhook. rewrite E, H. reflexivity. }
  split.
  { intros w env body' N N' E D. exact (IndexJs_reads_event_and_data w env body body' N N' E D). }
  split.
  { intros w env req t P S H.
    destruct (RawBody_forwards w env req body t P S H) as (p & R & _ & N & O).
    exists p. rewrite R. split; [reflexivity|]. split; [exact N|].
    rewrite O, RawBody_questionsAnswers. reflexivity. }
  split.
  { intros w env req l P H.
    destruct (EventType_forwards w env req body l P H)
      as (p & nm & seg & lookups & R & _ & _ & N & O).
    destruct H as (_ & Ti & Te & _ & _ & Q & _).
    cbn [EventType.normalizeCalendlyWebhook EventType.invitee EventType.eventData
         EventType.questionsAnswers] in Ti, Te, Q, N, O.
    rewrite (or_null_truthy _ Ti) in N. rewrite (or_null_truthy _ Te) in O.
    exists p, nm, lookups. rewrite R. split; [reflexivity|].
    split; [exact Q | split; [exact N | exact O]]. }
  intros w env t l H.
  destruct (IndexJs_forwards w env body t l H) as (p & R & N & O).
  exists p. rewrite R. split; [reflexivity|]. split; [exact N | exact O].
Qed.

Lemma C2_witness :
  ∃ p,
    snd (run (RawBody.webhook (Sample.world Sample.mixed (Resolved VNull) (Resolved VNull))
                Sample.env Sample.request))
    = [POST (TELEFORCE_API_URL Sample.env) p]
    ∧ name p = VString "Jane Doe"
    ∧ In {| meta_key := "Calendly_Event_Start";
            meta_value := VString "2024-01-01T10:00:00Z" |} (otherparams p)
    ∧ In {| meta_key := "Company_name"; meta_value := VString "Acme" |} (otherparams p).
Proof.
  destruct (C2_normalizer_locations Sample.mixed)
    as (_ & _ & _ & _ & _ & _ & _ & _ & _ & _ & _ & _ & _ & _ & H & _).
  destruct (H (Sample.world Sample.mixed (Resolved VNull) (Resolved VNull))
              Sample.env Sample.request "CRO" eq_refl eq_refl)
    as (p & T & N & O).
  - split; [reflexivity|]. split; [reflexivity|]. split; [left; reflexivity|].
    split; [reflexivity|]. split; [discriminate|]. split; [reflexivity|].
    constructor; [|constructor; [|constructor; [|constructor]]];
      right; (split; [eexists; reflexivity | reflexivity]).
  - exists p. split; [exact T|]. split.
    + injection N as <-. reflexivity.
    + rewrite O. split; vm_compute; tauto.
Defined.
